(** * nezha-dash: chunked GeoIP loader and IP-to-country resolver

    A shallow embedding of [lib/geo/chunked-loader.ts], [lib/geo/preload.ts]
    and [lib/geo/ip-to-country.ts], and the properties of the loader, the
    database selector, the preload coordinator and the resolution cache.

    Module-level [let] variables of the three TypeScript modules are the
    fields of one [State] record; a JavaScript function that reads or writes
    them, or that can throw, is a computation in the state-and-exception
    monad [M].  Everything outside the process (file system, zlib, JSON,
    the maxmind reader, the heap handed out by [Buffer.allocUnsafe]) is a
    field of the [World] record. *)

From Stdlib Require Import Lia Ascii.
From stdpp Require Import base list strings pretty.

Local Open Scope string_scope.
Local Open Scope list_scope.

(** ** Values *)

Definition bytes := list Byte.byte.

(** JavaScript truthiness of a string: every string but the empty one. *)
Definition truthy (s : string) : bool :=
  match s with
  | EmptyString => false
  | String _ _ => true
  end.

(** [path.join] on segments that need no normalisation. *)
Definition path_join (a b : string) : string := a +:+ "/" +:+ b.

(** ** Exceptions *)

Inductive error : Type :=
  | MetadataNotFound (metadataPath : string)
  | ChunkNotFound (chunkPath : string)
  | ChunkSizeMismatch (i expected got : nat)
  | NoDatabaseFound
  | NotPreloaded
  | TypeError
  | ExternalError (msg : string).

Inductive result (A : Type) : Type :=
  | Ok (a : A)
  | Err (e : error).

Arguments Ok {A} a.
Arguments Err {A} e.

(** ** Data model of the manifest ([interface ChunkMetadata]) *)

Record ChunkInfo : Type := mkChunkInfo {
  index : nat;
  originalSize : nat;
  compressedSize : nat;
  filename : string
}.

Record ChunkMetadata : Type := mkChunkMetadata {
  originalFile : string;
  totalSize : nat;
  chunkSize : nat;
  numChunks : nat;
  totalCompressedSize : nat;
  compressionRatio : string;
  chunks : list ChunkInfo;
  createdAt : string
}.

(** ** The lookup provider (maxmind [Reader]) and its records *)

Record Reader : Type := mkReader { reader_buffer : bytes }.

Inductive DbType : Type := maxmind | ipinfo.

(** What [extractCountryCode] reads from a record, typed as the source's
    interfaces type it: [country] of an [IPInfoResponse], and
    [country.iso_code] and [registered_country.iso_code] of a
    [CityResponse]. *)
Record RawRecord : Type := mkRawRecord {
  rec_country : option string;
  rec_country_iso_code : option string;
  rec_registered_country_iso_code : option string
}.

(** ** The world outside the process *)

Record World : Type := mkWorld {
  cwd : string;
  existsSync : string -> bool;
  readFileSync : string -> result bytes;
  JSON_parse : bytes -> result ChunkMetadata;
  gunzipSync : bytes -> result bytes;
  (** the bytes found in memory returned by [Buffer.allocUnsafe] *)
  uninitialized : nat -> Byte.byte;
  (** what the [Reader] constructor throws on a buffer, if anything *)
  Reader_check : bytes -> option error;
  (** [reader.get(ip)] on a reader over this buffer *)
  Reader_get : bytes -> string -> result (option RawRecord)
}.

(** ** JavaScript [Map<string, string | null>]

    Iteration order is insertion order: [set] on a present key overwrites
    the value in place, [set] on an absent key appends, [delete] removes. *)

Definition JsMap := list (string * option string).

Definition Map_has (k : string) (m : JsMap) : bool :=
  existsb (fun e => String.eqb (fst e) k) m.

Definition Map_get (k : string) (m : JsMap) : option (option string) :=
  snd <$> List.find (fun e => String.eqb (fst e) k) m.

Fixpoint Map_set (k : string) (v : option string) (m : JsMap) : JsMap :=
  match m with
  | [] => [(k, v)]
  | e :: m' => if String.eqb (fst e) k then (k, v) :: m' else e :: Map_set k v m'
  end.

Definition Map_delete (k : string) (m : JsMap) : JsMap :=
  List.filter (fun e => negb (String.eqb (fst e) k)) m.

(** [m.keys().next().value] *)
Definition Map_first_key (m : JsMap) : option string := fst <$> head m.

Definition Map_size (m : JsMap) : nat := length m.

Definition Map_keys (m : JsMap) : list string := map fst m.

(** [v || null] on the result of [Map.get] *)
Definition or_null (v : option (option string)) : option string :=
  match v with
  | Some (Some s) => if truthy s then Some s else None
  | _ => None
  end.

(** ** Module state *)

Inductive LogLine : Type :=
  | LogAlreadyPreloaded
  | LogWaitingForPreload
  | LogPreloading
  | LogPreloaded
  | LogUsingChunked
  | LogNoChunkedDatabase
  | LogPreloadFailed (e : error).

Record State : Type := mkState {
  (* chunked-loader.ts *)
  cachedReader : option Reader;
  cachedBuffer : option bytes;
  (* preload.ts; a promise is represented by the outcome it settles to *)
  isPreloaded : bool;
  preloadPromise : option (result unit);
  (* ip-to-country.ts *)
  geoIPReader : option Reader;
  databaseType : DbType;
  isInitializing : bool;
  initPromise : option (result Reader);
  ipCountryCache : JsMap;
  (* instrumentation: calls of gunzipSync and of reader.get *)
  gunzip_calls : nat;
  provider_queries : nat;
  (* console.log and console.error *)
  console : list LogLine
}.

#[warnings="-abstract-large-number"]
Definition MAX_CACHE_SIZE : nat := 10000.

Definition initial_state : State :=
  {| cachedReader := None; cachedBuffer := None;
     isPreloaded := false; preloadPromise := None;
     geoIPReader := None; databaseType := maxmind;
     isInitializing := false; initPromise := None;
     ipCountryCache := [];
     gunzip_calls := 0; provider_queries := 0; console := [] |}.

Definition set_cachedReader (v : option Reader) (s : State) : State :=
  mkState v (cachedBuffer s) (isPreloaded s) (preloadPromise s) (geoIPReader s)
    (databaseType s) (isInitializing s) (initPromise s) (ipCountryCache s)
    (gunzip_calls s) (provider_queries s) (console s).

Definition set_cachedBuffer (v : option bytes) (s : State) : State :=
  mkState (cachedReader s) v (isPreloaded s) (preloadPromise s) (geoIPReader s)
    (databaseType s) (isInitializing s) (initPromise s) (ipCountryCache s)
    (gunzip_calls s) (provider_queries s) (console s).

Definition set_isPreloaded (v : bool) (s : State) : State :=
  mkState (cachedReader s) (cachedBuffer s) v (preloadPromise s) (geoIPReader s)
    (databaseType s) (isInitializing s) (initPromise s) (ipCountryCache s)
    (gunzip_calls s) (provider_queries s) (console s).

Definition set_preloadPromise (v : option (result unit)) (s : State) : State :=
  mkState (cachedReader s) (cachedBuffer s) (isPreloaded s) v (geoIPReader s)
    (databaseType s) (isInitializing s) (initPromise s) (ipCountryCache s)
    (gunzip_calls s) (provider_queries s) (console s).

Definition set_geoIPReader (v : option Reader) (s : State) : State :=
  mkState (cachedReader s) (cachedBuffer s) (isPreloaded s) (preloadPromise s) v
    (databaseType s) (isInitializing s) (initPromise s) (ipCountryCache s)
    (gunzip_calls s) (provider_queries s) (console s).

Definition set_databaseType (v : DbType) (s : State) : State :=
  mkState (cachedReader s) (cachedBuffer s) (isPreloaded s) (preloadPromise s)
    (geoIPReader s) v (isInitializing s) (initPromise s) (ipCountryCache s)
    (gunzip_calls s) (provider_queries s) (console s).

Definition set_isInitializing (v : bool) (s : State) : State :=
  mkState (cachedReader s) (cachedBuffer s) (isPreloaded s) (preloadPromise s)
    (geoIPReader s) (databaseType s) v (initPromise s) (ipCountryCache s)
    (gunzip_calls s) (provider_queries s) (console s).

Definition set_initPromise (v : option (result Reader)) (s : State) : State :=
  mkState (cachedReader s) (cachedBuffer s) (isPreloaded s) (preloadPromise s)
    (geoIPReader s) (databaseType s) (isInitializing s) v (ipCountryCache s)
    (gunzip_calls s) (provider_queries s) (console s).

Definition set_ipCountryCache (v : JsMap) (s : State) : State :=
  mkState (cachedReader s) (cachedBuffer s) (isPreloaded s) (preloadPromise s)
    (geoIPReader s) (databaseType s) (isInitializing s) (initPromise s) v
    (gunzip_calls s) (provider_queries s) (console s).

Definition count_gunzip (s : State) : State :=
  mkState (cachedReader s) (cachedBuffer s) (isPreloaded s) (preloadPromise s)
    (geoIPReader s) (databaseType s) (isInitializing s) (initPromise s)
    (ipCountryCache s) (S (gunzip_calls s)) (provider_queries s) (console s).

Definition count_query (s : State) : State :=
  mkState (cachedReader s) (cachedBuffer s) (isPreloaded s) (preloadPromise s)
    (geoIPReader s) (databaseType s) (isInitializing s) (initPromise s)
    (ipCountryCache s) (gunzip_calls s) (S (provider_queries s)) (console s).

Definition log (l : LogLine) (s : State) : State :=
  mkState (cachedReader s) (cachedBuffer s) (isPreloaded s) (preloadPromise s)
    (geoIPReader s) (databaseType s) (isInitializing s) (initPromise s)
    (ipCountryCache s) (gunzip_calls s) (provider_queries s) (console s ++ [l]).

(** ** The state-and-exception monad

    A throw keeps the writes made before it, as in JavaScript. *)

Definition M (A : Type) : Type := State -> result A * State.

Definition ret {A} (a : A) : M A := fun s => (Ok a, s).

Definition throw {A} (e : error) : M A := fun s => (Err e, s).

Definition bind {A B} (m : M A) (k : A -> M B) : M B :=
  fun s =>
    match m s with
    | (Ok a, s') => k a s'
    | (Err e, s') => (Err e, s')
    end.

Definition try_catch {A} (m : M A) (handler : error -> M A) : M A :=
  fun s =>
    match m s with
    | (Ok a, s') => (Ok a, s')
    | (Err e, s') => handler e s'
    end.

(** [try { m } finally { f }] with a [finally] block that cannot throw *)
Definition try_finally {A} (m : M A) (f : State -> State) : M A :=
  fun s => let '(r, s') := m s in (r, f s').

Definition read {A} (f : State -> A) : M A := fun s => (Ok (f s), s).

Definition write (f : State -> State) : M unit := fun s => (Ok tt, f s).

Definition lift {A} (r : result A) : M A := fun s => (r, s).

Notation "x <- m ;; k" := (bind m (fun x => k))
  (at level 100, m at next level, right associativity).
Notation "m ;; k" := (bind m (fun _ => k))
  (at level 100, right associativity).

Section Program.

Variable w : World.

(** ** chunked-loader.ts *)

(** [Buffer.allocUnsafe(n)]: [n] bytes of whatever the heap holds ([n]
    taken to be below the largest buffer length of the runtime). *)
Definition allocUnsafe (n : nat) : bytes := map (uninitialized w) (seq 0 n).

(** [source.copy(target, targetStart)]: writes [source] into [target] from
    position [targetStart] on, cut to the room that [target] has left. *)
Definition Buffer_copy (source target : bytes) (targetStart : nat) : bytes :=
  take targetStart target
    ++ take (length target - targetStart) source
    ++ drop (targetStart + length source) target.

(** [new Reader<any>(buffer)] *)
Definition new_Reader (buffer : bytes) : M Reader :=
  match Reader_check w buffer with
  | Some e => throw e
  | None => ret (mkReader buffer)
  end.

(** [gunzipSync], counted. *)
Definition gunzip (compressed : bytes) : M bytes :=
  write count_gunzip ;; lift (gunzipSync w compressed).

(** The iterations [i, i+1, ..., i+n-1] of the [for] loop of
    [loadGeoIPFromChunks]; [fullBuffer] is updated in place in the source
    and threaded here. *)
Fixpoint load_chunks (chunksDir : string) (metadata : ChunkMetadata)
    (n i : nat) (fullBuffer : bytes) (offset : nat) : M bytes :=
  match n with
  | 0 => ret fullBuffer
  | S n' =>
      chunkInfo <- match chunks metadata !! i with
                   | Some c => ret c
                   | None => throw TypeError
                   end ;;
      let chunkPath := path_join chunksDir (filename chunkInfo) in
      if negb (existsSync w chunkPath) then throw (ChunkNotFound chunkPath)
      else
        compressedChunk <- lift (readFileSync w chunkPath) ;;
        decompressedChunk <- gunzip compressedChunk ;;
        if negb (Nat.eqb (length decompressedChunk) (originalSize chunkInfo))
        then throw (ChunkSizeMismatch i (originalSize chunkInfo)
                      (length decompressedChunk))
        else
          load_chunks chunksDir metadata n' (S i)
            (Buffer_copy decompressedChunk fullBuffer offset)
            (offset + length decompressedChunk)
  end.

Definition loadGeoIPFromChunks (chunksDir : string) : M Reader :=
  cached <- read cachedReader ;;
  match cached with
  | Some reader => ret reader
  | None =>
      let metadataPath := path_join chunksDir "metadata.json" in
      if negb (existsSync w metadataPath)
      then throw (MetadataNotFound metadataPath)
      else
        text <- lift (readFileSync w metadataPath) ;;
        metadata <- lift (JSON_parse w text) ;;
        fullBuffer <- load_chunks chunksDir metadata (numChunks metadata) 0
                        (allocUnsafe (totalSize metadata)) 0 ;;
        reader <- new_Reader fullBuffer ;;
        write (set_cachedReader (Some reader)) ;;
        write (set_cachedBuffer (Some fullBuffer)) ;;
        ret reader
  end.

Definition hasChunkedDatabase (chunksDir : string) : bool :=
  existsSync w (path_join chunksDir "metadata.json").

(** The result is typed as the source types it: a manifest file whose JSON
    is [null], or not a manifest object, is outside [JSON_parse]. *)
Definition getChunkedMetadata (chunksDir : string)
    : result (option ChunkMetadata) :=
  let metadataPath := path_join chunksDir "metadata.json" in
  if negb (existsSync w metadataPath) then Ok None
  else
    match readFileSync w metadataPath with
    | Ok text =>
        match JSON_parse w text with
        | Ok metadata => Ok (Some metadata)
        | Err e => Err e
        end
    | Err e => Err e
    end.

Definition clearChunkedCache : M unit :=
  write (set_cachedReader None) ;;
  write (set_cachedBuffer None).

(** ** preload.ts *)

Definition preload_chunksDir : string :=
  path_join (path_join (path_join (cwd w) "lib") "maxmind-db") "chunks".

(** The body of the [async] arrow function of [preloadGeoIPDatabase]. *)
Definition preload_task : M unit :=
  try_finally
    (try_catch
       (if hasChunkedDatabase preload_chunksDir then
          write (log LogPreloading) ;;
          _ <- loadGeoIPFromChunks preload_chunksDir ;;
          write (log LogPreloaded) ;;
          write (log LogUsingChunked) ;;
          write (set_isPreloaded true)
        else
          write (log LogNoChunkedDatabase))
       (fun e => write (log (LogPreloadFailed e))))
    (set_preloadPromise None).

(** The arrow function is called at once and runs inside that call up to
    its first [await]; only then is its promise assigned to
    [preloadPromise].  When the body awaits (the chunked branch), its
    [finally] block runs after the assignment and leaves [null]; when it
    does not, the assignment comes last and the settled promise stays. *)
Definition preloadGeoIPDatabase : M unit :=
  preloaded <- read isPreloaded ;;
  if preloaded then write (log LogAlreadyPreloaded)
  else
    pending <- read preloadPromise ;;
    match pending with
    | Some outcome => write (log LogWaitingForPreload) ;; lift outcome
    | None =>
        fun s =>
          let '(r, s') := preload_task s in
          (r, if hasChunkedDatabase preload_chunksDir then s'
              else set_preloadPromise (Some r) s')
    end.

Definition isGeoIPPreloaded : M bool := read isPreloaded.

(** ** ip-to-country.ts *)

Record DatabaseSelection : Type := mkSelection {
  path : string;
  type : DbType;
  chunked : bool
}.

Definition basePath : string := path_join (path_join (cwd w) "lib") "maxmind-db".

Definition detectDatabaseType : result DatabaseSelection :=
  let chunksDir := path_join basePath "chunks" in
  if hasChunkedDatabase chunksDir
  then Ok {| path := chunksDir; type := maxmind; chunked := true |}
  else
    let ipinfoCountry := path_join basePath "country.mmdb" in
    let ipinfoLite := path_join basePath "ipinfo_lite.mmdb" in
    let maxmindCity := path_join basePath "GeoLite2-City.mmdb" in
    if existsSync w ipinfoCountry
    then Ok {| path := ipinfoCountry; type := ipinfo; chunked := false |}
    else if existsSync w ipinfoLite
    then Ok {| path := ipinfoLite; type := ipinfo; chunked := false |}
    else if existsSync w maxmindCity
    then Ok {| path := maxmindCity; type := maxmind; chunked := false |}
    else Err NoDatabaseFound.

(** The body of the [async] arrow function of [initGeoIPReaderAsync]. *)
Definition init_task : M Reader :=
  try_catch
    (sel <- lift detectDatabaseType ;;
     if chunked sel then
       reader <- loadGeoIPFromChunks (path sel) ;;
       write (set_geoIPReader (Some reader)) ;;
       write (set_databaseType (type sel)) ;;
       write (set_isInitializing false) ;;
       ret reader
     else
       dbBuffer <- lift (readFileSync w (path sel)) ;;
       reader <- new_Reader dbBuffer ;;
       write (set_geoIPReader (Some reader)) ;;
       write (set_databaseType (type sel)) ;;
       write (set_isInitializing false) ;;
       ret reader)
    (fun e =>
       write (set_isInitializing false) ;;
       write (set_initPromise None) ;;
       throw e).

(** As in [preloadGeoIPDatabase], the promise is assigned to [initPromise]
    when the arrow function first awaits (the chunked branch, where a later
    failure resets it to [null]) or, when it never awaits, after its body. *)
Definition initGeoIPReaderAsync : M Reader :=
  current <- read geoIPReader ;;
  match current with
  | Some reader => ret reader
  | None =>
      initializing <- read isInitializing ;;
      pending <- read initPromise ;;
      match initializing, pending with
      | true, Some outcome => lift outcome
      | _, _ =>
          write (set_isInitializing true) ;;
          fun s =>
            let '(r, s') := init_task s in
            let awaited :=
              match detectDatabaseType with
              | Ok sel => chunked sel
              | Err _ => false
              end in
            (r, match awaited, r with
                | true, Err _ => s'
                | _, _ => set_initPromise (Some r) s'
                end)
      end
  end.

Definition initGeoIPReader : M Reader :=
  current <- read geoIPReader ;;
  match current with
  | Some reader => ret reader
  | None =>
      try_catch
        (sel <- lift detectDatabaseType ;;
         if chunked sel then
           current <- read geoIPReader ;;
           match current with
           | None => throw NotPreloaded
           | Some reader => ret reader
           end
         else
           dbBuffer <- lift (readFileSync w (path sel)) ;;
           reader <- new_Reader dbBuffer ;;
           write (set_geoIPReader (Some reader)) ;;
           write (set_databaseType (type sel)) ;;
           ret reader)
        (fun e => throw e)
  end.

(** A property that may be missing, used as a condition or as the left
    operand of [||]: the string when it is there and not empty. *)
Definition present (field : option string) : option string :=
  match field with
  | Some c => if truthy c then Some c else None
  | None => None
  end.

Definition extractCountryCode (dbt : DbType) (result : option RawRecord)
    : option string :=
  match result with
  | None => None
  | Some r =>
      match dbt with
      | ipinfo => present (rec_country r)
      | maxmind =>
          match present (rec_country_iso_code r) with
          | Some iso_code => Some iso_code
          | None => present (rec_registered_country_iso_code r)
          end
      end
  end.

(** [reader.get(ip)], counted. *)
Definition reader_get (reader : Reader) (ip : string) : M (option RawRecord) :=
  write count_query ;; lift (Reader_get w (reader_buffer reader) ip).

(** The first test of both resolvers:
    [!ip || ip === "" || ip === "::"]. *)
Definition no_address (ip : string) : bool :=
  negb (truthy ip) || String.eqb ip "" || String.eqb ip "::".

(** The block that stores a result: evict the first key when the size has
    reached [MAX_CACHE_SIZE], then [set]. *)
Definition cache_store (ip : string) (countryCode : option string)
    (cache : JsMap) : JsMap :=
  let cache' :=
    if Nat.leb MAX_CACHE_SIZE (Map_size cache) then
      match Map_first_key cache with
      | Some firstKey =>
          if truthy firstKey then Map_delete firstKey cache else cache
      | None => cache
      end
    else cache in
  Map_set ip countryCode cache'.

Definition getCountryCodeFromIPAsync (ip : string) : M (option string) :=
  if no_address ip then ret None
  else
    cache <- read ipCountryCache ;;
    if Map_has ip cache then ret (or_null (Map_get ip cache))
    else
      try_catch
        (reader <- initGeoIPReaderAsync ;;
         result <- reader_get reader ip ;;
         dbt <- read databaseType ;;
         let countryCode := extractCountryCode dbt result in
         write (fun s => set_ipCountryCache
                           (cache_store ip countryCode (ipCountryCache s)) s) ;;
         ret countryCode)
        (fun _ => ret None).

Definition getCountryCodeFromIP (ip : string) : M (option string) :=
  if no_address ip then ret None
  else
    cache <- read ipCountryCache ;;
    if Map_has ip cache then ret (or_null (Map_get ip cache))
    else
      try_catch
        (reader <- initGeoIPReader ;;
         result <- reader_get reader ip ;;
         dbt <- read databaseType ;;
         let countryCode := extractCountryCode dbt result in
         write (fun s => set_ipCountryCache
                           (cache_store ip countryCode (ipCountryCache s)) s) ;;
         ret countryCode)
        (fun _ => ret None).

Definition getCacheStats : M (nat * nat) :=
  cache <- read ipCountryCache ;;
  ret (Map_size cache, MAX_CACHE_SIZE).

Definition clearCache : M unit := write (set_ipCountryCache []).

(** The two [if] blocks skip to what follows them when their address is
    missing or refused, or when the country code found is [null] (or
    empty). *)
Definition getCountryCodeFromServerIPs (ipv4 ipv6 : option string)
    : M (option string) :=
  fromIPv4 <- match ipv4 with
              | Some a =>
                  if truthy a && negb (String.eqb a "")
                  then getCountryCodeFromIP a
                  else ret None
              | None => ret None
              end ;;
  match present fromIPv4 with
  | Some countryCode => ret (Some countryCode)
  | None =>
      fromIPv6 <- match ipv6 with
                  | Some a =>
                      if truthy a && negb (String.eqb a "")
                         && negb (String.eqb a "::")
                      then getCountryCodeFromIP a
                      else ret None
                  | None => ret None
                  end ;;
      match present fromIPv6 with
      | Some countryCode => ret (Some countryCode)
      | None => ret None
      end
  end.

(** ** Runs of the module

    One operation is one call of an exported function, run to its end:
    an [async] function is awaited before the next operation starts. *)

Inductive Op : Type :=
  | OpLoad (chunksDir : string)
  | OpClearChunkedCache
  | OpPreload
  | OpLookup (ip : string)
  | OpLookupAsync (ip : string)
  | OpLookupServerIPs (ipv4 ipv6 : option string)
  | OpClearCache.

Definition step (s : State) (op : Op) : State :=
  match op with
  | OpLoad chunksDir => snd (loadGeoIPFromChunks chunksDir s)
  | OpClearChunkedCache => snd (clearChunkedCache s)
  | OpPreload => snd (preloadGeoIPDatabase s)
  | OpLookup ip => snd (getCountryCodeFromIP ip s)
  | OpLookupAsync ip => snd (getCountryCodeFromIPAsync ip s)
  | OpLookupServerIPs ipv4 ipv6 => snd (getCountryCodeFromServerIPs ipv4 ipv6 s)
  | OpClearCache => snd (clearCache s)
  end.

Definition run (ops : list Op) : State := fold_left step ops initial_state.

End Program.

(** ** scripts/split-geoip-db.js *)

(** What the script takes from Node besides the file system. *)
Record Tools : Type := mkTools {
  (** [zlib.gzipSync(chunk, { level: 9 })] *)
  gzipSync : bytes -> bytes;
  (** [JSON.stringify(metadata, null, 2)], as the bytes that
      [writeFileSync] stores *)
  JSON_stringify : ChunkMetadata -> bytes;
  (** [path.basename] *)
  basename : string -> string;
  (** [((1 - a / b) * 100).toFixed(1)] *)
  reduction : nat -> nat -> string;
  (** [new Date().toISOString()] *)
  toISOString : string
}.

(** What the script prints, by the template that is filled. *)
Inductive ScriptLine : Type :=
  | LineBanner (inputFile outputDir : string) (chunkSizeMB : positive)
  | LineInputNotFound (inputFile : string)
  | LineCreatedDirectory (outputDir : string)
  | LineReading
  | LineFileSize (totalSize : nat)
  | LineWillCreate (numChunks : nat)
  | LineChunk (number numChunks originalSize compressedSize : nat)
      (ratio : string)
  | LineSummary (totalSize totalCompressedSize : nat)
      (compressionRatio : string) (numChunks : nat)
      (metadataFile outputDir : string)
  | LineLoaderSnippet (outputDir : string).

(** What the script does to the world, in the order in which it does it. *)
Inductive Effect : Type :=
  | Console (line : ScriptLine)
  (** [fs.mkdirSync(dir, { recursive: true })] *)
  | MkdirSync (dir : string)
  | WriteFileSync (file : string) (content : bytes).

(** How the script ends: [process.exit(code)], the end of the file, or an
    exception that nothing catches. *)
Inductive Ending : Type :=
  | Exit (code : nat)
  | Completed
  | Uncaught (e : error).

(** [s.padStart(targetLength, fill)] for a [fill] of one character. *)
Fixpoint pad (n : nat) (fill : ascii) (s : string) : string :=
  match n with
  | 0 => s
  | S n' => String fill (pad n' fill s)
  end.

Definition padStart (targetLength : nat) (fill : ascii) (s : string) : string :=
  pad (targetLength - String.length s) fill s.

(** [`chunk_${String(i).padStart(3, '0')}.gz`] *)
Definition chunk_filename (i : nat) : string :=
  "chunk_" +:+ padStart 3 "0"%char (pretty i) +:+ ".gz".

(** [buffer.slice(start, end)], for [start] and [end] that are not
    negative. *)
Definition Buffer_slice (buffer : bytes) (start end_ : nat) : bytes :=
  take (end_ - start) (drop start buffer).

(** [Math.ceil(a / b)] for a positive [b] (the quotient of two integers
    below 2^52 rounds up to the same integer as the exact one). *)
Definition Math_ceil_div (a b : nat) : nat :=
  if Nat.eqb (Nat.modulo a b) 0 then Nat.div a b else S (Nat.div a b).

Section Script.

Variable w : World.
Variable t : Tools.

(** The iterations [i, i+1, ..., i+n-1] of the [for] loop, from the values
    of [chunks] and [totalCompressedSize] that they find; the effects are
    those of these iterations. *)
Fixpoint split_loop (outputDir : string) (fileBuffer : bytes)
    (CHUNK_SIZE numChunks : nat) (n i : nat)
    (chunks : list ChunkInfo) (totalCompressedSize : nat)
    : list ChunkInfo * nat * list Effect :=
  match n with
  | 0 => (chunks, totalCompressedSize, [])
  | S n' =>
      let start := i * CHUNK_SIZE in
      let end_ := Nat.min (start + CHUNK_SIZE) (length fileBuffer) in
      let chunk := Buffer_slice fileBuffer start end_ in
      let compressed := gzipSync t chunk in
      let chunkFile := path_join outputDir (chunk_filename i) in
      let originalSize := length chunk in
      let compressedSize := length compressed in
      let ratio := reduction t compressedSize originalSize in
      let '(chunks', totalCompressedSize', effects) :=
        split_loop outputDir fileBuffer CHUNK_SIZE numChunks n' (S i)
          (chunks ++ [mkChunkInfo i originalSize compressedSize
                        (chunk_filename i)])
          (totalCompressedSize + compressedSize) in
      (chunks', totalCompressedSize',
       WriteFileSync chunkFile compressed
         :: Console (LineChunk (i + 1) numChunks originalSize compressedSize
                       ratio)
         :: effects)
  end.

(** The script from [const CHUNK_SIZE] on: [inputFile], [outputDir] and
    [chunkSizeMB] are what it made of its command line, [chunkSizeMB] being
    a positive integer (the default is 5; a third argument that [parseInt]
    reads as 0, as a negative number or as [NaN] is outside this model: the
    loop then never ends or never runs).  The file system [w] is the one it
    finds; a
    [mkdirSync], [gzipSync] or [writeFileSync] that throws ends the script
    where it is called, with the effects up to there.  Of the metadata
    object, [totalSizeMB] and [totalCompressedSizeMB], which the loader
    never reads, are left out. *)
Definition split_geoip_db (inputFile outputDir : string)
    (chunkSizeMB : positive) : list Effect * Ending :=
  let CHUNK_SIZE := Pos.to_nat chunkSizeMB * 1024 * 1024 in
  let banner := [Console (LineBanner inputFile outputDir chunkSizeMB)] in
  if negb (existsSync w inputFile)
  then (banner ++ [Console (LineInputNotFound inputFile)], Exit 1)
  else
    let created :=
      if negb (existsSync w outputDir)
      then [MkdirSync outputDir; Console (LineCreatedDirectory outputDir)]
      else [] in
    match readFileSync w inputFile with
    | Err e => (banner ++ created ++ [Console LineReading], Uncaught e)
    | Ok fileBuffer =>
        let totalSize := length fileBuffer in
        let numChunks := Math_ceil_div totalSize CHUNK_SIZE in
        let '(chunks, totalCompressedSize, effects) :=
          split_loop outputDir fileBuffer CHUNK_SIZE numChunks numChunks 0
            [] 0 in
        let metadata :=
          mkChunkMetadata (basename t inputFile) totalSize CHUNK_SIZE
            numChunks totalCompressedSize
            (reduction t totalCompressedSize totalSize) chunks
            (toISOString t) in
        let metadataFile := path_join outputDir "metadata.json" in
        (banner ++ created
           ++ [Console LineReading; Console (LineFileSize totalSize);
               Console (LineWillCreate numChunks)]
           ++ effects
           ++ [WriteFileSync metadataFile (JSON_stringify t metadata);
               Console (LineSummary totalSize totalCompressedSize
                          (compressionRatio metadata) numChunks metadataFile
                          outputDir);
               Console (LineLoaderSnippet outputDir)],
         Completed)
    end.

End Script.

(** The slice of [fileBuffer] that iteration [i] of the loop takes. *)
Definition chunk_at (fileBuffer : bytes) (CHUNK_SIZE i : nat) : bytes :=
  Buffer_slice fileBuffer (i * CHUNK_SIZE)
    (Nat.min (i * CHUNK_SIZE + CHUNK_SIZE) (length fileBuffer)).

(** The entry that iteration [i] pushes on [chunks]. *)
Definition chunk_entry (t : Tools) (fileBuffer : bytes) (CHUNK_SIZE i : nat)
    : ChunkInfo :=
  mkChunkInfo i (length (chunk_at fileBuffer CHUNK_SIZE i))
    (length (gzipSync t (chunk_at fileBuffer CHUNK_SIZE i)))
    (chunk_filename i).

(** The metadata object that the script builds for an input file of content
    [fileBuffer]. *)
Definition split_metadata (t : Tools) (inputFile : string)
    (fileBuffer : bytes) (chunkSizeMB : positive) : ChunkMetadata :=
  let CHUNK_SIZE := Pos.to_nat chunkSizeMB * 1024 * 1024 in
  let numChunks := Math_ceil_div (length fileBuffer) CHUNK_SIZE in
  let entries := map (chunk_entry t fileBuffer CHUNK_SIZE) (seq 0 numChunks) in
  mkChunkMetadata (basename t inputFile) (length fileBuffer) CHUNK_SIZE
    numChunks (sum_list (map compressedSize entries))
    (reduction t (sum_list (map compressedSize entries)) (length fileBuffer))
    entries (toISOString t).

(** The files that the effects write, in the order of the writes. *)
Definition written_files (effects : list Effect) : list string :=
  omap (fun e => match e with
                 | WriteFileSync file _ => Some file
                 | _ => None
                 end) effects.

(** The file system after a [writeFileSync] that returns. *)
Definition writeFileSync (file : string) (content : bytes) (w : World)
    : World :=
  mkWorld (cwd w)
    (fun p => String.eqb p file || existsSync w p)
    (fun p => if String.eqb p file then Ok content else readFileSync w p)
    (JSON_parse w) (gunzipSync w) (uninitialized w) (Reader_check w)
    (Reader_get w).

(** The file system after a recursive [mkdirSync] that returns: [dir] and
    the directories above it are there. *)
Definition mkdirSync (dir : string) (w : World) : World :=
  mkWorld (cwd w)
    (fun p => String.eqb p dir || String.prefix (p +:+ "/") dir
              || existsSync w p)
    (readFileSync w)
    (JSON_parse w) (gunzipSync w) (uninitialized w) (Reader_check w)
    (Reader_get w).

Definition perform (w : World) (e : Effect) : World :=
  match e with
  | Console _ => w
  | MkdirSync dir => mkdirSync dir w
  | WriteFileSync file content => writeFileSync file content w
  end.

(** The file system that the effects leave, when each of them returns. *)
Definition fs_after (effects : list Effect) (w : World) : World :=
  fold_left perform effects w.

(** [s] without the zeros that it starts with. *)
Fixpoint strip_zeros (s : string) : string :=
  match s with
  | String c s' => if Ascii.eqb c "0" then strip_zeros s' else s
  | EmptyString => s
  end.

(** ** Vocabulary of the statements *)

(** The state after [n] more calls of [gunzipSync]. *)
Definition add_gunzip_calls (n : nat) (s : State) : State :=
  mkState (cachedReader s) (cachedBuffer s) (isPreloaded s) (preloadPromise s)
    (geoIPReader s) (databaseType s) (isInitializing s) (initPromise s)
    (ipCountryCache s) (n + gunzip_calls s) (provider_queries s) (console s).

(** The manifest invariants: the entries of [chunks] carry, in this order,
    the indices 0, 1, ..., [numChunks - 1], with no gap, and the recorded
    sizes add up to [totalSize]. *)
Definition manifest_valid (metadata : ChunkMetadata) : Prop :=
  map index (chunks metadata) = seq 0 (numChunks metadata)
  /\ sum_list (map originalSize (chunks metadata)) = totalSize metadata.

(** The byte offset at which chunk [i] starts in the original file. *)
Definition running_offset (metadata : ChunkMetadata) (i : nat) : nat :=
  sum_list (map originalSize (take i (chunks metadata))).

(** The file of chunk [c] is there, can be read, and gunzips to [d]. *)
Definition chunk_gunzips_to (w : World) (chunksDir : string)
    (c : ChunkInfo) (d : bytes) : Prop :=
  existsSync w (path_join chunksDir (filename c)) = true
  /\ exists compressed,
       readFileSync w (path_join chunksDir (filename c)) = Ok compressed
       /\ gunzipSync w compressed = Ok d.

(** ... and [d] has the size that the manifest records for [c]. *)
Definition chunk_intact (w : World) (chunksDir : string)
    (c : ChunkInfo) (d : bytes) : Prop :=
  chunk_gunzips_to w chunksDir c d /\ length d = originalSize c.

(** The manifest of [chunksDir] is there and parses to [metadata]. *)
Definition manifest_reads_as (w : World) (chunksDir : string)
    (metadata : ChunkMetadata) : Prop :=
  existsSync w (path_join chunksDir "metadata.json") = true
  /\ exists text,
       readFileSync w (path_join chunksDir "metadata.json") = Ok text
       /\ JSON_parse w text = Ok metadata.

(** [m] leaves the observation [f] of the state as it found it. *)
Definition keeps {A B} (f : State -> B) (m : M A) : Prop :=
  forall s, f (snd (m s)) = f s.

(** Observations that the chunk loader cannot change ... *)
Definition loader_blind {B} (f : State -> B) : Prop :=
  (forall s, f (count_gunzip s) = f s)
  /\ (forall v s, f (set_cachedReader v s) = f s)
  /\ (forall v s, f (set_cachedBuffer v s) = f s).

(** ... nor the initialisation of the resolver's reader. *)
Definition init_blind {B} (f : State -> B) : Prop :=
  loader_blind f
  /\ (forall v s, f (set_geoIPReader v s) = f s)
  /\ (forall v s, f (set_databaseType v s) = f s)
  /\ (forall v s, f (set_isInitializing v s) = f s)
  /\ (forall v s, f (set_initPromise v s) = f s).

(** What a cache written only by the resolvers looks like: no key twice,
    every key an address that passes the first test of the resolvers, and
    every value either [null] or a non-empty string. *)
Definition cache_wf (cache : JsMap) : Prop :=
  NoDup (Map_keys cache)
  /\ Forall (fun e => no_address (fst e) = false) cache
  /\ Forall (fun e => or_null (Some (snd e)) = snd e) cache.

(** Both resolvers, over the way they obtain the reader. *)
Definition resolve_with (w : World) (init : M Reader) (ip : string)
    : M (option string) :=
  if no_address ip then ret None
  else
    cache <- read ipCountryCache ;;
    if Map_has ip cache then ret (or_null (Map_get ip cache))
    else
      try_catch
        (reader <- init ;;
         result <- reader_get w reader ip ;;
         dbt <- read databaseType ;;
         let countryCode := extractCountryCode dbt result in
         write (fun s => set_ipCountryCache
                           (cache_store ip countryCode (ipCountryCache s)) s) ;;
         ret countryCode)
        (fun _ => ret None).

(** The country code that [reader] has for [ip] under format [dbt]. *)
Definition resolved (w : World) (reader : Reader) (dbt : DbType) (ip : string)
    : option string :=
  match Reader_get w (reader_buffer reader) ip with
  | Ok record => extractCountryCode dbt record
  | Err _ => None
  end.

(** The provider answers for [ip], with a record or with "no match". *)
Definition answers (w : World) (reader : Reader) (ip : string) : Prop :=
  exists record, Reader_get w (reader_buffer reader) ip = Ok record.

(** Blocking lookups of the addresses [ips], one after the other. *)
Definition lookups (w : World) (ips : list string) (s : State) : State :=
  fold_left (fun s ip => snd (getCountryCodeFromIP w ip s)) ips s.

(** The state is one in which [preloadGeoIPDatabase] left its promise. *)
Definition preload_settled (s : State) : Prop :=
  preloadPromise s = None \/ preloadPromise s = Some (Ok tt).

(** What holds of the module state after any run. *)
Definition Inv (s : State) : Prop :=
  cache_wf (ipCountryCache s)
  /\ Map_size (ipCountryCache s) <= MAX_CACHE_SIZE
  /\ preload_settled s.

(** The state after [n] calls of [lookup ip], one after the other. *)
Definition repeated (lookup : string -> M (option string)) (ip : string)
    (n : nat) (s : State) : State :=
  Nat.iter n (fun s => snd (lookup ip s)) s.

(** [init] hands out [reader] in state [s], and goes on doing so while only
    the count of provider queries changes. *)
Definition stable (init : M Reader) (reader : Reader) (s : State) : Prop :=
  forall n, init (Nat.iter n count_query s)
            = (Ok reader, Nat.iter n count_query s).

(** ** Sample worlds *)

Module Sample.

Import Byte.

Definition root : string := "/app".
Definition dir : string := "/app/lib/maxmind-db/chunks".

Definition manifest : ChunkMetadata :=
  {| originalFile := "GeoLite2-City.mmdb";
     totalSize := 3; chunkSize := 2; numChunks := 2;
     totalCompressedSize := 4; compressionRatio := "-33.3";
     chunks := [ mkChunkInfo 0 2 2 "chunk_000.gz";
                 mkChunkInfo 1 1 2 "chunk_001.gz" ];
     createdAt := "2025-01-01T00:00:00.000Z" |}.

Definition files_lookup {A} (files : list (string * A)) (p : string) : option A :=
  snd <$> List.find (fun f => String.eqb (fst f) p) files.

Definition us : RawRecord := mkRawRecord None (Some "US") None.
Definition au : RawRecord := mkRawRecord None None (Some "AU").

(** A stub provider: two known addresses, one address whose record cannot
    be decoded, and no match for anything else. *)
Definition stub_get (_ : bytes) (ip : string) : result (option RawRecord) :=
  if String.eqb ip "8.8.8.8" then Ok (Some us)
  else if String.eqb ip "1.1.1.1" then Ok (Some au)
  else if String.eqb ip "192.0.2.7" then Err (ExternalError "bad record")
  else Ok None.

Definition world_of (files : list (string * bytes)) : World :=
  {| cwd := root;
     existsSync := fun p => bool_decide (is_Some (files_lookup files p));
     readFileSync := fun p =>
       match files_lookup files p with
       | Some content => Ok content
       | None => Err (ExternalError "ENOENT")
       end;
     JSON_parse := fun text =>
       match text with
       | [x7b] => Ok manifest
       | _ => Err (ExternalError "SyntaxError")
       end;
     gunzipSync := fun compressed =>
       match compressed with
       | [x1f; x00] => Ok [x41; x42]
       | [x1f; x01] => Ok [x43]
       | [x1f; x02] => Ok [x43; x44]
       | _ => Err (ExternalError "incorrect header check")
       end;
     uninitialized := fun _ => xff;
     Reader_check := fun _ => None;
     Reader_get := stub_get |}.

(** Both chunk files as the splitter wrote them. *)
Definition chunked : World :=
  world_of [ ("/app/lib/maxmind-db/chunks/metadata.json", [x7b]);
             ("/app/lib/maxmind-db/chunks/chunk_000.gz", [x1f; x00]);
             ("/app/lib/maxmind-db/chunks/chunk_001.gz", [x1f; x01]) ].

(** The second chunk file gunzips to two bytes where the manifest records
    one. *)
Definition corrupted : World :=
  world_of [ ("/app/lib/maxmind-db/chunks/metadata.json", [x7b]);
             ("/app/lib/maxmind-db/chunks/chunk_000.gz", [x1f; x00]);
             ("/app/lib/maxmind-db/chunks/chunk_001.gz", [x1f; x02]) ].

(** A chunked directory next to a monolithic [country.mmdb]. *)
Definition chunked_and_country : World :=
  world_of [ ("/app/lib/maxmind-db/chunks/metadata.json", [x7b]);
             ("/app/lib/maxmind-db/chunks/chunk_000.gz", [x1f; x00]);
             ("/app/lib/maxmind-db/chunks/chunk_001.gz", [x1f; x01]);
             ("/app/lib/maxmind-db/country.mmdb", [x00]) ].

(** Only the monolithic city database. *)
Definition monolithic : World :=
  world_of [ ("/app/lib/maxmind-db/GeoLite2-City.mmdb", [x00]) ].

(** [S MAX_CACHE_SIZE] distinct addresses, written as decimal numbers. *)
Definition addresses : list string := map pretty (seq 0 (S MAX_CACHE_SIZE)).

(** A state whose resolver holds a reader and whose cache is empty. *)
Definition warm : State := set_geoIPReader (Some (mkReader [x00])) initial_state.

(** [ip] is an address that the stub provider answers for. *)
Definition stub_answers (ip : string) : bool :=
  negb (no_address ip)
  && match stub_get [x00] ip with Ok _ => true | Err _ => false end.

(** No database at all. *)
Definition empty : World := world_of [].

End Sample.

(** ** Vocabulary of the further properties *)

(** Observations that the preload coordinator cannot change. *)
Definition preload_blind {B} (f : State -> B) : Prop :=
  loader_blind f
  /\ (forall l s, f (log l s) = f s)
  /\ (forall v s, f (set_isPreloaded v s) = f s)
  /\ (forall v s, f (set_preloadPromise v s) = f s).

(** The part of the state that [initGeoIPReaderAsync] guards its promise
    with: the flag is down, and a fulfilled promise that is stored is the
    reader that the resolver holds. *)
Definition init_settled (s : State) : Prop :=
  isInitializing s = false
  /\ forall r, initPromise s = Some (Ok r) -> geoIPReader s = Some r.

(** Every operation but a non-blocking lookup. *)
Definition not_async (op : Op) : Prop :=
  match op with
  | OpLookupAsync _ => False
  | _ => True
  end.

(** ** Further sample worlds *)

Module Cases.

Import Byte.

(** The world [base] with [metadata.json] parsing to [metadata]. *)
Definition with_manifest (metadata : ChunkMetadata) (base : World) : World :=
  {| cwd := cwd base;
     existsSync := existsSync base;
     readFileSync := readFileSync base;
     JSON_parse := fun text =>
       match text with
       | [x7b] => Ok metadata
       | _ => Err (ExternalError "SyntaxError")
       end;
     gunzipSync := gunzipSync base;
     uninitialized := uninitialized base;
     Reader_check := Reader_check base;
     Reader_get := Reader_get base |}.

Definition manifest_of (total count : nat) (entries : list ChunkInfo)
    : ChunkMetadata :=
  {| originalFile := "GeoLite2-City.mmdb";
     totalSize := total; chunkSize := 2; numChunks := count;
     totalCompressedSize := 4; compressionRatio := "-33.3";
     chunks := entries;
     createdAt := "2025-01-01T00:00:00.000Z" |}.

(** [numChunks] says three, [chunks] has two entries. *)
Definition one_too_many : World :=
  with_manifest (manifest_of 3 3 (chunks Sample.manifest)) Sample.chunked.

(** [totalSize] says two where the chunks hold three bytes. *)
Definition too_small : World :=
  with_manifest (manifest_of 2 2 (chunks Sample.manifest)) Sample.chunked.

(** [totalSize] says five where the chunks hold three bytes. *)
Definition too_large : World :=
  with_manifest (manifest_of 5 2 (chunks Sample.manifest)) Sample.chunked.

(** The entries carry the indices 1 and 0, in this order. *)
Definition indices_swapped : World :=
  with_manifest
    (manifest_of 3 2 [ mkChunkInfo 1 2 2 "chunk_000.gz";
                       mkChunkInfo 0 1 2 "chunk_001.gz" ])
    Sample.chunked.

(** Stand-ins for gzip and JSON, of which [gunzipSync] and [JSON_parse] of
    [unsplit] are the inverses. *)
Definition tools : Tools :=
  {| gzipSync := fun chunk => x1f :: chunk;
     JSON_stringify := fun _ => [x7b];
     basename := fun _ => "GeoLite2-City.mmdb";
     reduction := fun _ _ => "0.0";
     toISOString := "2025-01-01T00:00:00.000Z" |}.

Definition database : bytes := [x41; x42; x43].

(** Only the database, where the script looks for it by default. *)
Definition unsplit : World :=
  {| cwd := Sample.root;
     existsSync := fun p => String.eqb p "lib/maxmind-db/GeoLite2-City.mmdb";
     readFileSync := fun p =>
       if String.eqb p "lib/maxmind-db/GeoLite2-City.mmdb"
       then Ok database
       else Err (ExternalError "ENOENT");
     JSON_parse := fun _ =>
       Ok (split_metadata tools "lib/maxmind-db/GeoLite2-City.mmdb"
             database 1);
     gunzipSync := fun compressed =>
       match compressed with
       | x1f :: chunk => Ok chunk
       | _ => Err (ExternalError "incorrect header check")
       end;
     uninitialized := fun _ => xff;
     Reader_check := fun _ => None;
     Reader_get := Sample.stub_get |}.

End Cases.

(** * Properties *)

(** ** The chunk loader *)

Section Loader.

Variable w : World.

Lemma length_Buffer_copy source target off :
  length (Buffer_copy source target off) = length target.
Proof.
  unfold Buffer_copy. rewrite !length_app, !length_take, length_drop. lia.
Qed.

Lemma Buffer_copy_fits source target off :
  off + length source <= length target ->
  Buffer_copy source target off
  = take off target ++ source ++ drop (off + length source) target.
Proof.
  intros H. unfold Buffer_copy. rewrite (take_ge source) by lia. reflexivity.
Qed.

Lemma take_Buffer_copy source target off :
  off + length source <= length target ->
  take (off + length source) (Buffer_copy source target off)
  = take off target ++ source.
Proof.
  intros H. rewrite Buffer_copy_fits by exact H. rewrite app_assoc.
  apply take_app_length'. rewrite length_app, length_take. lia.
Qed.

Lemma drop_Buffer_copy source target off k :
  off + length source <= length target ->
  drop (off + length source + k) (Buffer_copy source target off)
  = drop (off + length source + k) target.
Proof.
  intros H. rewrite Buffer_copy_fits by exact H. rewrite app_assoc.
  rewrite drop_app_add' by (rewrite length_app, length_take; lia).
  rewrite drop_drop. reflexivity.
Qed.

Lemma length_allocUnsafe n : length (allocUnsafe w n) = n.
Proof. unfold allocUnsafe. rewrite length_map, length_seq. reflexivity. Qed.

Lemma add_gunzip_calls_0 s : add_gunzip_calls 0 s = s.
Proof. destruct s; reflexivity. Qed.

Lemma add_gunzip_calls_S n s :
  add_gunzip_calls n (count_gunzip s) = add_gunzip_calls (S n) s.
Proof. unfold add_gunzip_calls, count_gunzip. simpl. f_equal. lia. Qed.

(** The loop over intact chunks [i .. i+n-1] writes their contents one
    after the other from [offset] on and touches nothing else. *)
Lemma load_chunks_intact chunksDir metadata n :
  forall i fullBuffer offset s datas,
    Forall2 (chunk_intact w chunksDir)
      (take n (drop i (chunks metadata))) datas ->
    i + n <= length (chunks metadata) ->
    offset + length (concat datas) <= length fullBuffer ->
    load_chunks w chunksDir metadata n i fullBuffer offset s
    = (Ok (take offset fullBuffer ++ concat datas
             ++ drop (offset + length (concat datas)) fullBuffer),
       add_gunzip_calls n s).
Proof.
  induction n as [|n IH]; intros i fullBuffer offset s datas Hall Hlen Hfit.
  - rewrite take_0 in Hall. apply Forall2_nil_inv_l in Hall. subst datas. simpl.
    rewrite Nat.add_0_r, take_drop, add_gunzip_calls_0. reflexivity.
  - destruct (lookup_lt_is_Some_2 (chunks metadata) i) as [c Hc]; [lia|].
    rewrite (drop_S _ _ _ Hc) in Hall. rewrite firstn_cons in Hall.
    apply Forall2_cons_inv_l in Hall as (d & datas' & Hd & Hrest & ->).
    destruct Hd as ((Hex & compressed & Hread & Hgz) & Hsize).
    simpl concat in *. rewrite length_app in Hfit.
    cbn [load_chunks]. unfold bind at 1. rewrite Hc. unfold ret at 1.
    rewrite Hex. cbn [negb]. unfold bind at 1, lift at 1. rewrite Hread.
    unfold bind at 1, gunzip, bind at 1, write at 1, lift at 1. rewrite Hgz.
    rewrite Hsize, Nat.eqb_refl. cbn [negb].
    rewrite (IH (S i) _ _ _ datas' Hrest) by (rewrite ?length_Buffer_copy; lia).
    rewrite add_gunzip_calls_S. f_equal. f_equal.
    rewrite <- Hsize, take_Buffer_copy, drop_Buffer_copy by lia.
    rewrite length_app, <- !app_assoc, Nat.add_assoc. reflexivity.
Qed.

Lemma intact_sizes chunksDir cs datas :
  Forall2 (chunk_intact w chunksDir) cs datas ->
  length (concat datas) = sum_list (map originalSize cs).
Proof.
  induction 1 as [|c d cs datas [_ Hsize] _ IH]; simpl; [reflexivity|].
  rewrite length_app, IH, Hsize. reflexivity.
Qed.

End Loader.

Section LoaderClaims.

Variable w : World.

Lemma intact_chunk_at chunksDir cs datas i c d :
  Forall2 (chunk_intact w chunksDir) cs datas ->
  cs !! i = Some c -> datas !! i = Some d ->
  take (originalSize c) (drop (sum_list (map originalSize (take i cs))) (concat datas))
  = d.
Proof.
  intros Hall Hc Hd.
  pose proof (Forall2_lookup_lr _ _ _ _ _ _ Hall Hc Hd) as [_ Hsize].
  rewrite <- (intact_sizes w chunksDir (take i cs) (take i datas))
    by (apply Forall2_take; exact Hall).
  rewrite <- (take_drop_middle datas i d Hd) at 2.
  rewrite concat_app, drop_app_length. simpl.
  rewrite <- Hsize. apply take_app_length.
Qed.

(** C1.  On a directory whose manifest satisfies the manifest invariants
    and whose chunk files each gunzip to exactly the size recorded for
    them, a load that finds no cached reader builds one buffer of exactly
    [totalSize] bytes, equal to the gunzipped chunks one after the other in
    index order, every chunk sitting at its running offset; the reader
    constructor is called on that buffer and its reader is what the load
    returns and caches (when the constructor rejects the bytes, its
    exception is the outcome).  One [gunzipSync] call is made per chunk. *)
Theorem loadGeoIPFromChunks_reconstructs chunksDir s metadata datas :
  cachedReader s = None ->
  manifest_reads_as w chunksDir metadata ->
  manifest_valid metadata ->
  Forall2 (chunk_intact w chunksDir) (chunks metadata) datas ->
  let blob := concat datas in
  length blob = totalSize metadata
  /\ (forall i c d,
        chunks metadata !! i = Some c -> datas !! i = Some d ->
        index c = i
        /\ take (originalSize c) (drop (running_offset metadata i) blob) = d)
  /\ loadGeoIPFromChunks w chunksDir s
     = match Reader_check w blob with
       | None =>
           (Ok (mkReader blob),
            set_cachedBuffer (Some blob)
              (set_cachedReader (Some (mkReader blob))
                 (add_gunzip_calls (numChunks metadata) s)))
       | Some e => (Err e, add_gunzip_calls (numChunks metadata) s)
       end.
Proof.
  intros Hnone (Hex & text & Hread & Hparse) (Hidx & Hsum) Hall blob.
  assert (Hnum : numChunks metadata = length (chunks metadata)).
  { apply (f_equal length) in Hidx. rewrite length_map, length_seq in Hidx.
    symmetry. exact Hidx. }
  assert (Hlen : length blob = totalSize metadata).
  { unfold blob. rewrite (intact_sizes w chunksDir _ _ Hall). exact Hsum. }
  split; [exact Hlen|]. split.
  - intros i c d Hc Hd. split.
    + assert (Hi : map index (chunks metadata) !! i = Some (index c))
        by (rewrite list_lookup_fmap, Hc; reflexivity).
      rewrite Hidx in Hi. apply lookup_seq in Hi. lia.
    + exact (intact_chunk_at chunksDir _ _ i c d Hall Hc Hd).
  - unfold loadGeoIPFromChunks, bind at 1, read at 1. rewrite Hnone, Hex.
    cbn [negb]. unfold bind at 1, lift at 1. rewrite Hread.
    unfold bind at 1, lift at 1. rewrite Hparse. unfold bind at 1.
    rewrite (load_chunks_intact w chunksDir metadata _ 0 _ 0 s datas).
    + rewrite take_0, Nat.add_0_l. fold blob.
      rewrite (drop_ge (allocUnsafe w _)) by (rewrite length_allocUnsafe; lia).
      rewrite app_nil_l, app_nil_r.
      unfold bind at 1, new_Reader.
      destruct (Reader_check w blob) as [e|]; reflexivity.
    + rewrite drop_0, Hnum, firstn_all. exact Hall.
    + lia.
    + rewrite length_allocUnsafe. fold blob. lia.
Qed.

End LoaderClaims.

Lemma loadGeoIPFromChunks_reconstructs_witness :
  loadGeoIPFromChunks Sample.chunked Sample.dir initial_state
  = (Ok (mkReader [Byte.x41; Byte.x42; Byte.x43]),
     set_cachedBuffer (Some [Byte.x41; Byte.x42; Byte.x43])
       (set_cachedReader (Some (mkReader [Byte.x41; Byte.x42; Byte.x43]))
          (add_gunzip_calls 2 initial_state))).
Proof.
  refine (proj2 (proj2 (loadGeoIPFromChunks_reconstructs Sample.chunked
            Sample.dir initial_state Sample.manifest
            [[Byte.x41; Byte.x42]; [Byte.x43]] _ _ _ _))).
  - reflexivity.
  - split; [reflexivity|]. exists [Byte.x7b]. split; reflexivity.
  - repeat split.
  - repeat constructor.
    + exists [Byte.x1f; Byte.x00]. split; reflexivity.
    + exists [Byte.x1f; Byte.x01]. split; reflexivity.
Defined.

Section LoaderFailure.

Variable w : World.

(** The loop stops at the first chunk whose gunzipped length differs from
    the recorded one, [k] iterations after its start. *)
Lemma load_chunks_mismatch chunksDir metadata k :
  forall n i fullBuffer offset s datas c d,
    k < n ->
    Forall2 (chunk_intact w chunksDir)
      (take k (drop i (chunks metadata))) datas ->
    chunks metadata !! (i + k) = Some c ->
    chunk_gunzips_to w chunksDir c d ->
    length d <> originalSize c ->
    load_chunks w chunksDir metadata n i fullBuffer offset s
    = (Err (ChunkSizeMismatch (i + k) (originalSize c) (length d)),
       add_gunzip_calls (S k) s).
Proof.
  induction k as [|k IH];
    intros n i fullBuffer offset s datas c d Hk Hall Hc Hgunzip Hsize;
    (destruct n as [|n]; [lia|]); cbn [load_chunks].
  - rewrite Nat.add_0_r in *.
    destruct Hgunzip as (Hex & compressed & Hread & Hgz).
    unfold bind at 1. rewrite Hc. unfold ret at 1. rewrite Hex. cbn [negb].
    unfold bind at 1, lift at 1. rewrite Hread.
    unfold bind at 1, gunzip, bind at 1, write at 1, lift at 1. rewrite Hgz.
    apply Nat.eqb_neq in Hsize. rewrite Hsize. cbn [negb].
    unfold throw. rewrite <- add_gunzip_calls_S, add_gunzip_calls_0.
    reflexivity.
  - assert (Hi : is_Some (chunks metadata !! i)).
    { apply lookup_lt_is_Some_2. apply lookup_lt_Some in Hc. lia. }
    destruct Hi as [c0 Hc0].
    rewrite (drop_S _ _ _ Hc0), firstn_cons in Hall.
    apply Forall2_cons_inv_l in Hall as (d0 & datas' & Hd0 & Hrest & ->).
    destruct Hd0 as ((Hex & compressed & Hread & Hgz) & Hsize0).
    unfold bind at 1. rewrite Hc0. unfold ret at 1. rewrite Hex. cbn [negb].
    unfold bind at 1, lift at 1. rewrite Hread.
    unfold bind at 1, gunzip, bind at 1, write at 1, lift at 1. rewrite Hgz.
    rewrite Hsize0, Nat.eqb_refl. cbn [negb].
    rewrite (IH n (S i) _ _ _ datas' c d); try assumption; try lia.
    + rewrite add_gunzip_calls_S. do 3 f_equal. lia.
    + rewrite <- Hc. f_equal. lia.
Qed.

(** A failed load changes nothing but the count of [gunzipSync] calls. *)
Lemma load_chunks_counts chunksDir metadata n :
  forall i fullBuffer offset s,
    exists k, snd (load_chunks w chunksDir metadata n i fullBuffer offset s)
              = add_gunzip_calls k s.
Proof.
  induction n as [|n IH]; intros i fullBuffer offset s; cbn [load_chunks].
  - exists 0. rewrite add_gunzip_calls_0. reflexivity.
  - unfold bind at 1.
    destruct (chunks metadata !! i) as [c|]; cbn [ret throw snd];
      [|exists 0; rewrite add_gunzip_calls_0; reflexivity].
    destruct (existsSync w _); cbn [negb throw snd];
      [|exists 0; rewrite add_gunzip_calls_0; reflexivity].
    unfold bind at 1, lift at 1.
    destruct (readFileSync w _) as [compressed|e]; cbn [snd];
      [|exists 0; rewrite add_gunzip_calls_0; reflexivity].
    unfold bind at 1, gunzip, bind at 1, write at 1, lift at 1.
    destruct (gunzipSync w compressed) as [d|e]; cbn [snd];
      [|exists 1; rewrite <- add_gunzip_calls_S, add_gunzip_calls_0; reflexivity].
    destruct (Nat.eqb _ _); cbn [negb throw snd];
      [|exists 1; rewrite <- add_gunzip_calls_S, add_gunzip_calls_0; reflexivity].
    destruct (IH (S i) (Buffer_copy d fullBuffer offset) (offset + length d)
                (count_gunzip s)) as [k Hk].
    exists (S k). rewrite Hk. apply add_gunzip_calls_S.
Qed.

(** A loop that completes has found every one of its chunks intact. *)
Lemma load_chunks_complete chunksDir metadata n :
  forall i fullBuffer offset s buffer s',
    load_chunks w chunksDir metadata n i fullBuffer offset s = (Ok buffer, s') ->
    exists datas,
      Forall2 (chunk_intact w chunksDir)
        (take n (drop i (chunks metadata))) datas
      /\ length datas = n
      /\ s' = add_gunzip_calls n s.
Proof.
  induction n as [|n IH]; intros i fullBuffer offset s buffer s';
    cbn [load_chunks].
  - intros [= _ <-]. exists []. rewrite take_0, add_gunzip_calls_0.
    repeat split. constructor.
  - unfold bind at 1.
    destruct (chunks metadata !! i) as [c|] eqn:Hc; cbn [ret throw];
      [|discriminate].
    destruct (existsSync w _) eqn:Hex; cbn [negb throw]; [|discriminate].
    unfold bind at 1, lift at 1.
    destruct (readFileSync w _) as [compressed|e] eqn:Hread; [|discriminate].
    unfold bind at 1, gunzip, bind at 1, write at 1, lift at 1.
    destruct (gunzipSync w compressed) as [d|e] eqn:Hgz; [|discriminate].
    destruct (Nat.eqb _ _) eqn:Hsize; cbn [negb throw]; [|discriminate].
    intros Hrest. apply IH in Hrest as (datas & Hall & Hlen & ->).
    exists (d :: datas). rewrite (drop_S _ _ _ Hc), firstn_cons.
    repeat split.
    + constructor; [|exact Hall].
      split; [|apply Nat.eqb_eq; exact Hsize].
      split; [exact Hex|]. exists compressed. split; assumption.
    + simpl. rewrite Hlen. reflexivity.
    + apply add_gunzip_calls_S.
Qed.

Lemma loadGeoIPFromChunks_cached chunksDir s reader :
  cachedReader s = Some reader ->
  loadGeoIPFromChunks w chunksDir s = (Ok reader, s).
Proof.
  intros H. unfold loadGeoIPFromChunks, bind, read. rewrite H. reflexivity.
Qed.

(** A load that succeeds without a cached reader has read the manifest,
    found all [numChunks] chunks intact, and cached its reader. *)
Lemma loadGeoIPFromChunks_success chunksDir s reader s' :
  cachedReader s = None ->
  loadGeoIPFromChunks w chunksDir s = (Ok reader, s') ->
  cachedReader s' = Some reader
  /\ exists metadata datas,
       manifest_reads_as w chunksDir metadata
       /\ length datas = numChunks metadata
       /\ Forall2 (chunk_intact w chunksDir)
            (take (numChunks metadata) (chunks metadata)) datas
       /\ gunzip_calls s' = numChunks metadata + gunzip_calls s.
Proof.
  intros Hnone.
  unfold loadGeoIPFromChunks at 1, bind at 1, read at 1. rewrite Hnone.
  destruct (existsSync w _) eqn:Hex; cbn [negb throw]; [|discriminate].
  unfold bind at 1, lift at 1.
  destruct (readFileSync w _) as [text|e] eqn:Hread; [|discriminate].
  unfold bind at 1, lift at 1.
  destruct (JSON_parse w text) as [metadata|e] eqn:Hparse; [|discriminate].
  unfold bind at 1.
  destruct (load_chunks w chunksDir metadata (numChunks metadata) 0
              (allocUnsafe w (totalSize metadata)) 0 s)
    as [[buffer|e] s1] eqn:Hloop; [|discriminate].
  apply load_chunks_complete in Hloop as (datas & Hall & Hlen & ->).
  rewrite drop_0 in Hall.
  unfold bind at 1, new_Reader.
  destruct (Reader_check w buffer) as [e|]; cbn [throw ret]; [discriminate|].
  cbn. intros [= <- <-]. split; [reflexivity|].
  exists metadata, datas. repeat split; try assumption.
  exists text. split; assumption.
Qed.

(** A load that fails has published neither a reader nor a buffer. *)
Lemma loadGeoIPFromChunks_failure chunksDir s e s' :
  loadGeoIPFromChunks w chunksDir s = (Err e, s') ->
  cachedReader s' = cachedReader s /\ cachedBuffer s' = cachedBuffer s.
Proof.
  unfold loadGeoIPFromChunks at 1, bind at 1, read at 1.
  destruct (cachedReader s) as [reader|] eqn:Hcached; [discriminate|].
  destruct (existsSync w _); cbn [negb throw];
    [|intros [= _ <-]; split; [exact Hcached|reflexivity]].
  unfold bind at 1, lift at 1.
  destruct (readFileSync w _) as [text|e1];
    [|intros [= _ <-]; split; [exact Hcached|reflexivity]].
  unfold bind at 1, lift at 1.
  destruct (JSON_parse w text) as [metadata|e1];
    [|intros [= _ <-]; split; [exact Hcached|reflexivity]].
  unfold bind at 1.
  destruct (load_chunks_counts chunksDir metadata (numChunks metadata) 0
              (allocUnsafe w (totalSize metadata)) 0 s) as [k Hk].
  destruct (load_chunks w chunksDir metadata (numChunks metadata) 0
              (allocUnsafe w (totalSize metadata)) 0 s)
    as [[buffer|e1] s1]; cbn [snd] in Hk; subst s1.
  - unfold bind at 1, new_Reader.
    destruct (Reader_check w buffer) as [e1|]; cbn [throw ret];
      [|discriminate].
    intros [= _ <-]. split; [exact Hcached|reflexivity].
  - intros [= _ <-]. split; [exact Hcached|reflexivity].
Qed.

Lemma manifest_reads_as_inj chunksDir metadata metadata' :
  manifest_reads_as w chunksDir metadata ->
  manifest_reads_as w chunksDir metadata' -> metadata = metadata'.
Proof.
  intros (_ & text & Hread & Hparse) (_ & text' & Hread' & Hparse').
  congruence.
Qed.

Lemma chunk_gunzips_to_inj chunksDir c d d' :
  chunk_gunzips_to w chunksDir c d -> chunk_gunzips_to w chunksDir c d' ->
  d = d'.
Proof.
  intros (_ & compressed & Hread & Hgz) (_ & compressed' & Hread' & Hgz').
  congruence.
Qed.

(** C4.  When chunk [i] of the manifest gunzips to a length other than its
    recorded [originalSize], a load that finds no cached reader fails, and
    neither a reader nor a buffer is cached by it.  When moreover the
    chunks before chunk [i] are intact, the exception is the size-mismatch
    error that names [i], and the state differs from the one before the
    call only by the count of [gunzipSync] calls. *)
Theorem loadGeoIPFromChunks_size_mismatch chunksDir s metadata i c d :
  cachedReader s = None ->
  manifest_reads_as w chunksDir metadata ->
  i < numChunks metadata ->
  chunks metadata !! i = Some c ->
  chunk_gunzips_to w chunksDir c d ->
  length d <> originalSize c ->
  let '(r, s') := loadGeoIPFromChunks w chunksDir s in
  (exists e, r = Err e)
  /\ cachedReader s' = None
  /\ cachedBuffer s' = cachedBuffer s
  /\ (forall datas,
        Forall2 (chunk_intact w chunksDir) (take i (chunks metadata)) datas ->
        r = Err (ChunkSizeMismatch i (originalSize c) (length d))
        /\ s' = add_gunzip_calls (S i) s).
Proof.
  intros Hnone Hmanifest Hi Hc Hgunzip Hsize.
  destruct (loadGeoIPFromChunks w chunksDir s) as [[reader|e] s'] eqn:Hload.
  - exfalso.
    apply loadGeoIPFromChunks_success in Hload
      as (_ & metadata' & datas & Hmanifest' & _ & Hall & _); [|exact Hnone].
    rewrite <- (manifest_reads_as_inj _ _ _ Hmanifest Hmanifest') in Hall.
    assert (Hci : take (numChunks metadata) (chunks metadata) !! i = Some c)
      by (rewrite lookup_take_lt by exact Hi; exact Hc).
    destruct (Forall2_lookup_l _ _ _ _ _ Hall Hci) as (d' & _ & Hd' & Hlen).
    rewrite <- (chunk_gunzips_to_inj _ _ _ _ Hgunzip Hd') in Hlen.
    contradiction.
  - destruct (loadGeoIPFromChunks_failure _ _ _ _ Hload) as [Hreader Hbuffer].
    split; [exists e; reflexivity|].
    split; [rewrite Hreader; exact Hnone|]. split; [exact Hbuffer|].
    intros datas Hall. revert Hload.
    destruct Hmanifest as (Hex & text & Hread & Hparse).
    unfold loadGeoIPFromChunks, bind at 1, read at 1. rewrite Hnone, Hex.
    cbn [negb]. unfold bind at 1, lift at 1. rewrite Hread.
    unfold bind at 1, lift at 1. rewrite Hparse. unfold bind at 1.
    rewrite (load_chunks_mismatch chunksDir metadata i _ 0 _ _ _ datas c d);
      try assumption.
    intros [= <- <-]. split; reflexivity.
Qed.




End LoaderFailure.

Lemma loadGeoIPFromChunks_size_mismatch_witness :
  loadGeoIPFromChunks Sample.corrupted Sample.dir initial_state
  = (Err (ChunkSizeMismatch 1 1 2), add_gunzip_calls 2 initial_state).
Proof.
  pose proof (loadGeoIPFromChunks_size_mismatch Sample.corrupted Sample.dir
                initial_state Sample.manifest 1
                (mkChunkInfo 1 1 2 "chunk_001.gz") [Byte.x43; Byte.x44]) as H.
  destruct (loadGeoIPFromChunks Sample.corrupted Sample.dir initial_state)
    as [r s'].
  destruct H as (_ & _ & _ & H).
  - reflexivity.
  - split; [reflexivity|]. exists [Byte.x7b]. split; reflexivity.
  - simpl. lia.
  - reflexivity.
  - split; [reflexivity|]. exists [Byte.x1f; Byte.x02]. split; reflexivity.
  - simpl. lia.
  - destruct (H [[Byte.x41; Byte.x42]]) as [-> ->]; [|reflexivity].
    repeat constructor. exists [Byte.x1f; Byte.x00]. split; reflexivity.
Defined.



(** ** The database selector *)

Section Selector.

Variable w : World.

(** C5.  [detectDatabaseType] takes the first of four candidates that is
    there: the chunks directory with its manifest, then [country.mmdb],
    then [ipinfo_lite.mmdb], then [GeoLite2-City.mmdb]; with none of them
    it throws "No GeoIP database found".  So a chunks directory wins over a
    [country.mmdb] next to it. *)
Theorem detectDatabaseType_priority :
  let chunksDir := path_join (basePath w) "chunks" in
  let ipinfoCountry := path_join (basePath w) "country.mmdb" in
  let ipinfoLite := path_join (basePath w) "ipinfo_lite.mmdb" in
  let maxmindCity := path_join (basePath w) "GeoLite2-City.mmdb" in
  let manifest_there := existsSync w (path_join chunksDir "metadata.json") in
  (manifest_there = true ->
   detectDatabaseType w = Ok (mkSelection chunksDir maxmind true))
  /\ (manifest_there = false -> existsSync w ipinfoCountry = true ->
      detectDatabaseType w = Ok (mkSelection ipinfoCountry ipinfo false))
  /\ (manifest_there = false -> existsSync w ipinfoCountry = false ->
      existsSync w ipinfoLite = true ->
      detectDatabaseType w = Ok (mkSelection ipinfoLite ipinfo false))
  /\ (manifest_there = false -> existsSync w ipinfoCountry = false ->
      existsSync w ipinfoLite = false -> existsSync w maxmindCity = true ->
      detectDatabaseType w = Ok (mkSelection maxmindCity maxmind false))
  /\ (manifest_there = false -> existsSync w ipinfoCountry = false ->
      existsSync w ipinfoLite = false -> existsSync w maxmindCity = false ->
      detectDatabaseType w = Err NoDatabaseFound)
  /\ (manifest_there = true -> existsSync w ipinfoCountry = true ->
      detectDatabaseType w = Ok (mkSelection chunksDir maxmind true)).
Proof.
  intros chunksDir ipinfoCountry ipinfoLite maxmindCity manifest_there.
  unfold detectDatabaseType, hasChunkedDatabase.
  fold chunksDir ipinfoCountry ipinfoLite maxmindCity. fold manifest_there.
  repeat split; intros; repeat
    match goal with
    | H : ?b = _ |- context [if ?b then _ else _] => rewrite H
    end; reflexivity.
Qed.

End Selector.

Lemma detectDatabaseType_priority_witness :
  existsSync Sample.chunked_and_country
    "/app/lib/maxmind-db/chunks/metadata.json" = true
  /\ existsSync Sample.chunked_and_country
       "/app/lib/maxmind-db/country.mmdb" = true
  /\ detectDatabaseType Sample.chunked_and_country
     = Ok (mkSelection "/app/lib/maxmind-db/chunks" maxmind true).
Proof.
  split; [reflexivity|]. split; [reflexivity|].
  apply (detectDatabaseType_priority Sample.chunked_and_country); reflexivity.
Defined.

(** ** The JavaScript map *)

Section MapFacts.

Implicit Types (m : JsMap) (k : string) (v : option string).

Lemma Map_has_false k m : Map_has k m = false <-> k ∉ Map_keys m.
Proof.
  unfold Map_has, Map_keys. induction m as [|[k' v'] m IH]; simpl.
  - split; [intros _; apply not_elem_of_nil|reflexivity].
  - rewrite not_elem_of_cons, orb_false_iff, IH, String.eqb_neq.
    split; intros [H1 H2]; split; auto.
Qed.

Lemma Map_has_true k m : Map_has k m = true <-> k ∈ Map_keys m.
Proof.
  destruct (Map_has k m) eqn:H.
  - split; [intros _|reflexivity].
    destruct (decide (k ∈ Map_keys m)) as [|Hn]; [assumption|].
    apply Map_has_false in Hn. congruence.
  - apply Map_has_false in H. split; [discriminate|contradiction].
Qed.

Lemma Map_set_absent k v m :
  Map_has k m = false -> Map_set k v m = m ++ [(k, v)].
Proof.
  unfold Map_has. induction m as [|e m IH]; simpl; [reflexivity|].
  intros H. apply orb_false_iff in H as [-> H]. rewrite IH by exact H.
  reflexivity.
Qed.

Lemma Map_delete_absent k m : k ∉ Map_keys m -> Map_delete k m = m.
Proof.
  unfold Map_delete, Map_keys. induction m as [|[k' v'] m IH]; simpl;
    [reflexivity|].
  rewrite not_elem_of_cons. intros [Hk Hm].
  apply not_eq_sym, String.eqb_neq in Hk. rewrite Hk. simpl.
  rewrite IH by exact Hm. reflexivity.
Qed.

(** Deleting the first key of a map takes away its first entry only. *)
Lemma Map_delete_first e m :
  NoDup (Map_keys (e :: m)) -> Map_delete (fst e) (e :: m) = m.
Proof.
  intros Hnd. apply NoDup_cons in Hnd as [Hnotin _].
  unfold Map_delete. simpl. rewrite String.eqb_refl. simpl.
  apply Map_delete_absent. exact Hnotin.
Qed.

Lemma Map_get_In k v m :
  NoDup (Map_keys m) -> (k, v) ∈ m -> Map_get k m = Some v.
Proof.
  unfold Map_get, Map_keys. induction m as [|[k' v'] m IH]; simpl.
  - intros _ H. apply elem_of_nil in H. contradiction.
  - intros Hnd Hin. apply NoDup_cons in Hnd as [Hnotin Hnd].
    apply elem_of_cons in Hin as [[= <- <-]|Hin].
    + rewrite String.eqb_refl. reflexivity.
    + destruct (String.eqb_spec k' k) as [->|_]; [|exact (IH Hnd Hin)].
      exfalso. apply Hnotin. apply (list_elem_of_fmap_2 fst) in Hin. exact Hin.
Qed.

End MapFacts.

(** ** The store block *)

Section Store.

Lemma no_address_truthy ip : no_address ip = false -> truthy ip = true.
Proof.
  unfold no_address. intros H. apply orb_false_iff in H as [H1 _].
  apply orb_false_iff in H1 as [H2 _]. apply negb_false_iff. exact H2.
Qed.

Lemma MAX_CACHE_SIZE_pos : 0 < MAX_CACHE_SIZE.
Proof. apply Nat.ltb_lt. vm_compute. reflexivity. Qed.

(** Below capacity the new entry is appended. *)
Lemma cache_store_room ip code cache :
  Map_has ip cache = false -> Map_size cache < MAX_CACHE_SIZE ->
  cache_store ip code cache = cache ++ [(ip, code)].
Proof.
  intros Habsent Hroom. unfold cache_store.
  destruct (Nat.leb_spec MAX_CACHE_SIZE (Map_size cache)); [lia|].
  apply Map_set_absent. exact Habsent.
Qed.

(** At capacity the oldest entry goes and the new one is appended. *)
Lemma cache_store_full ip code oldest rest :
  cache_wf (oldest :: rest) -> Map_has ip (oldest :: rest) = false ->
  MAX_CACHE_SIZE <= Map_size (oldest :: rest) ->
  cache_store ip code (oldest :: rest) = rest ++ [(ip, code)].
Proof.
  intros (Hnd & Hkeys & _) Habsent Hfull. unfold cache_store.
  destruct (Nat.leb_spec MAX_CACHE_SIZE (Map_size (oldest :: rest))); [|lia].
  cbn [Map_first_key head fmap option_fmap option_map].
  apply Forall_cons in Hkeys as [Hkey _].
  rewrite (no_address_truthy _ Hkey), (Map_delete_first _ _ Hnd).
  apply Map_set_absent.
  unfold Map_has in *. simpl in Habsent.
  apply orb_false_iff in Habsent as [_ Hrest]. exact Hrest.
Qed.

Lemma Map_keys_set k v m :
  Map_keys (Map_set k v m)
  = if Map_has k m then Map_keys m else Map_keys m ++ [k].
Proof.
  unfold Map_keys, Map_has. induction m as [|[k' v'] m IH]; simpl;
    [reflexivity|].
  destruct (String.eqb_spec k' k) as [->|_]; simpl; [reflexivity|].
  rewrite IH. destruct (existsb _ m); reflexivity.
Qed.

Lemma Forall_Map_set (P : string * option string -> Prop) k v m :
  Forall P m -> P (k, v) -> Forall P (Map_set k v m).
Proof.
  intros Hm Hkv. induction Hm as [|e m He Hm IH]; simpl.
  - repeat constructor. exact Hkv.
  - destruct (String.eqb (fst e) k); constructor; assumption.
Qed.

(** [set] keeps a map well formed and adds at most one entry. *)
Lemma Map_set_wf k v m :
  cache_wf m -> no_address k = false -> or_null (Some v) = v ->
  cache_wf (Map_set k v m) /\ Map_size (Map_set k v m) <= S (Map_size m).
Proof.
  intros (Hnd & Hkeys & Hvals) Hk Hv.
  assert (Hlen : Map_size (Map_set k v m) <= S (Map_size m)).
  { unfold Map_size. rewrite <- !(length_map fst).
    fold (Map_keys (Map_set k v m)) (Map_keys m). rewrite Map_keys_set.
    destruct (Map_has k m); rewrite ?length_app; simpl; lia. }
  split; [|exact Hlen]. split; [|split].
  - rewrite Map_keys_set. destruct (Map_has k m) eqn:Hhas; [exact Hnd|].
    apply NoDup_app. split; [exact Hnd|]. split; [|apply NoDup_singleton].
    intros k' Hin Hin'. apply list_elem_of_singleton in Hin'. subst k'.
    apply Map_has_false in Hhas. contradiction.
  - apply Forall_Map_set; assumption.
  - apply Forall_Map_set; assumption.
Qed.

Lemma cache_wf_nil : cache_wf [].
Proof. repeat split; constructor. Qed.

Lemma cache_wf_tail e cache : cache_wf (e :: cache) -> cache_wf cache.
Proof.
  intros (Hnd & Hkeys & Hvals). repeat split.
  - exact (NoDup_cons_1_2 _ _ Hnd).
  - exact (Forall_inv_tail Hkeys).
  - exact (Forall_inv_tail Hvals).
Qed.

Lemma cache_wf_snoc ip code cache :
  cache_wf cache -> Map_has ip cache = false -> no_address ip = false ->
  or_null (Some code) = code -> cache_wf (cache ++ [(ip, code)]).
Proof.
  intros (Hnd & Hkeys & Hvals) Habsent Hip Hcode. repeat split.
  - unfold Map_keys in *. rewrite map_app. simpl. apply NoDup_app.
    split; [exact Hnd|]. split; [|apply NoDup_singleton].
    intros k Hk Hk'. apply list_elem_of_singleton in Hk'. subst k.
    apply Map_has_false in Habsent. contradiction.
  - apply Forall_app. split; [exact Hkeys|]. repeat constructor. exact Hip.
  - apply Forall_app. split; [exact Hvals|]. repeat constructor. exact Hcode.
Qed.

(** Storing under an absent, non-empty key keeps the cache well formed and
    within its capacity. *)
Lemma cache_store_wf ip code cache :
  cache_wf cache -> Map_size cache <= MAX_CACHE_SIZE ->
  Map_has ip cache = false -> no_address ip = false ->
  or_null (Some code) = code ->
  cache_wf (cache_store ip code cache)
  /\ Map_size (cache_store ip code cache) <= MAX_CACHE_SIZE.
Proof.
  intros Hwf Hsize Habsent Hip Hcode.
  destruct (Nat.lt_ge_cases (Map_size cache) MAX_CACHE_SIZE) as [Hroom|Hfull].
  - rewrite cache_store_room by assumption. split.
    + apply cache_wf_snoc; assumption.
    + unfold Map_size in *. rewrite length_app. simpl. lia.
  - destruct cache as [|oldest rest].
    { pose proof MAX_CACHE_SIZE_pos. simpl in Hfull. lia. }
    rewrite cache_store_full by assumption. split.
    + apply cache_wf_snoc; try assumption.
      * exact (cache_wf_tail _ _ Hwf).
      * unfold Map_has in *. simpl in Habsent.
        apply orb_false_iff in Habsent as [_ Hrest]. exact Hrest.
    + unfold Map_size in *. rewrite length_app. simpl in *. lia.
Qed.

(** The store block on a full cache: the first entry goes, then [set]. *)
Lemma cache_store_evicts ip code cache :
  cache_wf cache -> MAX_CACHE_SIZE <= Map_size cache ->
  exists oldest rest,
    cache = oldest :: rest /\ cache_store ip code cache = Map_set ip code rest.
Proof.
  intros (Hnd & Hkeys & _) Hfull.
  destruct cache as [|oldest rest].
  { pose proof MAX_CACHE_SIZE_pos. simpl in Hfull. lia. }
  exists oldest, rest. split; [reflexivity|]. unfold cache_store.
  destruct (Nat.leb_spec MAX_CACHE_SIZE (Map_size (oldest :: rest))); [|lia].
  cbn [Map_first_key head fmap option_fmap option_map].
  apply Forall_cons in Hkeys as [Hkey _].
  rewrite (no_address_truthy _ Hkey), (Map_delete_first _ _ Hnd).
  reflexivity.
Qed.

(** The store block, run on any well-formed cache within capacity (the key
    may be there already, as when two non-blocking lookups of one address
    overlap), leaves a well-formed cache within capacity. *)
Lemma cache_store_bounded ip code cache :
  cache_wf cache -> Map_size cache <= MAX_CACHE_SIZE ->
  no_address ip = false -> or_null (Some code) = code ->
  cache_wf (cache_store ip code cache)
  /\ Map_size (cache_store ip code cache) <= MAX_CACHE_SIZE.
Proof.
  intros Hwf Hsize Hip Hcode.
  destruct (Nat.lt_ge_cases (Map_size cache) MAX_CACHE_SIZE) as [Hroom|Hfull].
  - unfold cache_store.
    destruct (Nat.leb_spec MAX_CACHE_SIZE (Map_size cache)); [lia|].
    destruct (Map_set_wf ip code cache Hwf Hip Hcode) as [Hwf' Hlen].
    split; [exact Hwf'|lia].
  - destruct (cache_store_evicts ip code cache Hwf Hfull)
      as (oldest & rest & -> & ->).
    destruct (Map_set_wf ip code rest (cache_wf_tail _ _ Hwf) Hip Hcode)
      as [Hwf' Hlen].
    split; [exact Hwf'|]. unfold Map_size in *. simpl in Hsize. lia.
Qed.

Lemma extractCountryCode_or_null dbt result :
  or_null (Some (extractCountryCode dbt result))
  = extractCountryCode dbt result.
Proof.
  assert (Hpresent : forall field,
             or_null (Some (present field)) = present field).
  { intros [c|]; [|reflexivity]. unfold present, or_null.
    destruct (truthy c) eqn:Hc; [rewrite Hc|]; reflexivity. }
  unfold extractCountryCode.
  destruct result as [r|]; [|reflexivity].
  destruct dbt; [|apply Hpresent].
  destruct (present (rec_country_iso_code r)) as [c|] eqn:Hc;
    [rewrite <- Hc|]; apply Hpresent.
Qed.

End Store.

(** ** What a computation leaves alone *)

Section Keeps.

Context {B : Type} (f : State -> B).

Lemma keeps_ret {A} (a : A) : keeps f (ret a).
Proof. intros s. reflexivity. Qed.

Lemma keeps_throw {A} e : keeps f (@throw A e).
Proof. intros s. reflexivity. Qed.

Lemma keeps_lift {A} (r : result A) : keeps f (lift r).
Proof. intros s. reflexivity. Qed.

Lemma keeps_read {A} (g : State -> A) : keeps f (read g).
Proof. intros s. reflexivity. Qed.

Lemma keeps_write g : (forall s, f (g s) = f s) -> keeps f (write g).
Proof. intros H s. apply H. Qed.

Lemma keeps_bind {A C} (m : M A) (k : A -> M C) :
  keeps f m -> (forall a, keeps f (k a)) -> keeps f (bind m k).
Proof.
  intros Hm Hk s. unfold bind. specialize (Hm s).
  destruct (m s) as [[a|e] s1]; simpl in *.
  - rewrite (Hk a s1). exact Hm.
  - exact Hm.
Qed.

Lemma keeps_try_catch {A} (m : M A) handler :
  keeps f m -> (forall e, keeps f (handler e)) -> keeps f (try_catch m handler).
Proof.
  intros Hm Hh s. unfold try_catch. specialize (Hm s).
  destruct (m s) as [[a|e] s1]; simpl in *.
  - exact Hm.
  - rewrite (Hh e s1). exact Hm.
Qed.

Lemma keeps_try_finally {A} (m : M A) g :
  keeps f m -> (forall s, f (g s) = f s) -> keeps f (try_finally m g).
Proof.
  intros Hm Hg s. unfold try_finally. specialize (Hm s).
  destruct (m s) as [r s1]. simpl in *. rewrite Hg. exact Hm.
Qed.

End Keeps.

Create HintDb keeps discriminated.

#[local] Hint Resolve keeps_ret keeps_throw keeps_lift keeps_read : keeps.

(** Walks down a computation built from the combinators of [M]. *)
Ltac keeps_step :=
  lazymatch goal with
  | |- keeps _ (bind _ _) => apply keeps_bind; [|intros ?]
  | |- keeps _ (try_catch _ _) => apply keeps_try_catch; [|intros ?]
  | |- keeps _ (try_finally _ _) => apply keeps_try_finally
  | |- keeps _ (write _) => apply keeps_write; intros ?
  | |- keeps _ (ret _) => apply keeps_ret
  | |- keeps _ (throw _) => apply keeps_throw
  | |- keeps _ (lift _) => apply keeps_lift
  | |- keeps _ (read _) => apply keeps_read
  | |- keeps _ (match ?x with _ => _ end) => destruct x
  end.

Ltac keeps_auto :=
  repeat (keeps_step || solve [eauto with keeps] || reflexivity).

Section KeepsProgram.

Variable w : World.
Context {B : Type} (f : State -> B).

Lemma keeps_gunzip compressed : loader_blind f -> keeps f (gunzip w compressed).
Proof. intros (Hgz & _). unfold gunzip. keeps_auto. Qed.

Lemma keeps_load_chunks chunksDir metadata n :
  loader_blind f ->
  forall i fullBuffer offset,
    keeps f (load_chunks w chunksDir metadata n i fullBuffer offset).
Proof.
  intros Hf. induction n as [|n IH]; intros i fullBuffer offset;
    cbn [load_chunks]; [apply keeps_ret|].
  pose proof (keeps_gunzip) as Hg.
  keeps_auto.
Qed.

Lemma keeps_new_Reader buffer : keeps f (new_Reader w buffer).
Proof. unfold new_Reader. keeps_auto. Qed.

Lemma keeps_loadGeoIPFromChunks chunksDir :
  loader_blind f -> keeps f (loadGeoIPFromChunks w chunksDir).
Proof.
  intros Hf. pose proof (keeps_load_chunks) as Hloop.
  pose proof keeps_new_Reader as Hnew.
  destruct Hf as (Hgz & Hreader & Hbuffer).
  unfold loadGeoIPFromChunks. keeps_auto.
  apply Hloop. repeat split; assumption.
Qed.

Lemma keeps_initGeoIPReader : init_blind f -> keeps f (initGeoIPReader w).
Proof.
  intros (_ & Hg & Hd & _). pose proof keeps_new_Reader as Hnew.
  unfold initGeoIPReader. keeps_auto.
Qed.

Lemma keeps_init_task : init_blind f -> keeps f (init_task w).
Proof.
  intros (Hl & Hg & Hd & Hi & Hp). pose proof keeps_new_Reader as Hnew.
  pose proof (fun d => keeps_loadGeoIPFromChunks d Hl) as Hload.
  unfold init_task. keeps_auto.
Qed.

Lemma keeps_initGeoIPReaderAsync :
  init_blind f -> keeps f (initGeoIPReaderAsync w).
Proof.
  intros Hf. pose proof (keeps_init_task Hf) as Htask.
  destruct Hf as (Hl & Hg & Hd & Hi & Hp).
  unfold initGeoIPReaderAsync. keeps_auto.
  all: intros s; specialize (Htask s); destruct (init_task w s) as [r s1].
  all: simpl in *.
  all: destruct (detectDatabaseType w) as [sel|]; [destruct (chunked sel)|];
    destruct r; rewrite ?Hp; exact Htask.
Qed.

End KeepsProgram.

(** ** The resolvers *)

Section Resolver.

Variable w : World.

Lemma getCountryCodeFromIP_resolve ip :
  getCountryCodeFromIP w ip = resolve_with w (initGeoIPReader w) ip.
Proof. reflexivity. Qed.

Lemma getCountryCodeFromIPAsync_resolve ip :
  getCountryCodeFromIPAsync w ip = resolve_with w (initGeoIPReaderAsync w) ip.
Proof. reflexivity. Qed.

(** A lookup, case by case. *)
Lemma resolve_with_cases init ip s :
  resolve_with w init ip s
  = if no_address ip then (Ok None, s)
    else if Map_has ip (ipCountryCache s)
    then (Ok (or_null (Map_get ip (ipCountryCache s))), s)
    else
      match init s with
      | (Err _, s1) => (Ok None, s1)
      | (Ok reader, s1) =>
          match Reader_get w (reader_buffer reader) ip with
          | Err _ => (Ok None, count_query s1)
          | Ok record =>
              let countryCode := extractCountryCode (databaseType s1) record in
              (Ok countryCode,
               set_ipCountryCache
                 (cache_store ip countryCode (ipCountryCache s1))
                 (count_query s1))
          end
      end.
Proof.
  unfold resolve_with. destruct (no_address ip); [reflexivity|].
  unfold bind at 1, read at 1.
  destruct (Map_has ip (ipCountryCache s)); [reflexivity|].
  unfold try_catch, bind at 1.
  destruct (init s) as [[reader|e] s1]; [|reflexivity].
  unfold bind at 1, reader_get, bind at 1, write at 1, lift at 1.
  destruct (Reader_get w (reader_buffer reader) ip) as [record|e];
    reflexivity.
Qed.

Lemma keeps_preloadGeoIPDatabase :
  keeps ipCountryCache (preloadGeoIPDatabase w).
Proof.
  assert (Hload : forall d, keeps ipCountryCache (loadGeoIPFromChunks w d))
    by (intros d; apply keeps_loadGeoIPFromChunks; repeat split).
  assert (Htask : keeps ipCountryCache (preload_task w))
    by (unfold preload_task; keeps_auto).
  unfold preloadGeoIPDatabase. keeps_auto.
  intros s. specialize (Htask s). destruct (preload_task w s) as [r s1].
  simpl in *. destruct (hasChunkedDatabase w _); exact Htask.
Qed.

(** The promise of the preload task is always fulfilled. *)
Lemma preload_task_fulfilled s : fst (preload_task w s) = Ok tt.
Proof.
  unfold preload_task, try_finally, try_catch.
  destruct (hasChunkedDatabase w (preload_chunksDir w)).
  - unfold bind at 1, write at 1, bind at 1.
    destruct (loadGeoIPFromChunks w (preload_chunksDir w) _) as [[r|e] s1];
      reflexivity.
  - reflexivity.
Qed.

Lemma preloadGeoIPDatabase_settled s :
  preload_settled s -> preload_settled (snd (preloadGeoIPDatabase w s)).
Proof.
  intros Hs. unfold preloadGeoIPDatabase, bind at 1, read at 1.
  destruct (isPreloaded s); [exact Hs|].
  unfold bind at 1, read at 1.
  destruct (preloadPromise s) as [outcome|] eqn:Hp.
  - unfold bind, write, lift. simpl. unfold preload_settled in *. simpl.
    exact Hs.
  - pose proof (preload_task_fulfilled s) as Hr.
    unfold preload_task, try_finally in *.
    destruct (try_catch _ _ s) as [r s1]. simpl in *. subst r.
    destruct (hasChunkedDatabase w _); [left|right]; reflexivity.
Qed.

Lemma resolve_with_Inv init ip s :
  keeps ipCountryCache init -> keeps preloadPromise init ->
  Inv s -> Inv (snd (resolve_with w init ip s)).
Proof.
  intros Hcache Hpre (Hwf & Hsize & Hsettled).
  rewrite resolve_with_cases.
  destruct (no_address ip) eqn:Hip; [split; [|split]; assumption|].
  destruct (Map_has ip (ipCountryCache s)) eqn:Hhas;
    [split; [|split]; assumption|].
  specialize (Hcache s). specialize (Hpre s).
  destruct (init s) as [[reader|e] s1]; simpl in *.
  - destruct (Reader_get w (reader_buffer reader) ip) as [record|e]; simpl.
    + unfold Inv, preload_settled. simpl. rewrite Hcache, Hpre.
      destruct (cache_store_wf ip
                  (extractCountryCode (databaseType s1) record)
                  (ipCountryCache s)) as [Hwf' Hsize']; try assumption.
      * apply extractCountryCode_or_null.
      * split; [|split]; assumption.
    + unfold Inv, preload_settled. simpl. rewrite Hcache, Hpre.
      split; [|split]; assumption.
  - unfold Inv, preload_settled. rewrite Hcache, Hpre.
    split; [|split]; assumption.
Qed.

Lemma getCountryCodeFromIP_Inv ip s :
  Inv s -> Inv (snd (getCountryCodeFromIP w ip s)).
Proof.
  apply resolve_with_Inv; apply keeps_initGeoIPReader; repeat split.
Qed.

Lemma getCountryCodeFromIPAsync_Inv ip s :
  Inv s -> Inv (snd (getCountryCodeFromIPAsync w ip s)).
Proof.
  apply resolve_with_Inv; apply keeps_initGeoIPReaderAsync; repeat split.
Qed.

Lemma getCountryCodeFromServerIPs_Inv ipv4 ipv6 s :
  Inv s -> Inv (snd (getCountryCodeFromServerIPs w ipv4 ipv6 s)).
Proof.
  intros Hs. unfold getCountryCodeFromServerIPs, bind at 1.
  match goal with
  | |- Inv (snd (match ?m s with _ => _ end)) =>
      assert (H1 : Inv (snd (m s)));
      [|destruct (m s) as [[fromIPv4|e] s1]; simpl in H1; [|exact H1]]
  end.
  { destruct ipv4 as [a|];
      [destruct (truthy a && negb (String.eqb a ""))|]; try exact Hs.
    apply getCountryCodeFromIP_Inv. exact Hs. }
  destruct (present fromIPv4) as [code|]; [exact H1|].
  unfold bind.
  match goal with
  | |- Inv (snd (match ?m s1 with _ => _ end)) =>
      assert (H2 : Inv (snd (m s1)));
      [|destruct (m s1) as [[fromIPv6|e] s2]; simpl in H2; [|exact H2]]
  end.
  { destruct ipv6 as [a|];
      [destruct (truthy a && negb (String.eqb a "")
                 && negb (String.eqb a "::"))|]; try exact H1.
    apply getCountryCodeFromIP_Inv. exact H1. }
  destruct (present fromIPv6); exact H2.
Qed.

Lemma Inv_initial : Inv initial_state.
Proof.
  split; [apply cache_wf_nil|]. split; [simpl; lia|]. left. reflexivity.
Qed.

Lemma step_Inv s op : Inv s -> Inv (step w s op).
Proof.
  intros Hs. destruct op; cbn [step].
  - destruct Hs as (Hwf & Hsize & Hsettled). unfold Inv, preload_settled.
    rewrite (keeps_loadGeoIPFromChunks w ipCountryCache chunksDir),
      (keeps_loadGeoIPFromChunks w preloadPromise chunksDir)
      by (repeat split).
    split; [|split]; assumption.
  - exact Hs.
  - destruct Hs as (Hwf & Hsize & Hsettled). unfold Inv.
    rewrite keeps_preloadGeoIPDatabase.
    split; [|split]; try assumption.
    apply preloadGeoIPDatabase_settled. exact Hsettled.
  - apply getCountryCodeFromIP_Inv. exact Hs.
  - apply getCountryCodeFromIPAsync_Inv. exact Hs.
  - apply getCountryCodeFromServerIPs_Inv. exact Hs.
  - destruct Hs as (_ & _ & Hsettled).
    split; [apply cache_wf_nil|]. split; [simpl; lia|]. exact Hsettled.
Qed.

Lemma run_Inv ops : Inv (run w ops).
Proof.
  unfold run. induction ops as [|op ops IH] using rev_ind.
  - exact Inv_initial.
  - rewrite fold_left_app. simpl. apply step_Inv. exact IH.
Qed.

End Resolver.

(** ** The resolution cache *)

Section Cache.

Variable w : World.

(** A lookup with a full cache leaves the cache as it is, or drops the
    oldest entry and appends the new one. *)
Lemma resolve_with_full init ip s :
  keeps ipCountryCache init -> Inv s ->
  Map_size (ipCountryCache s) = MAX_CACHE_SIZE ->
  let cache' := ipCountryCache (snd (resolve_with w init ip s)) in
  cache' = ipCountryCache s
  \/ exists oldest rest countryCode,
       ipCountryCache s = oldest :: rest
       /\ cache' = rest ++ [(ip, countryCode)].
Proof.
  intros Hcache (Hwf & _ & _) Hfull. rewrite resolve_with_cases.
  destruct (no_address ip) eqn:Hip; [left; reflexivity|].
  destruct (Map_has ip (ipCountryCache s)) eqn:Hhas; [left; reflexivity|].
  specialize (Hcache s).
  destruct (init s) as [[reader|e] s1]; simpl in *; [|left; exact Hcache].
  destruct (Reader_get w (reader_buffer reader) ip) as [record|e]; simpl;
    [|left; exact Hcache].
  right. rewrite Hcache.
  destruct (ipCountryCache s) as [|oldest rest] eqn:Hc.
  { pose proof MAX_CACHE_SIZE_pos. simpl in Hfull. lia. }
  exists oldest, rest, (extractCountryCode (databaseType s1) record).
  split; [reflexivity|].
  apply cache_store_full; [assumption..|lia].
Qed.

(** A lookup of a cached address changes nothing at all. *)
Lemma resolve_with_hit init ip s :
  Map_has ip (ipCountryCache s) = true ->
  resolve_with w init ip s
  = (Ok (if no_address ip then None
         else or_null (Map_get ip (ipCountryCache s))), s).
Proof.
  intros Hhas. rewrite resolve_with_cases, Hhas.
  destruct (no_address ip); reflexivity.
Qed.

Lemma entries_wf (code : string -> option string) ips :
  NoDup ips -> Forall (fun ip => no_address ip = false) ips ->
  (forall ip, or_null (Some (code ip)) = code ip) ->
  forall k, cache_wf (drop k (map (fun ip => (ip, code ip)) ips)).
Proof.
  intros Hnd Hkeys Hcode.
  induction ips as [|ip ips IH]; intros k.
  - simpl. rewrite drop_nil. apply cache_wf_nil.
  - destruct k as [|k].
    + apply NoDup_cons in Hnd as [Hnotin Hnd].
      apply Forall_cons in Hkeys as [Hip Hkeys].
      specialize (IH Hnd Hkeys 0). rewrite drop_0 in *.
      destruct IH as (IH1 & IH2 & IH3). repeat split; simpl.
      * apply NoDup_cons. split; [|exact IH1].
        unfold Map_keys. rewrite map_map. simpl. rewrite map_id.
        exact Hnotin.
      * constructor; [exact Hip|exact IH2].
      * constructor; [apply Hcode|exact IH3].
    + simpl. apply IH.
      * exact (NoDup_cons_1_2 _ _ Hnd).
      * exact (Forall_inv_tail Hkeys).
Qed.

Lemma elem_of_drop_inv {A} (x : A) n l : x ∈ drop n l -> x ∈ l.
Proof.
  intros H. apply list_elem_of_lookup in H as [i Hi].
  rewrite lookup_drop in Hi. apply list_elem_of_lookup. eauto.
Qed.

Lemma Map_keys_entries (code : string -> option string) ips k :
  Map_keys (drop k (map (fun ip => (ip, code ip)) ips)) = drop k ips.
Proof.
  unfold Map_keys. rewrite <- skipn_map, map_map. simpl. rewrite map_id.
  reflexivity.
Qed.

Lemma initGeoIPReader_ready reader s :
  geoIPReader s = Some reader -> initGeoIPReader w s = (Ok reader, s).
Proof.
  intros H. unfold initGeoIPReader, bind, read. rewrite H. reflexivity.
Qed.

Lemma initGeoIPReaderAsync_ready reader s :
  geoIPReader s = Some reader -> initGeoIPReaderAsync w s = (Ok reader, s).
Proof.
  intros H. unfold initGeoIPReaderAsync, bind at 1, read at 1. rewrite H.
  reflexivity.
Qed.

(** Blocking lookups of distinct addresses, from an empty cache and with a
    reader at hand: the cache ends up with the last [MAX_CACHE_SIZE] of
    them, in the order of the lookups. *)
Lemma lookups_fifo reader s ips :
  geoIPReader s = Some reader -> ipCountryCache s = [] ->
  NoDup ips ->
  Forall (fun ip => no_address ip = false /\ answers w reader ip) ips ->
  let s' := lookups w ips s in
  ipCountryCache s'
  = drop (length ips - MAX_CACHE_SIZE)
      (map (fun ip => (ip, resolved w reader (databaseType s) ip)) ips)
  /\ geoIPReader s' = Some reader
  /\ databaseType s' = databaseType s.
Proof.
  intros Hreader Hempty. unfold lookups.
  set (code := resolved w reader (databaseType s)).
  assert (Hcode : forall ip, or_null (Some (code ip)) = code ip).
  { intros ip. unfold code, resolved.
    destruct (Reader_get w (reader_buffer reader) ip);
      [apply extractCountryCode_or_null|reflexivity]. }
  induction ips as [|ip ips IH] using rev_ind; intros Hnd Hall.
  - simpl. rewrite Hempty. repeat split. exact Hreader.
  - apply NoDup_app in Hnd as (Hnd & Hfresh & _).
    apply Forall_app in Hall as [Hall Hip].
    apply Forall_inv in Hip as [Hip [record Hrecord]].
    specialize (IH Hnd Hall). cbv zeta in IH. destruct IH as (IHc & IHr & IHd).
    rewrite fold_left_app. cbn [fold_left]. cbv zeta.
    set (s1 := fold_left _ ips s) in *.
    assert (Hkeys : Forall (fun ip => no_address ip = false) ips).
    { eapply Forall_impl; [exact Hall|]. intros a [Ha _]. exact Ha. }
    pose proof (entries_wf code ips Hnd Hkeys Hcode
                  (length ips - MAX_CACHE_SIZE)) as Hwf.
    rewrite <- IHc in Hwf.
    assert (Hhas : Map_has ip (ipCountryCache s1) = false).
    { apply Map_has_false. rewrite IHc, Map_keys_entries.
      intros Hin. apply elem_of_drop_inv in Hin.
      apply (Hfresh ip Hin). apply list_elem_of_singleton. reflexivity. }
    rewrite getCountryCodeFromIP_resolve, resolve_with_cases, Hip, Hhas.
    rewrite (initGeoIPReader_ready reader s1 IHr), Hrecord.
    cbv zeta.
    cbn [snd set_ipCountryCache count_query ipCountryCache geoIPReader
         databaseType].
    rewrite IHd. split; [|split; [exact IHr|reflexivity]].
    assert (Hentry : extractCountryCode (databaseType s) record = code ip)
      by (unfold code, resolved; rewrite Hrecord; reflexivity).
    rewrite Hentry, length_app, map_app. cbn [length map].
    destruct (Nat.lt_ge_cases (length ips) MAX_CACHE_SIZE) as [Hroom|Hfull].
    + replace (length ips - MAX_CACHE_SIZE) with 0 in * by lia.
      replace (length ips + 1 - MAX_CACHE_SIZE) with 0 by lia.
      rewrite drop_0 in *. rewrite cache_store_room; try assumption.
      * rewrite IHc. reflexivity.
      * unfold Map_size. rewrite IHc, length_map. exact Hroom.
    + pose proof MAX_CACHE_SIZE_pos as Hpos.
      assert (Hlen : Map_size (ipCountryCache s1) = MAX_CACHE_SIZE).
      { unfold Map_size. rewrite IHc, length_drop, length_map. lia. }
      destruct (ipCountryCache s1) as [|oldest rest] eqn:Hc.
      { simpl in Hlen. lia. }
      rewrite cache_store_full; try assumption; [|lia].
      replace (length ips + 1 - MAX_CACHE_SIZE)
        with (S (length ips - MAX_CACHE_SIZE)) by lia.
      rewrite drop_app_le by (rewrite length_map; lia).
      f_equal.
      rewrite <- (Nat.add_1_r (length ips - MAX_CACHE_SIZE)), <- drop_drop.
      rewrite <- IHc. reflexivity.
Qed.

End Cache.

Section CacheClaims.

Variable w : World.

Lemma drop_1_tail {A} (l : list A) : drop 1 l = tail l.
Proof. destruct l; reflexivity. Qed.

(** C3.  After any run the cache holds at most [MAX_CACHE_SIZE] = 10000
    entries.  A lookup (blocking or not) made after any run on a full cache
    either leaves the cache untouched or removes exactly its first, that is
    oldest-inserted, entry and appends the new one.  A lookup of a cached
    address changes nothing, so reading never moves an entry.  And after
    [MAX_CACHE_SIZE + 1] lookups of distinct addresses which the provider
    answers, started on an empty cache, the cache holds all of them but
    the first, in the order of the lookups, and a further lookup of any of
    these returns its country code from the cache.  Last, the block that
    stores a result, whenever it runs on a well-formed cache within
    capacity (also for a key that an overlapping non-blocking lookup has
    stored meanwhile), leaves such a cache, and on a full cache it removes
    the first entry and no other before it sets the new one. *)
Theorem ipCountryCache_bounded_fifo :
  (forall ops, Map_size (ipCountryCache (run w ops)) <= MAX_CACHE_SIZE)
  /\ (forall ops ip s',
        let s := run w ops in
        Map_size (ipCountryCache s) = MAX_CACHE_SIZE ->
        s' = snd (getCountryCodeFromIP w ip s)
        \/ s' = snd (getCountryCodeFromIPAsync w ip s) ->
        ipCountryCache s' = ipCountryCache s
        \/ exists oldest rest countryCode,
             ipCountryCache s = oldest :: rest
             /\ ipCountryCache s' = rest ++ [(ip, countryCode)])
  /\ (forall s ip,
        Map_has ip (ipCountryCache s) = true ->
        snd (getCountryCodeFromIP w ip s) = s
        /\ snd (getCountryCodeFromIPAsync w ip s) = s)
  /\ (forall s reader ips,
        geoIPReader s = Some reader ->
        ipCountryCache s = [] ->
        length ips = S MAX_CACHE_SIZE ->
        NoDup ips ->
        Forall (fun ip => no_address ip = false /\ answers w reader ip) ips ->
        let s' := lookups w ips s in
        Map_keys (ipCountryCache s') = tail ips
        /\ Map_size (ipCountryCache s') = MAX_CACHE_SIZE
        /\ (forall first, head ips = Some first ->
              Map_has first (ipCountryCache s') = false)
        /\ Forall (fun ip =>
                     getCountryCodeFromIP w ip s'
                     = (Ok (resolved w reader (databaseType s) ip), s'))
             (tail ips))
  /\ (forall cache ip countryCode,
        cache_wf cache ->
        Map_size cache <= MAX_CACHE_SIZE ->
        no_address ip = false ->
        or_null (Some countryCode) = countryCode ->
        cache_wf (cache_store ip countryCode cache)
        /\ Map_size (cache_store ip countryCode cache) <= MAX_CACHE_SIZE
        /\ (Map_size cache = MAX_CACHE_SIZE ->
            exists oldest rest,
              cache = oldest :: rest
              /\ cache_store ip countryCode cache
                 = Map_set ip countryCode rest)).
Proof.
  split; [|split; [|split; [|split]]];
    [| | | |
     intros cache ip countryCode Hwf Hsize Hip Hcode;
     destruct (cache_store_bounded ip countryCode cache Hwf Hsize Hip Hcode)
       as [Hwf' Hsize'];
     split; [exact Hwf'|]; split; [exact Hsize'|];
     intros Hfull; apply cache_store_evicts; [exact Hwf|lia]].
  - intros ops. apply (run_Inv w ops).
  - intros ops ip s' s Hfull [-> | ->].
    + rewrite getCountryCodeFromIP_resolve.
      apply resolve_with_full; [|apply run_Inv|exact Hfull].
      apply keeps_initGeoIPReader. repeat split.
    + rewrite getCountryCodeFromIPAsync_resolve.
      apply resolve_with_full; [|apply run_Inv|exact Hfull].
      apply keeps_initGeoIPReaderAsync. repeat split.
  - intros s ip Hhas.
    rewrite getCountryCodeFromIP_resolve, getCountryCodeFromIPAsync_resolve,
      !resolve_with_hit by exact Hhas.
    split; reflexivity.
  - intros s reader ips Hreader Hempty Hlen Hnd Hall s'.
    destruct (lookups_fifo w reader s ips Hreader Hempty Hnd Hall)
      as (Hc & Hr & Hd).
    fold s' in Hc, Hr, Hd.
    replace (length ips - MAX_CACHE_SIZE) with 1 in Hc by lia.
    set (code := resolved w reader (databaseType s)) in *.
    assert (Hkeys : Map_keys (ipCountryCache s') = tail ips).
    { rewrite Hc, Map_keys_entries. apply drop_1_tail. }
    split; [exact Hkeys|]. split; [|split].
    + unfold Map_size. rewrite Hc, length_drop, length_map. lia.
    + intros first Hfirst. apply Map_has_false. rewrite Hkeys.
      destruct ips as [|ip0 ips0]; [discriminate|].
      injection Hfirst as ->. simpl.
      exact (NoDup_cons_1_1 _ _ Hnd).
    + apply Forall_forall. intros ip Hin.
      assert (Hin' : ip ∈ ips).
      { destruct ips; [exact Hin|]. simpl in Hin. apply elem_of_cons.
        right. exact Hin. }
      pose proof (proj1 (Forall_forall _ _) Hall ip Hin') as [Hip _].
      rewrite getCountryCodeFromIP_resolve, resolve_with_hit
        by (apply Map_has_true; rewrite Hkeys; exact Hin).
      rewrite Hip. f_equal. f_equal.
      rewrite (Map_get_In ip (code ip)).
      * unfold code, resolved.
        destruct (Reader_get w (reader_buffer reader) ip);
          [apply extractCountryCode_or_null|reflexivity].
      * fold (Map_keys (ipCountryCache s')). rewrite Hkeys.
        destruct ips; [constructor|exact (NoDup_cons_1_2 _ _ Hnd)].
      * rewrite Hc, drop_1_tail.
        destruct ips as [|ip0 ips0]; [discriminate|]. simpl in *.
        apply (list_elem_of_fmap_2 (fun ip => (ip, code ip))). exact Hin.
Qed.

End CacheClaims.

Lemma ipCountryCache_bounded_fifo_witness :
  Map_keys (ipCountryCache
              (lookups Sample.monolithic Sample.addresses Sample.warm))
  = tail Sample.addresses.
Proof.
  refine (proj1 (proj1 (proj2 (proj2 (proj2
            (ipCountryCache_bounded_fifo Sample.monolithic))))
            Sample.warm (mkReader [Byte.x00]) Sample.addresses
            eq_refl eq_refl _ _ _)).
  - unfold Sample.addresses. rewrite length_map, length_seq. reflexivity.
  - unfold Sample.addresses. apply (NoDup_fmap_2 _), NoDup_seq.
  - apply Forall_forall. intros ip Hin.
    assert (Hall : forallb Sample.stub_answers Sample.addresses = true)
      by (vm_compute; reflexivity).
    apply list_elem_of_In in Hin.
    pose proof (proj1 (forallb_forall _ _) Hall ip Hin) as Hip.
    unfold Sample.stub_answers in Hip.
    apply andb_true_iff in Hip as [Hvalid Hanswer].
    split; [apply negb_true_iff; exact Hvalid|].
    unfold answers. simpl.
    destruct (Sample.stub_get [Byte.x00] ip) as [record|e];
      [exists record; reflexivity|discriminate].
Defined.

(** ** Hits, misses and failures of a lookup *)

Section Lookup.

Variable w : World.

Lemma Map_has_get k m :
  Map_has k m = true -> exists v, Map_get k m = Some v.
Proof.
  unfold Map_has, Map_get. induction m as [|[k' v'] m IH]; simpl;
    [discriminate|].
  destruct (String.eqb k' k); simpl; [exists v'; reflexivity|exact IH].
Qed.

Lemma Map_get_elem k v m : Map_get k m = Some v -> (k, v) ∈ m.
Proof.
  unfold Map_get. induction m as [|[k' v'] m IH]; simpl; [discriminate|].
  destruct (String.eqb_spec k' k) as [->|_]; simpl.
  - intros [= ->]. apply elem_of_cons. left. reflexivity.
  - intros H. apply elem_of_cons. right. exact (IH H).
Qed.

Lemma Map_get_set k v m : Map_get k (Map_set k v m) = Some v.
Proof.
  unfold Map_get. induction m as [|[k' v'] m IH]; simpl.
  - rewrite String.eqb_refl. reflexivity.
  - destruct (String.eqb k' k) eqn:Hk; simpl.
    + rewrite String.eqb_refl. reflexivity.
    + rewrite Hk. exact IH.
Qed.

Lemma Map_has_set k v m : Map_has k (Map_set k v m) = true.
Proof.
  unfold Map_has. induction m as [|[k' v'] m IH]; simpl.
  - rewrite String.eqb_refl. reflexivity.
  - destruct (String.eqb k' k) eqn:Hk; simpl.
    + rewrite String.eqb_refl. reflexivity.
    + rewrite Hk. exact IH.
Qed.

(** In a well-formed cache a hit returns the stored value itself. *)
Lemma resolve_with_cached init ip s :
  cache_wf (ipCountryCache s) -> Map_has ip (ipCountryCache s) = true ->
  exists v, Map_get ip (ipCountryCache s) = Some v
            /\ resolve_with w init ip s = (Ok v, s).
Proof.
  intros (_ & Hkeys & Hvals) Hhas.
  destruct (Map_has_get _ _ Hhas) as [v Hv]. exists v. split; [exact Hv|].
  pose proof (Map_get_elem _ _ _ Hv) as Hin.
  rewrite resolve_with_hit by exact Hhas.
  pose proof (proj1 (Forall_forall _ _) Hkeys _ Hin) as Hkey.
  pose proof (proj1 (Forall_forall _ _) Hvals _ Hin) as Hval.
  cbn [fst snd] in Hkey, Hval. rewrite Hkey, Hv, Hval. reflexivity.
Qed.

(** A miss that completes is followed by a hit: one provider query for the
    two lookups. *)
Lemma resolve_with_twice init ip s reader s1 record :
  keeps provider_queries init ->
  no_address ip = false -> Map_has ip (ipCountryCache s) = false ->
  init s = (Ok reader, s1) ->
  Reader_get w (reader_buffer reader) ip = Ok record ->
  let countryCode := extractCountryCode (databaseType s1) record in
  let s2 := snd (resolve_with w init ip s) in
  resolve_with w init ip s = (Ok countryCode, s2)
  /\ provider_queries s2 = S (provider_queries s)
  /\ resolve_with w init ip s2 = (Ok countryCode, s2).
Proof.
  intros Hq Hip Hmiss Hinit Hrecord countryCode s2.
  assert (H1 : resolve_with w init ip s
               = (Ok countryCode,
                  set_ipCountryCache
                    (cache_store ip countryCode (ipCountryCache s1))
                    (count_query s1))).
  { rewrite resolve_with_cases, Hip, Hmiss, Hinit, Hrecord. reflexivity. }
  unfold s2. rewrite H1. cbn [snd]. split; [reflexivity|]. split.
  - cbn [provider_queries set_ipCountryCache count_query].
    specialize (Hq s). rewrite Hinit in Hq. simpl in Hq. rewrite Hq.
    reflexivity.
  - rewrite resolve_with_hit;
      cbn [ipCountryCache set_ipCountryCache]; unfold cache_store;
      [|apply Map_has_set].
    rewrite Hip, Map_get_set. unfold countryCode.
    rewrite extractCountryCode_or_null. reflexivity.
Qed.

(** An attempt that fails answers [null] and stores nothing. *)
Lemma resolve_with_failed init ip s :
  keeps ipCountryCache init ->
  no_address ip = false -> Map_has ip (ipCountryCache s) = false ->
  (forall e s1, init s = (Err e, s1) ->
     resolve_with w init ip s = (Ok None, s1)
     /\ ipCountryCache s1 = ipCountryCache s)
  /\ (forall reader s1 e,
        init s = (Ok reader, s1) ->
        Reader_get w (reader_buffer reader) ip = Err e ->
        resolve_with w init ip s = (Ok None, count_query s1)
        /\ ipCountryCache (count_query s1) = ipCountryCache s).
Proof.
  intros Hc Hip Hmiss. specialize (Hc s). split.
  - intros e s1 Hinit. rewrite Hinit in Hc.
    rewrite resolve_with_cases, Hip, Hmiss, Hinit. split; [reflexivity|].
    exact Hc.
  - intros reader s1 e Hinit Hget. rewrite Hinit in Hc.
    rewrite resolve_with_cases, Hip, Hmiss, Hinit, Hget.
    split; [reflexivity|]. exact Hc.
Qed.

(** While the provider fails for [ip], every lookup of [ip] asks it again. *)
Lemma resolve_with_retries init ip s reader e :
  stable init reader s ->
  no_address ip = false -> Map_has ip (ipCountryCache s) = false ->
  Reader_get w (reader_buffer reader) ip = Err e ->
  forall n,
    repeated (resolve_with w init) ip n s = Nat.iter n count_query s
    /\ fst (resolve_with w init ip (repeated (resolve_with w init) ip n s))
       = Ok None.
Proof.
  intros Hstable Hip Hmiss Hget.
  assert (Hcache : forall n,
             ipCountryCache (Nat.iter n count_query s) = ipCountryCache s).
  { induction n as [|n IH]; [reflexivity|]. simpl. exact IH. }
  assert (Hone : forall n,
             resolve_with w init ip (Nat.iter n count_query s)
             = (Ok None, Nat.iter (S n) count_query s)).
  { intros n. rewrite resolve_with_cases, Hip, Hcache, Hmiss, Hstable, Hget.
    reflexivity. }
  assert (Hrep : forall n,
             repeated (resolve_with w init) ip n s = Nat.iter n count_query s).
  { induction n as [|n IH]; [reflexivity|].
    unfold repeated in *. simpl. rewrite IH, Hone. reflexivity. }
  intros n. split; [apply Hrep|]. rewrite Hrep, Hone. reflexivity.
Qed.

Lemma provider_queries_iter n s :
  provider_queries (Nat.iter n count_query s) = n + provider_queries s.
Proof. induction n as [|n IH]; [reflexivity|]. simpl. rewrite IH. reflexivity. Qed.

Lemma initGeoIPReader_stable s reader s1 :
  initGeoIPReader w s = (Ok reader, s1) -> stable (initGeoIPReader w) reader s1.
Proof.
  intros Hinit.
  assert (Hready : geoIPReader s1 = Some reader).
  { revert Hinit. unfold initGeoIPReader, bind at 1, read at 1.
    destruct (geoIPReader s) as [r|] eqn:Hg.
    - intros [= <- <-]. exact Hg.
    - unfold try_catch, bind at 1, lift at 1.
      destruct (detectDatabaseType w) as [sel|e]; [|discriminate].
      destruct (chunked sel).
      + unfold bind, read. rewrite Hg. discriminate.
      + unfold bind at 1, lift at 1.
        destruct (readFileSync w (path sel)) as [dbBuffer|e]; [|discriminate].
        unfold bind at 1, new_Reader.
        destruct (Reader_check w dbBuffer); [discriminate|].
        cbn. intros [= <- <-]. reflexivity. }
  intros n. apply initGeoIPReader_ready.
  induction n as [|n IH]; [exact Hready|exact IH].
Qed.

Lemma init_task_reader s reader s1 :
  init_task w s = (Ok reader, s1) -> geoIPReader s1 = Some reader.
Proof.
  unfold init_task, try_catch, bind at 1, lift at 1.
  destruct (detectDatabaseType w) as [sel|e]; [|discriminate].
  destruct (chunked sel).
  - unfold bind at 1.
    destruct (loadGeoIPFromChunks w (path sel) s) as [[r|e] s0];
      [|discriminate].
    cbn. intros [= <- <-]. reflexivity.
  - unfold bind at 1, lift at 1.
    destruct (readFileSync w (path sel)) as [dbBuffer|e]; [|discriminate].
    unfold bind at 1, new_Reader.
    destruct (Reader_check w dbBuffer); [discriminate|].
    cbn. intros [= <- <-]. reflexivity.
Qed.

Lemma initGeoIPReaderAsync_stable s reader s1 :
  initGeoIPReaderAsync w s = (Ok reader, s1) ->
  stable (initGeoIPReaderAsync w) reader s1.
Proof.
  intros Hinit.
  assert (Hready : geoIPReader s1 = Some reader
                   \/ (geoIPReader s1 = None /\ isInitializing s1 = true
                       /\ initPromise s1 = Some (Ok reader))).
  { revert Hinit. unfold initGeoIPReaderAsync, bind at 1, read at 1.
    destruct (geoIPReader s) as [r|] eqn:Hg.
    - intros [= <- <-]. left. exact Hg.
    - unfold bind at 1, read at 1, bind at 1, read at 1.
      assert (Hfresh :
                (let '(r, s') := init_task w (set_isInitializing true s) in
                 (r, match (match detectDatabaseType w with
                            | Ok sel => chunked sel
                            | Err _ => false
                            end), r with
                     | true, Err _ => s'
                     | _, _ => set_initPromise (Some r) s'
                     end)) = (Ok reader, s1) ->
                geoIPReader s1 = Some reader).
      { destruct (init_task w (set_isInitializing true s)) as [[r|e] s']
          eqn:Htask.
        - apply init_task_reader in Htask.
          destruct (match detectDatabaseType w with
                    | Ok sel => chunked sel | Err _ => false end);
            intros [= <- <-]; exact Htask.
        - destruct (match detectDatabaseType w with
                    | Ok sel => chunked sel | Err _ => false end);
            discriminate. }
      destruct (isInitializing s) eqn:Hi;
        [destruct (initPromise s) as [outcome|] eqn:Hp|].
      + unfold lift. intros [= -> <-]. right. repeat split; assumption.
      + intros H. left. exact (Hfresh H).
      + intros H. left. exact (Hfresh H). }
  intros n.
  assert (Hn : forall (T : Type) (f : State -> T),
             (forall s, f (count_query s) = f s) ->
             f (Nat.iter n count_query s1) = f s1).
  { intros T f Hf. induction n as [|n IH]; [reflexivity|]. simpl.
    rewrite Hf. exact IH. }
  destruct Hready as [Hr|(Hg & Hi & Hp)].
  - apply initGeoIPReaderAsync_ready.
    rewrite (Hn _ geoIPReader) by reflexivity. exact Hr.
  - unfold initGeoIPReaderAsync, bind at 1, read at 1.
    rewrite (Hn _ geoIPReader), Hg by reflexivity.
    unfold bind at 1, read at 1, bind at 1, read at 1.
    rewrite (Hn _ isInitializing), Hi, (Hn _ initPromise), Hp by reflexivity.
    reflexivity.
Qed.

End Lookup.

Section LookupClaims.

Variable w : World.

Lemma stable_count_query init reader s :
  stable init reader s -> stable init reader (count_query s).
Proof.
  intros H n. specialize (H (S n)). rewrite Nat.iter_succ_r in H. exact H.
Qed.

Lemma ipCountryCache_iter n s :
  ipCountryCache (Nat.iter n count_query s) = ipCountryCache s.
Proof. induction n as [|n IH]; [reflexivity|]. simpl. exact IH. Qed.

(** C6.  After any run, a lookup (blocking or not) of an address that the
    cache holds returns the cached value, [null] included, and leaves the
    state as it is, so the provider is not queried.  And when a lookup of
    an address that is not cached obtains the reader and the provider's
    answer, a second lookup of that address returns the same result from
    the cache: the two lookups query the provider once. *)
Theorem cached_lookup_skips_provider :
  (forall ops ip,
     let s := run w ops in
     Map_has ip (ipCountryCache s) = true ->
     exists v,
       Map_get ip (ipCountryCache s) = Some v
       /\ getCountryCodeFromIP w ip s = (Ok v, s)
       /\ getCountryCodeFromIPAsync w ip s = (Ok v, s))
  /\ (forall s ip reader s1 record,
        no_address ip = false ->
        Map_has ip (ipCountryCache s) = false ->
        Reader_get w (reader_buffer reader) ip = Ok record ->
        let countryCode := extractCountryCode (databaseType s1) record in
        (initGeoIPReader w s = (Ok reader, s1) ->
         let s2 := snd (getCountryCodeFromIP w ip s) in
         getCountryCodeFromIP w ip s = (Ok countryCode, s2)
         /\ getCountryCodeFromIP w ip s2 = (Ok countryCode, s2)
         /\ provider_queries s2 = S (provider_queries s))
        /\ (initGeoIPReaderAsync w s = (Ok reader, s1) ->
            let s2 := snd (getCountryCodeFromIPAsync w ip s) in
            getCountryCodeFromIPAsync w ip s = (Ok countryCode, s2)
            /\ getCountryCodeFromIPAsync w ip s2 = (Ok countryCode, s2)
            /\ provider_queries s2 = S (provider_queries s))).
Proof.
  split.
  - intros ops ip s Hhas.
    destruct (run_Inv w ops) as (Hwf & _). fold s in Hwf.
    destruct (resolve_with_cached w (initGeoIPReader w) ip s Hwf Hhas)
      as (v & Hv & Hsync).
    destruct (resolve_with_cached w (initGeoIPReaderAsync w) ip s Hwf Hhas)
      as (v' & Hv' & Hasync).
    exists v. rewrite Hv in Hv'. injection Hv' as <-.
    split; [exact Hv|]. split; [exact Hsync|exact Hasync].
  - intros s ip reader s1 record Hip Hmiss Hrecord countryCode. split.
    + intros Hinit s2.
      destruct (resolve_with_twice w (initGeoIPReader w) ip s reader s1 record)
        as (H1 & H2 & H3); try assumption.
      { apply keeps_initGeoIPReader. repeat split. }
      split; [exact H1|]. split; [exact H3|exact H2].
    + intros Hinit s2.
      destruct (resolve_with_twice w (initGeoIPReaderAsync w) ip s reader s1
                  record) as (H1 & H2 & H3); try assumption.
      { apply keeps_initGeoIPReaderAsync. repeat split. }
      split; [exact H1|]. split; [exact H3|exact H2].
Qed.

(** C7.  While the resolver holds no reader and the chunks directory has a
    manifest, [initGeoIPReader] throws the "not preloaded" error and
    changes nothing: no file is read and nothing is gunzipped.  The
    blocking resolver built on it then leaves the state as it is, and for
    an address that is not cached it answers [null]. *)
Theorem initGeoIPReader_not_preloaded s :
  geoIPReader s = None ->
  hasChunkedDatabase w (path_join (basePath w) "chunks") = true ->
  initGeoIPReader w s = (Err NotPreloaded, s)
  /\ forall ip,
       snd (getCountryCodeFromIP w ip s) = s
       /\ (no_address ip = false ->
           Map_has ip (ipCountryCache s) = false ->
           getCountryCodeFromIP w ip s = (Ok None, s)).
Proof.
  intros Hnone Hchunked.
  assert (Hinit : initGeoIPReader w s = (Err NotPreloaded, s)).
  { unfold initGeoIPReader, bind at 1, read at 1. rewrite Hnone.
    unfold try_catch, bind at 1, lift at 1, detectDatabaseType.
    rewrite Hchunked. cbn [chunked]. unfold bind, read. rewrite Hnone.
    reflexivity. }
  split; [exact Hinit|]. intros ip.
  rewrite getCountryCodeFromIP_resolve, resolve_with_cases, Hinit.
  split.
  - destruct (no_address ip), (Map_has ip (ipCountryCache s)); reflexivity.
  - intros -> ->. reflexivity.
Qed.

(** C8.  Neither resolver ever throws: in every state and for every
    address the outcome is a value.  For an address that passes the first
    test and is not cached, an exception raised while obtaining the reader
    or by the provider's [get] is caught and the answer is [null]. *)
Theorem lookup_never_throws s ip :
  (exists v s', getCountryCodeFromIP w ip s = (Ok v, s'))
  /\ (exists v s', getCountryCodeFromIPAsync w ip s = (Ok v, s'))
  /\ (no_address ip = false ->
      Map_has ip (ipCountryCache s) = false ->
      (forall e s1,
         initGeoIPReader w s = (Err e, s1) ->
         getCountryCodeFromIP w ip s = (Ok None, s1))
      /\ (forall reader s1 e,
            initGeoIPReader w s = (Ok reader, s1) ->
            Reader_get w (reader_buffer reader) ip = Err e ->
            getCountryCodeFromIP w ip s = (Ok None, count_query s1))
      /\ (forall e s1,
            initGeoIPReaderAsync w s = (Err e, s1) ->
            getCountryCodeFromIPAsync w ip s = (Ok None, s1))
      /\ (forall reader s1 e,
            initGeoIPReaderAsync w s = (Ok reader, s1) ->
            Reader_get w (reader_buffer reader) ip = Err e ->
            getCountryCodeFromIPAsync w ip s = (Ok None, count_query s1))).
Proof.
  assert (Hvalue : forall init,
             exists v s', resolve_with w init ip s = (Ok v, s')).
  { intros init. rewrite resolve_with_cases.
    destruct (no_address ip); [eauto|].
    destruct (Map_has ip (ipCountryCache s)); [eauto|].
    destruct (init s) as [[reader|e] s1]; [|eauto].
    destruct (Reader_get w (reader_buffer reader) ip); eauto. }
  split; [apply Hvalue|]. split; [apply Hvalue|].
  intros Hip Hmiss.
  rewrite getCountryCodeFromIP_resolve, getCountryCodeFromIPAsync_resolve,
    !resolve_with_cases, Hip, Hmiss.
  repeat split.
  - intros e s1 ->. reflexivity.
  - intros reader s1 e -> ->. reflexivity.
  - intros e s1 ->. reflexivity.
  - intros reader s1 e -> ->. reflexivity.
Qed.

(** C10.  When a lookup of an address that is not cached fails, while
    obtaining the reader or in the provider's [get], the answer is [null]
    and the cache is what it was.  While the provider keeps failing for
    the address, each further lookup asks the provider again: after [n]
    more lookups the cache is still unchanged and the provider has been
    queried [n] more times. *)
Theorem failed_lookup_not_cached s ip :
  no_address ip = false ->
  Map_has ip (ipCountryCache s) = false ->
  (forall e s1,
     (initGeoIPReader w s = (Err e, s1) ->
      getCountryCodeFromIP w ip s = (Ok None, s1)
      /\ ipCountryCache s1 = ipCountryCache s)
     /\ (initGeoIPReaderAsync w s = (Err e, s1) ->
         getCountryCodeFromIPAsync w ip s = (Ok None, s1)
         /\ ipCountryCache s1 = ipCountryCache s))
  /\ (forall reader s1 e,
        Reader_get w (reader_buffer reader) ip = Err e ->
        (initGeoIPReader w s = (Ok reader, s1) ->
         let s' := snd (getCountryCodeFromIP w ip s) in
         getCountryCodeFromIP w ip s = (Ok None, s')
         /\ forall n,
              let sn := repeated (getCountryCodeFromIP w) ip n s' in
              ipCountryCache sn = ipCountryCache s
              /\ provider_queries sn = n + S (provider_queries s)
              /\ fst (getCountryCodeFromIP w ip sn) = Ok None)
        /\ (initGeoIPReaderAsync w s = (Ok reader, s1) ->
            let s' := snd (getCountryCodeFromIPAsync w ip s) in
            getCountryCodeFromIPAsync w ip s = (Ok None, s')
            /\ forall n,
                 let sn := repeated (getCountryCodeFromIPAsync w) ip n s' in
                 ipCountryCache sn = ipCountryCache s
                 /\ provider_queries sn = n + S (provider_queries s)
                 /\ fst (getCountryCodeFromIPAsync w ip sn) = Ok None)).
Proof.
  intros Hip Hmiss.
  assert (Hgen : forall init,
             keeps ipCountryCache init -> keeps provider_queries init ->
             (forall s1 reader, init s = (Ok reader, s1) ->
                                stable init reader s1) ->
             forall reader s1 e,
               Reader_get w (reader_buffer reader) ip = Err e ->
               init s = (Ok reader, s1) ->
               let s' := snd (resolve_with w init ip s) in
               resolve_with w init ip s = (Ok None, s')
               /\ forall n,
                    let sn := repeated (resolve_with w init) ip n s' in
                    ipCountryCache sn = ipCountryCache s
                    /\ provider_queries sn = n + S (provider_queries s)
                    /\ fst (resolve_with w init ip sn) = Ok None).
  { intros init Hc Hq Hstable reader s1 e Hget Hinit s'.
    destruct (resolve_with_failed w init ip s Hc Hip Hmiss) as [_ Hfail].
    destruct (Hfail reader s1 e Hinit Hget) as [Hfirst Hcache].
    unfold s'. rewrite Hfirst. cbn [snd]. split; [reflexivity|].
    intros n.
    destruct (resolve_with_retries w init ip (count_query s1) reader e)
      with (n := n) as [Hrep Hnull]; try assumption.
    { apply stable_count_query, (Hstable _ _ Hinit). }
    { rewrite Hcache. exact Hmiss. }
    rewrite Hrep.
    rewrite ipCountryCache_iter, provider_queries_iter.
    specialize (Hq s). rewrite Hinit in Hq. cbn in Hq.
    cbn [provider_queries count_query]. rewrite Hq.
    split; [exact Hcache|]. split; [reflexivity|].
    rewrite <- Hrep. exact Hnull. }
  assert (Hsync : keeps ipCountryCache (initGeoIPReader w))
    by (apply keeps_initGeoIPReader; repeat split).
  assert (Hasync : keeps ipCountryCache (initGeoIPReaderAsync w))
    by (apply keeps_initGeoIPReaderAsync; repeat split).
  split.
  - intros e s1. split; intros Hinit.
    + exact (proj1 (resolve_with_failed w _ ip s Hsync Hip Hmiss) e s1 Hinit).
    + exact (proj1 (resolve_with_failed w _ ip s Hasync Hip Hmiss) e s1 Hinit).
  - intros reader s1 e Hget. split; intros Hinit.
    + apply (Hgen (initGeoIPReader w)) with (reader := reader) (s1 := s1)
                                              (e := e);
        try assumption;
        try (apply keeps_initGeoIPReader; repeat split).
      intros s2 r Hr. exact (initGeoIPReader_stable w s r s2 Hr).
    + apply (Hgen (initGeoIPReaderAsync w)) with (reader := reader) (s1 := s1)
                                                   (e := e);
        try assumption;
        try (apply keeps_initGeoIPReaderAsync; repeat split).
      intros s2 r Hr. exact (initGeoIPReaderAsync_stable w s r s2 Hr).
Qed.

End LookupClaims.

(** ** The preload coordinator *)

Section Preload.

Variable w : World.

(** C9.  After any run, [preloadGeoIPDatabase] returns normally: its
    promise is fulfilled, never rejected.  When the load it starts throws
    (a missing chunk, a size mismatch, ...), the exception is written to
    the console as the preload failure, [isPreloaded] stays false and the
    call still returns normally. *)
Theorem preloadGeoIPDatabase_never_rejects :
  (forall ops, fst (preloadGeoIPDatabase w (run w ops)) = Ok tt)
  /\ (forall s e s1,
        isPreloaded s = false ->
        preloadPromise s = None ->
        hasChunkedDatabase w (preload_chunksDir w) = true ->
        loadGeoIPFromChunks w (preload_chunksDir w) (log LogPreloading s)
        = (Err e, s1) ->
        preloadGeoIPDatabase w s
        = (Ok tt, set_preloadPromise None (log (LogPreloadFailed e) s1))
        /\ isPreloaded (snd (preloadGeoIPDatabase w s)) = false).
Proof.
  split.
  - intros ops. destruct (run_Inv w ops) as (_ & _ & Hsettled).
    unfold preloadGeoIPDatabase, bind at 1, read at 1.
    destruct (isPreloaded (run w ops)); [reflexivity|].
    unfold bind at 1, read at 1.
    destruct Hsettled as [-> | ->].
    + pose proof (preload_task_fulfilled w (run w ops)) as Hr.
      destruct (preload_task w (run w ops)) as [r s1]. exact Hr.
    + reflexivity.
  - intros s e s1 Hpre Hpending Hchunked Hload.
    assert (Hcall : preloadGeoIPDatabase w s
                    = (Ok tt,
                       set_preloadPromise None
                         (log (LogPreloadFailed e) s1))).
    { unfold preloadGeoIPDatabase, bind at 1, read at 1. rewrite Hpre.
      unfold bind at 1, read at 1. rewrite Hpending.
      unfold preload_task, try_finally, try_catch. rewrite Hchunked.
      unfold bind at 1, write at 1, bind at 1. rewrite Hload.
      reflexivity. }
    split; [exact Hcall|]. rewrite Hcall. cbn.
    rewrite <- Hpre.
    pose proof (keeps_loadGeoIPFromChunks w isPreloaded (preload_chunksDir w))
      as Hk.
    specialize (Hk ltac:(repeat split) (log LogPreloading s)).
    rewrite Hload in Hk. exact Hk.
Qed.

End Preload.

Lemma cached_lookup_skips_provider_witness :
  let s2 := snd (getCountryCodeFromIP Sample.monolithic "203.0.113.1"
                   initial_state) in
  getCountryCodeFromIP Sample.monolithic "203.0.113.1" s2 = (Ok None, s2)
  /\ provider_queries s2 = 1.
Proof.
  pose proof (proj1 (proj2 (cached_lookup_skips_provider Sample.monolithic)
                      initial_state "203.0.113.1" (mkReader [Byte.x00])
                      (set_databaseType maxmind
                         (set_geoIPReader (Some (mkReader [Byte.x00]))
                            initial_state))
                      None eq_refl eq_refl eq_refl) eq_refl) as (_ & H2 & H3).
  split; [exact H2|exact H3].
Defined.

Lemma initGeoIPReader_not_preloaded_witness :
  initGeoIPReader Sample.chunked initial_state
  = (Err NotPreloaded, initial_state).
Proof.
  exact (proj1 (initGeoIPReader_not_preloaded Sample.chunked initial_state
                  eq_refl eq_refl)).
Defined.

Lemma lookup_never_throws_witness :
  getCountryCodeFromIP Sample.empty "8.8.8.8" initial_state
  = (Ok None, initial_state).
Proof.
  exact (proj1 (proj2 (proj2 (lookup_never_throws Sample.empty initial_state
                                "8.8.8.8")) eq_refl eq_refl)
           NoDatabaseFound initial_state eq_refl).
Defined.

Lemma failed_lookup_not_cached_witness :
  let s3 := repeated (getCountryCodeFromIP Sample.monolithic) "192.0.2.7" 2
              (snd (getCountryCodeFromIP Sample.monolithic "192.0.2.7"
                      initial_state)) in
  ipCountryCache s3 = [] /\ provider_queries s3 = 3.
Proof.
  pose proof (proj1 (proj2 (failed_lookup_not_cached Sample.monolithic
                              initial_state "192.0.2.7" eq_refl eq_refl)
                      (mkReader [Byte.x00])
                      (set_databaseType maxmind
                         (set_geoIPReader (Some (mkReader [Byte.x00]))
                            initial_state))
                      (ExternalError "bad record") eq_refl) eq_refl)
    as (_ & H).
  destruct (H 2) as (Hcache & Hqueries & _).
  split; [exact Hcache|exact Hqueries].
Defined.

Lemma preloadGeoIPDatabase_never_rejects_witness :
  preloadGeoIPDatabase Sample.corrupted initial_state
  = (Ok tt,
     set_preloadPromise None
       (log (LogPreloadFailed (ChunkSizeMismatch 1 1 2))
          (add_gunzip_calls 2 (log LogPreloading initial_state)))).
Proof.
  exact (proj1 (proj2 (preloadGeoIPDatabase_never_rejects Sample.corrupted)
                  initial_state (ChunkSizeMismatch 1 1 2)
                  (add_gunzip_calls 2 (log LogPreloading initial_state))
                  eq_refl eq_refl eq_refl eq_refl)).
Defined.

(** ** The scenarios of the specification, run *)

(** The stub provider of the specification, over a monolithic database. *)
Example resolve_stub_provider :
  fst (getCountryCodeFromIP Sample.monolithic "8.8.8.8" initial_state)
  = Ok (Some "US")
  /\ fst (getCountryCodeFromIP Sample.monolithic "1.1.1.1" initial_state)
     = Ok (Some "AU")
  /\ getCountryCodeFromIP Sample.monolithic "" initial_state
     = (Ok None, initial_state)
  /\ getCountryCodeFromIP Sample.monolithic "::" initial_state
     = (Ok None, initial_state).
Proof. repeat split. Qed.

(** Two chunks of 2 and 1 bytes and a [totalSize] of 3: one buffer of 3
    bytes, one pass of two [gunzipSync] calls, and a second call that
    returns the cached reader. *)
Example load_two_chunks :
  run Sample.chunked [OpLoad Sample.dir; OpLoad Sample.dir]
  = set_cachedBuffer (Some [Byte.x41; Byte.x42; Byte.x43])
      (set_cachedReader (Some (mkReader [Byte.x41; Byte.x42; Byte.x43]))
         (add_gunzip_calls 2 initial_state)).
Proof. reflexivity. Qed.

(** A preload fills the reader of the chunk loader; the resolver adopts it
    in its first non-blocking lookup, and blocking lookups are served from
    then on. *)
Example preload_then_lookups :
  let preloaded := run Sample.chunked [OpPreload] in
  isPreloaded preloaded = true
  /\ gunzip_calls preloaded = 2
  /\ fst (getCountryCodeFromIP Sample.chunked "8.8.8.8" preloaded) = Ok None
  /\ fst (getCountryCodeFromIPAsync Sample.chunked "8.8.8.8" preloaded)
     = Ok (Some "US")
  /\ fst (getCountryCodeFromIP Sample.chunked "1.1.1.1"
            (run Sample.chunked [OpPreload; OpLookupAsync "8.8.8.8"]))
     = Ok (Some "AU")
  /\ gunzip_calls (run Sample.chunked [OpPreload; OpLookupAsync "8.8.8.8";
                                       OpLookup "1.1.1.1"]) = 2.
Proof. repeat split. Qed.

(** A preload on a corrupted directory logs and returns; nothing is
    preloaded. *)
Example preload_corrupted :
  let s := run Sample.corrupted [OpPreload] in
  console s = [LogPreloading; LogPreloadFailed (ChunkSizeMismatch 1 1 2)]
  /\ isPreloaded s = false /\ cachedReader s = None.
Proof. repeat split. Qed.

(** * Further properties *)

(** ** The chunk loader: what it checks and what it does not *)

Section LoaderEdges.

Variable w : World.

(** Intact chunks at the head of the loop are passed, one [gunzipSync]
    call each. *)
Lemma load_chunks_skip chunksDir metadata k :
  forall n i fullBuffer offset s datas,
    Forall2 (chunk_intact w chunksDir)
      (take k (drop i (chunks metadata))) datas ->
    i + k <= length (chunks metadata) ->
    exists fullBuffer',
      load_chunks w chunksDir metadata (k + n) i fullBuffer offset s
      = load_chunks w chunksDir metadata n (i + k) fullBuffer'
          (offset + length (concat datas)) (add_gunzip_calls k s).
Proof.
  induction k as [|k IH]; intros n i fullBuffer offset s datas Hall Hlen.
  - rewrite take_0 in Hall. apply Forall2_nil_inv_l in Hall. subst datas.
    exists fullBuffer. simpl.
    rewrite !Nat.add_0_r, add_gunzip_calls_0. reflexivity.
  - destruct (lookup_lt_is_Some_2 (chunks metadata) i) as [c Hc]; [lia|].
    rewrite (drop_S _ _ _ Hc), firstn_cons in Hall.
    apply Forall2_cons_inv_l in Hall as (d & datas' & Hd & Hrest & ->).
    destruct Hd as ((Hex & compressed & Hread & Hgz) & Hsize).
    destruct (IH n (S i) (Buffer_copy d fullBuffer offset)
                (offset + length d) (count_gunzip s) datas' Hrest)
      as [fullBuffer' Hskip]; [lia|].
    exists fullBuffer'. cbn [Nat.add load_chunks].
    unfold bind at 1. rewrite Hc. unfold ret at 1. rewrite Hex. cbn [negb].
    unfold bind at 1, lift at 1. rewrite Hread.
    unfold bind at 1, gunzip, bind at 1, write at 1, lift at 1. rewrite Hgz.
    rewrite Hsize, Nat.eqb_refl. cbn [negb].
    rewrite <- Hsize, Hskip, add_gunzip_calls_S. simpl concat.
    rewrite length_app, Nat.add_assoc, <- Nat.add_succ_comm. reflexivity.
Qed.

(** X1.  A load that finds no cached reader and no manifest throws
    "Metadata file not found" with the path it looked at and changes
    nothing.  When the manifest is there and the first chunk that is not
    intact is chunk [i], whose file is missing, the load throws "Chunk
    file not found" with the path of that file, after one [gunzipSync]
    call per chunk before it; neither a reader nor a buffer is cached. *)
Theorem loadGeoIPFromChunks_missing_file chunksDir s :
  cachedReader s = None ->
  (hasChunkedDatabase w chunksDir = false ->
   loadGeoIPFromChunks w chunksDir s
   = (Err (MetadataNotFound (path_join chunksDir "metadata.json")), s))
  /\ (forall metadata datas i c,
        manifest_reads_as w chunksDir metadata ->
        i < numChunks metadata ->
        Forall2 (chunk_intact w chunksDir) (take i (chunks metadata)) datas ->
        chunks metadata !! i = Some c ->
        existsSync w (path_join chunksDir (filename c)) = false ->
        loadGeoIPFromChunks w chunksDir s
        = (Err (ChunkNotFound (path_join chunksDir (filename c))),
           add_gunzip_calls i s)).
Proof.
  intros Hnone. split.
  - unfold hasChunkedDatabase. intros Hmissing.
    unfold loadGeoIPFromChunks, bind, read. rewrite Hnone, Hmissing.
    reflexivity.
  - intros metadata datas i c (Hex & text & Hread & Hparse) Hi Hall Hc Hmissing.
    unfold loadGeoIPFromChunks, bind at 1, read at 1. rewrite Hnone, Hex.
    cbn [negb]. unfold bind at 1, lift at 1. rewrite Hread.
    unfold bind at 1, lift at 1. rewrite Hparse. unfold bind at 1.
    replace (numChunks metadata) with (i + S (numChunks metadata - S i))
      by lia.
    destruct (load_chunks_skip chunksDir metadata i
                (S (numChunks metadata - S i)) 0
                (allocUnsafe w (totalSize metadata)) 0 s datas)
      as [fullBuffer' ->].
    + rewrite drop_0. exact Hall.
    + apply lookup_lt_Some in Hc. lia.
    + cbn [load_chunks Nat.add]. unfold bind at 1. rewrite Hc.
      unfold ret at 1. rewrite Hmissing. reflexivity.
Qed.

(** X2.  The loop runs [numChunks] times whatever the length of [chunks]:
    when all entries of [chunks] are intact but [numChunks] is larger than
    their number, the load reads all of them and then throws a
    [TypeError] (the entry after the last is [undefined]); nothing is
    cached. *)
Theorem loadGeoIPFromChunks_numChunks_too_large chunksDir s metadata datas :
  cachedReader s = None ->
  manifest_reads_as w chunksDir metadata ->
  Forall2 (chunk_intact w chunksDir) (chunks metadata) datas ->
  length (chunks metadata) < numChunks metadata ->
  loadGeoIPFromChunks w chunksDir s
  = (Err TypeError, add_gunzip_calls (length (chunks metadata)) s).
Proof.
  intros Hnone (Hex & text & Hread & Hparse) Hall Hlen.
  unfold loadGeoIPFromChunks, bind at 1, read at 1. rewrite Hnone, Hex.
  cbn [negb]. unfold bind at 1, lift at 1. rewrite Hread.
  unfold bind at 1, lift at 1. rewrite Hparse. unfold bind at 1.
  set (k := length (chunks metadata)) in *.
  replace (numChunks metadata) with (k + S (numChunks metadata - S k)) by lia.
  destruct (load_chunks_skip chunksDir metadata k
              (S (numChunks metadata - S k)) 0
              (allocUnsafe w (totalSize metadata)) 0 s datas)
    as [fullBuffer' ->].
  - rewrite drop_0. unfold k. rewrite firstn_all. exact Hall.
  - unfold k. lia.
  - cbn [load_chunks Nat.add]. unfold bind at 1.
    rewrite (lookup_ge_None_2 (chunks metadata) k) by (unfold k; lia).
    reflexivity.
Qed.

End LoaderEdges.

Lemma loadGeoIPFromChunks_missing_file_witness :
  loadGeoIPFromChunks Sample.empty Sample.dir initial_state
  = (Err (MetadataNotFound "/app/lib/maxmind-db/chunks/metadata.json"),
     initial_state).
Proof.
  exact (proj1 (loadGeoIPFromChunks_missing_file Sample.empty Sample.dir
                  initial_state eq_refl) eq_refl).
Defined.

Lemma loadGeoIPFromChunks_numChunks_too_large_witness :
  loadGeoIPFromChunks Cases.one_too_many Sample.dir initial_state
  = (Err TypeError, add_gunzip_calls 2 initial_state).
Proof.
  refine (loadGeoIPFromChunks_numChunks_too_large Cases.one_too_many
            Sample.dir initial_state
            (Cases.manifest_of 3 3 (chunks Sample.manifest))
            [[Byte.x41; Byte.x42]; [Byte.x43]] eq_refl _ _ _).
  - split; [reflexivity|]. exists [Byte.x7b]. split; reflexivity.
  - repeat constructor.
    + exists [Byte.x1f; Byte.x00]. split; reflexivity.
    + exists [Byte.x1f; Byte.x01]. split; reflexivity.
  - simpl. lia.
Defined.

Section LoaderBuffer.

Variable w : World.

Lemma take_take_app {A} n (l k : list A) :
  take n (take n l ++ k) = take n (l ++ k).
Proof.
  destruct (Nat.le_gt_cases (length l) n) as [Hle|Hgt].
  - rewrite (take_ge l) by exact Hle. reflexivity.
  - rewrite !take_app_le by (rewrite ?length_take; lia).
    rewrite take_take, Nat.min_id. reflexivity.
Qed.

(** Where [copy] has written, and how far: whatever does not fit is
    dropped. *)
Lemma take_Buffer_copy_cut source target off :
  take (off + length source) (Buffer_copy source target off)
  = take (length target) (take off target ++ source).
Proof.
  destruct (Nat.le_gt_cases (off + length source) (length target)) as [Hfit|Hcut].
  - rewrite take_Buffer_copy by exact Hfit.
    rewrite (take_ge (take off target ++ source))
      by (rewrite length_app, length_take; lia).
    reflexivity.
  - rewrite take_ge by (rewrite length_Buffer_copy; lia).
    unfold Buffer_copy. rewrite (drop_ge target) by lia.
    rewrite app_nil_r, take_app, length_take.
    destruct (Nat.le_gt_cases (length target) off) as [Hout|Hin].
    + rewrite (take_ge target off) by exact Hout.
      rewrite (take_ge target) by lia.
      replace (length target - off) with 0 by lia.
      replace (length target - off `min` length target) with 0 by lia.
      reflexivity.
    + rewrite Nat.min_l by lia.
      rewrite (take_ge (take off target)) by (rewrite length_take; lia).
      reflexivity.
Qed.

Lemma drop_Buffer_copy_cut source target off k :
  drop (off + length source + k) (Buffer_copy source target off)
  = drop (off + length source + k) target.
Proof.
  destruct (Nat.le_gt_cases (off + length source) (length target)) as [Hfit|Hcut].
  - apply drop_Buffer_copy. exact Hfit.
  - rewrite !drop_ge by (rewrite ?length_Buffer_copy; lia). reflexivity.
Qed.

(** The loop over intact chunks, whatever the size of the buffer. *)
Lemma load_chunks_cut chunksDir metadata n :
  forall i fullBuffer offset s datas,
    Forall2 (chunk_intact w chunksDir)
      (take n (drop i (chunks metadata))) datas ->
    i + n <= length (chunks metadata) ->
    load_chunks w chunksDir metadata n i fullBuffer offset s
    = (Ok (take (length fullBuffer) (take offset fullBuffer ++ concat datas)
             ++ drop (offset + length (concat datas)) fullBuffer),
       add_gunzip_calls n s).
Proof.
  induction n as [|n IH]; intros i fullBuffer offset s datas Hall Hlen.
  - rewrite take_0 in Hall. apply Forall2_nil_inv_l in Hall. subst datas.
    simpl. rewrite app_nil_r, Nat.add_0_r, add_gunzip_calls_0.
    rewrite take_take.
    destruct (Nat.le_gt_cases offset (length fullBuffer)).
    + rewrite Nat.min_r by lia. rewrite take_drop. reflexivity.
    + rewrite Nat.min_l, take_ge, drop_ge, app_nil_r by lia. reflexivity.
  - destruct (lookup_lt_is_Some_2 (chunks metadata) i) as [c Hc]; [lia|].
    rewrite (drop_S _ _ _ Hc), firstn_cons in Hall.
    apply Forall2_cons_inv_l in Hall as (d & datas' & Hd & Hrest & ->).
    destruct Hd as ((Hex & compressed & Hread & Hgz) & Hsize).
    simpl concat. cbn [load_chunks]. unfold bind at 1. rewrite Hc.
    unfold ret at 1. rewrite Hex. cbn [negb].
    unfold bind at 1, lift at 1. rewrite Hread.
    unfold bind at 1, gunzip, bind at 1, write at 1, lift at 1. rewrite Hgz.
    rewrite Hsize, Nat.eqb_refl. cbn [negb].
    rewrite (IH (S i) _ _ _ datas' Hrest) by lia.
    rewrite add_gunzip_calls_S, length_Buffer_copy. f_equal. f_equal.
    rewrite <- Hsize, take_Buffer_copy_cut, drop_Buffer_copy_cut.
    rewrite take_take_app, length_app, <- !app_assoc, Nat.add_assoc.
    reflexivity.
Qed.

(** X3.  The loader checks the size of every chunk but neither the [index]
    fields nor the sum of the sizes against [totalSize].  With [numChunks]
    entries, all intact, a load that finds no cached reader builds its
    reader on a buffer of exactly [totalSize] bytes that holds the
    gunzipped chunks in the order of the array: all of them when the sizes
    add up to [totalSize], only their first [totalSize] bytes when they add
    up to more, and followed by the bytes that [Buffer.allocUnsafe] left
    there when they add up to less.  No exception reports the difference. *)
Theorem loadGeoIPFromChunks_unchecked_totalSize chunksDir s metadata datas :
  cachedReader s = None ->
  manifest_reads_as w chunksDir metadata ->
  numChunks metadata = length (chunks metadata) ->
  Forall2 (chunk_intact w chunksDir) (chunks metadata) datas ->
  let written := concat datas in
  let buffer :=
    take (totalSize metadata) written
      ++ drop (length written) (allocUnsafe w (totalSize metadata)) in
  length buffer = totalSize metadata
  /\ (length written = totalSize metadata -> buffer = written)
  /\ (totalSize metadata < length written ->
      buffer = take (totalSize metadata) written)
  /\ loadGeoIPFromChunks w chunksDir s
     = match Reader_check w buffer with
       | None =>
           (Ok (mkReader buffer),
            set_cachedBuffer (Some buffer)
              (set_cachedReader (Some (mkReader buffer))
                 (add_gunzip_calls (numChunks metadata) s)))
       | Some e => (Err e, add_gunzip_calls (numChunks metadata) s)
       end.
Proof.
  intros Hnone (Hex & text & Hread & Hparse) Hnum Hall written buffer.
  split; [|split; [|split]].
  - unfold buffer.
    rewrite length_app, length_take, length_drop, length_allocUnsafe. lia.
  - intros Hsum. unfold buffer.
    rewrite take_ge, drop_ge, app_nil_r
      by (rewrite ?length_allocUnsafe; lia).
    reflexivity.
  - intros Hmore. unfold buffer.
    rewrite drop_ge, app_nil_r by (rewrite length_allocUnsafe; lia).
    reflexivity.
  - unfold loadGeoIPFromChunks, bind at 1, read at 1. rewrite Hnone, Hex.
    cbn [negb]. unfold bind at 1, lift at 1. rewrite Hread.
    unfold bind at 1, lift at 1. rewrite Hparse. unfold bind at 1.
    rewrite (load_chunks_cut chunksDir metadata _ 0 _ 0 s datas).
    + rewrite take_0, Nat.add_0_l, app_nil_l, length_allocUnsafe.
      fold written. fold buffer.
      unfold bind at 1, new_Reader.
      destruct (Reader_check w buffer) as [e|]; reflexivity.
    + rewrite drop_0, Hnum, firstn_all. exact Hall.
    + lia.
Qed.

End LoaderBuffer.

Lemma loadGeoIPFromChunks_unchecked_totalSize_witness :
  fst (loadGeoIPFromChunks Cases.too_small Sample.dir initial_state)
  = Ok (mkReader [Byte.x41; Byte.x42])
  /\ fst (loadGeoIPFromChunks Cases.too_large Sample.dir initial_state)
     = Ok (mkReader [Byte.x41; Byte.x42; Byte.x43; Byte.xff; Byte.xff])
  /\ fst (loadGeoIPFromChunks Cases.indices_swapped Sample.dir initial_state)
     = Ok (mkReader [Byte.x41; Byte.x42; Byte.x43]).
Proof.
  assert (Hfiles : forall metadata,
             chunks metadata = chunks Sample.manifest ->
             Forall2 (chunk_intact (Cases.with_manifest metadata Sample.chunked)
                        Sample.dir)
               (chunks metadata) [[Byte.x41; Byte.x42]; [Byte.x43]]).
  { intros metadata ->. repeat constructor.
    - exists [Byte.x1f; Byte.x00]. split; reflexivity.
    - exists [Byte.x1f; Byte.x01]. split; reflexivity. }
  split; [|split].
  - rewrite (proj2 (proj2 (proj2
               (loadGeoIPFromChunks_unchecked_totalSize Cases.too_small
                  Sample.dir initial_state _ _ eq_refl
                  (conj eq_refl (ex_intro _ [Byte.x7b] (conj eq_refl eq_refl)))
                  eq_refl (Hfiles _ eq_refl))))).
    reflexivity.
  - rewrite (proj2 (proj2 (proj2
               (loadGeoIPFromChunks_unchecked_totalSize Cases.too_large
                  Sample.dir initial_state _ _ eq_refl
                  (conj eq_refl (ex_intro _ [Byte.x7b] (conj eq_refl eq_refl)))
                  eq_refl (Hfiles _ eq_refl))))).
    reflexivity.
  - reflexivity.
Defined.

(** ** Clearing the chunk cache *)

Section LoaderReload.

Variable w : World.


End LoaderReload.


(** ** Preloading, and who profits from it *)

Section PreloadEdges.

Lemma keeps_preloadGeoIPDatabase_blind w {B} (f : State -> B) :
  preload_blind f -> keeps f (preloadGeoIPDatabase w).
Proof.
  intros (Hl & Hlog & Hpre & Hpromise).
  pose proof (fun d => keeps_loadGeoIPFromChunks w f d Hl) as Hload.
  assert (Htask : keeps f (preload_task w))
    by (unfold preload_task; keeps_auto).
  unfold preloadGeoIPDatabase. keeps_auto.
  intros s. specialize (Htask s). destruct (preload_task w s) as [r s1].
  simpl in *. destruct (hasChunkedDatabase w _); rewrite ?Hpromise;
    exact Htask.
Qed.

Lemma loadGeoIPFromChunks_Ok_cached w chunksDir s reader s1 :
  loadGeoIPFromChunks w chunksDir s = (Ok reader, s1) ->
  cachedReader s1 = Some reader.
Proof.
  destruct (cachedReader s) as [cached|] eqn:Hcached.
  - rewrite (loadGeoIPFromChunks_cached w chunksDir s cached Hcached).
    intros [= <- <-]. exact Hcached.
  - intros Hload.
    exact (proj1 (loadGeoIPFromChunks_success w _ _ _ _ Hcached Hload)).
Qed.

(** X5.  A preload that finds no chunks directory is never tried again.
    Its task ends, [finally] block included, before its promise is stored
    in [preloadPromise], so the fulfilled promise stays there with
    [isPreloaded] false.  Every later call, even with a chunks directory
    on the disk by then, only logs that it waits and returns that promise:
    it reads no file and gunzips nothing. *)
Theorem preloadGeoIPDatabase_not_retried w1 w2 s :
  isPreloaded s = false ->
  preloadPromise s = None ->
  hasChunkedDatabase w1 (preload_chunksDir w1) = false ->
  let s1 := snd (preloadGeoIPDatabase w1 s) in
  preloadGeoIPDatabase w1 s = (Ok tt, s1)
  /\ s1 = set_preloadPromise (Some (Ok tt)) (log LogNoChunkedDatabase s)
  /\ forall n,
       let sn := Nat.iter n (fun s => snd (preloadGeoIPDatabase w2 s)) s1 in
       preloadGeoIPDatabase w2 sn = (Ok tt, log LogWaitingForPreload sn)
       /\ isPreloaded sn = false
       /\ cachedReader sn = cachedReader s
       /\ gunzip_calls sn = gunzip_calls s.
Proof.
  intros Hpre Hpending Hnone.
  assert (Hfirst : preloadGeoIPDatabase w1 s
                   = (Ok tt, set_preloadPromise (Some (Ok tt))
                               (log LogNoChunkedDatabase s))).
  { unfold preloadGeoIPDatabase, bind at 1, read at 1. rewrite Hpre.
    unfold bind at 1, read at 1. rewrite Hpending.
    unfold preload_task, try_finally, try_catch. rewrite Hnone.
    reflexivity. }
  rewrite Hfirst. cbn [snd]. split; [reflexivity|]. split; [reflexivity|].
  assert (Hwait : forall x,
             isPreloaded x = false -> preloadPromise x = Some (Ok tt) ->
             preloadGeoIPDatabase w2 x = (Ok tt, log LogWaitingForPreload x)).
  { intros x Hx Hp. unfold preloadGeoIPDatabase, bind at 1, read at 1.
    rewrite Hx. unfold bind at 1, read at 1. rewrite Hp. reflexivity. }
  assert (Hiter : forall n,
             let sn := Nat.iter n (fun s => snd (preloadGeoIPDatabase w2 s))
                         (set_preloadPromise (Some (Ok tt))
                            (log LogNoChunkedDatabase s)) in
             isPreloaded sn = false /\ preloadPromise sn = Some (Ok tt)
             /\ cachedReader sn = cachedReader s
             /\ gunzip_calls sn = gunzip_calls s).
  { induction n as [|n IH]; cbv zeta.
    - repeat split. exact Hpre.
    - cbv zeta in IH. destruct IH as (Hx & Hp & Hr & Hg).
      rewrite Nat.iter_succ, (Hwait _ Hx Hp). cbn [snd].
      repeat split; assumption. }
  intros n. destruct (Hiter n) as (Hx & Hp & Hr & Hg).
  split; [exact (Hwait _ Hx Hp)|]. repeat split; assumption.
Qed.

(** X6.  A preload whose load succeeds caches the reader in the chunk
    loader, sets [isPreloaded] and leaves [preloadPromise] empty; every
    later preload, in whatever state the disk is then, only logs that the
    database is already preloaded. *)
Theorem preloadGeoIPDatabase_once w s reader s1 :
  isPreloaded s = false ->
  preloadPromise s = None ->
  hasChunkedDatabase w (preload_chunksDir w) = true ->
  loadGeoIPFromChunks w (preload_chunksDir w) (log LogPreloading s)
  = (Ok reader, s1) ->
  let s2 := snd (preloadGeoIPDatabase w s) in
  s2 = set_preloadPromise None
         (set_isPreloaded true (log LogUsingChunked (log LogPreloaded s1)))
  /\ cachedReader s2 = Some reader
  /\ forall w', preloadGeoIPDatabase w' s2
                = (Ok tt, log LogAlreadyPreloaded s2).
Proof.
  intros Hpre Hpending Hchunked Hload.
  assert (Hcall : preloadGeoIPDatabase w s
                  = (Ok tt,
                     set_preloadPromise None
                       (set_isPreloaded true
                          (log LogUsingChunked (log LogPreloaded s1))))).
  { unfold preloadGeoIPDatabase, bind at 1, read at 1. rewrite Hpre.
    unfold bind at 1, read at 1. rewrite Hpending.
    unfold preload_task, try_finally, try_catch. rewrite Hchunked.
    unfold bind at 1, write at 1, bind at 1. rewrite Hload.
    reflexivity. }
  rewrite Hcall. cbn [snd]. split; [reflexivity|]. split.
  - cbn. exact (loadGeoIPFromChunks_Ok_cached _ _ _ _ _ Hload).
  - intros w'. reflexivity.
Qed.

(** X7.  The first non-blocking initialisation after a preload adopts the
    preloaded reader: with a reader cached in the chunk loader and a
    manifest on the disk, [initGeoIPReaderAsync] returns that very reader
    without a single [gunzipSync] call, makes it the reader of the resolver
    with the format [maxmind], and leaves [isInitializing] false; from then
    on the blocking [initGeoIPReader] returns it too. *)
Theorem initGeoIPReaderAsync_adopts w s reader :
  geoIPReader s = None ->
  isInitializing s = false ->
  cachedReader s = Some reader ->
  hasChunkedDatabase w (path_join (basePath w) "chunks") = true ->
  let s1 := snd (initGeoIPReaderAsync w s) in
  initGeoIPReaderAsync w s = (Ok reader, s1)
  /\ geoIPReader s1 = Some reader
  /\ databaseType s1 = maxmind
  /\ isInitializing s1 = false
  /\ gunzip_calls s1 = gunzip_calls s
  /\ ipCountryCache s1 = ipCountryCache s
  /\ initGeoIPReader w s1 = (Ok reader, s1).
Proof.
  intros Hnone Hinit Hcached Hchunked.
  assert (Hcall : initGeoIPReaderAsync w s
                  = (Ok reader,
                     set_initPromise (Some (Ok reader))
                       (set_isInitializing false
                          (set_databaseType maxmind
                             (set_geoIPReader (Some reader)
                                (set_isInitializing true s)))))).
  { unfold initGeoIPReaderAsync, bind at 1, read at 1. rewrite Hnone.
    unfold bind at 1, read at 1, bind at 1, read at 1. rewrite Hinit.
    unfold bind at 1, write at 1.
    unfold init_task, try_catch, bind at 1, lift at 1, detectDatabaseType.
    rewrite Hchunked. cbn [chunked path type]. unfold bind at 1.
    rewrite (loadGeoIPFromChunks_cached w _ _ reader)
      by (cbn; exact Hcached).
    reflexivity. }
  rewrite Hcall. cbn [snd]. repeat split.
Qed.

Lemma initGeoIPReader_cold w s :
  geoIPReader s = None ->
  hasChunkedDatabase w (path_join (basePath w) "chunks") = true ->
  initGeoIPReader w s = (Err NotPreloaded, s).
Proof.
  intros Hnone Hchunked.
  unfold initGeoIPReader, bind at 1, read at 1. rewrite Hnone.
  unfold try_catch, bind at 1, lift at 1, detectDatabaseType.
  rewrite Hchunked. cbn [chunked]. unfold bind, read. rewrite Hnone.
  reflexivity.
Qed.

Lemma getCountryCodeFromIP_cold w s ip :
  geoIPReader s = None -> ipCountryCache s = [] ->
  hasChunkedDatabase w (path_join (basePath w) "chunks") = true ->
  getCountryCodeFromIP w ip s = (Ok None, s).
Proof.
  intros Hnone Hempty Hchunked.
  rewrite getCountryCodeFromIP_resolve, resolve_with_cases, Hempty.
  rewrite (initGeoIPReader_cold w s Hnone Hchunked).
  destruct (no_address ip); reflexivity.
Qed.

Lemma getCountryCodeFromServerIPs_cold w s ipv4 ipv6 :
  geoIPReader s = None -> ipCountryCache s = [] ->
  hasChunkedDatabase w (path_join (basePath w) "chunks") = true ->
  getCountryCodeFromServerIPs w ipv4 ipv6 s = (Ok None, s).
Proof.
  intros Hnone Hempty Hchunked.
  pose proof (fun ip => getCountryCodeFromIP_cold w s ip Hnone Hempty Hchunked)
    as Hcold.
  unfold getCountryCodeFromServerIPs, bind.
  destruct ipv4 as [a|];
    [destruct (truthy a && negb (String.eqb a ""))|];
    rewrite ?Hcold; cbn [ret present];
    (destruct ipv6 as [b|];
     [destruct (truthy b && negb (String.eqb b "") && negb (String.eqb b "::"))|];
     rewrite ?Hcold; reflexivity).
Qed.

(** X8.  Preloading does not serve the blocking resolver.  With a manifest
    in the chunks directory, in a run of any operations other than
    non-blocking lookups (preloads and loads included), the resolver never
    gets a reader: every blocking lookup, and every lookup by server
    addresses, answers [null], the provider is never queried and the cache
    stays empty. *)
Theorem blocking_lookup_needs_async w ops :
  hasChunkedDatabase w (path_join (basePath w) "chunks") = true ->
  Forall not_async ops ->
  let s := run w ops in
  geoIPReader s = None
  /\ ipCountryCache s = []
  /\ provider_queries s = 0
  /\ (forall ip, getCountryCodeFromIP w ip s = (Ok None, s))
  /\ (forall ipv4 ipv6,
        getCountryCodeFromServerIPs w ipv4 ipv6 s = (Ok None, s)).
Proof.
  intros Hchunked Hops.
  assert (Hinv : geoIPReader (run w ops) = None
                 /\ ipCountryCache (run w ops) = []
                 /\ provider_queries (run w ops) = 0).
  { unfold run. induction ops as [|op ops IH] using rev_ind.
    - repeat split.
    - apply Forall_app in Hops as [Hops Hop]. apply Forall_inv in Hop.
      specialize (IH Hops). destruct IH as (Hr & Hc & Hq).
      rewrite fold_left_app. cbn [fold_left].
      set (s := fold_left (step w) ops initial_state) in *.
      destruct op; cbn [step]; try contradiction.
      + rewrite (keeps_loadGeoIPFromChunks w geoIPReader),
          (keeps_loadGeoIPFromChunks w ipCountryCache),
          (keeps_loadGeoIPFromChunks w provider_queries) by (repeat split).
        repeat split; assumption.
      + repeat split; assumption.
      + rewrite (keeps_preloadGeoIPDatabase_blind w geoIPReader),
          (keeps_preloadGeoIPDatabase_blind w ipCountryCache),
          (keeps_preloadGeoIPDatabase_blind w provider_queries)
          by (repeat split).
        repeat split; assumption.
      + rewrite (getCountryCodeFromIP_cold w s ip Hr Hc Hchunked).
        repeat split; assumption.
      + rewrite (getCountryCodeFromServerIPs_cold w s ipv4 ipv6 Hr Hc Hchunked).
        repeat split; assumption.
      + repeat split; assumption. }
  destruct Hinv as (Hr & Hc & Hq). cbv zeta.
  split; [exact Hr|]. split; [exact Hc|]. split; [exact Hq|]. split.
  - intros ip. apply getCountryCodeFromIP_cold; assumption.
  - intros ipv4 ipv6. apply getCountryCodeFromServerIPs_cold; assumption.
Qed.

End PreloadEdges.

Lemma preloadGeoIPDatabase_not_retried_witness :
  let s1 := snd (preloadGeoIPDatabase Sample.empty initial_state) in
  preloadGeoIPDatabase Sample.chunked s1
  = (Ok tt, log LogWaitingForPreload s1).
Proof.
  exact (proj1 (proj2 (proj2 (preloadGeoIPDatabase_not_retried Sample.empty
                                Sample.chunked initial_state
                                eq_refl eq_refl eq_refl)) 0)).
Defined.

Lemma preloadGeoIPDatabase_once_witness :
  cachedReader (run Sample.chunked [OpPreload])
  = Some (mkReader [Byte.x41; Byte.x42; Byte.x43]).
Proof.
  exact (proj1 (proj2 (preloadGeoIPDatabase_once Sample.chunked initial_state
                         (mkReader [Byte.x41; Byte.x42; Byte.x43])
                         (snd (loadGeoIPFromChunks Sample.chunked
                                 (preload_chunksDir Sample.chunked)
                                 (log LogPreloading initial_state)))
                         eq_refl eq_refl eq_refl eq_refl))).
Defined.

Lemma initGeoIPReaderAsync_adopts_witness :
  let s := run Sample.chunked [OpPreload] in
  gunzip_calls (snd (initGeoIPReaderAsync Sample.chunked s)) = 2
  /\ geoIPReader (snd (initGeoIPReaderAsync Sample.chunked s))
     = Some (mkReader [Byte.x41; Byte.x42; Byte.x43]).
Proof.
  destruct (initGeoIPReaderAsync_adopts Sample.chunked
              (run Sample.chunked [OpPreload])
              (mkReader [Byte.x41; Byte.x42; Byte.x43])
              eq_refl eq_refl eq_refl eq_refl)
    as (_ & Hreader & _ & _ & Hcalls & _).
  split; [exact Hcalls|exact Hreader].
Defined.

Lemma blocking_lookup_needs_async_witness :
  getCountryCodeFromIP Sample.chunked "8.8.8.8"
    (run Sample.chunked [OpPreload; OpLookup "1.1.1.1"])
  = (Ok None, run Sample.chunked [OpPreload; OpLookup "1.1.1.1"]).
Proof.
  refine (proj1 (proj2 (proj2 (proj2
            (blocking_lookup_needs_async Sample.chunked
               [OpPreload; OpLookup "1.1.1.1"] eq_refl _)))) "8.8.8.8").
  repeat constructor.
Defined.

(** ** The reader of the resolver *)

Section ResolverState.

Variable w : World.

(** What a lookup that finds the reader at hand leaves in the state. *)
Lemma resolve_with_warm init ip s reader :
  init s = (Ok reader, s) ->
  let s' := snd (resolve_with w init ip s) in
  geoIPReader s' = geoIPReader s
  /\ databaseType s' = databaseType s
  /\ isInitializing s' = isInitializing s
  /\ initPromise s' = initPromise s.
Proof.
  intros Hinit. rewrite resolve_with_cases, Hinit.
  destruct (no_address ip); [repeat split|].
  destruct (Map_has ip (ipCountryCache s)); [repeat split|].
  destruct (Reader_get w (reader_buffer reader) ip); repeat split.
Qed.

(** A property of the state that blocking lookups keep is kept by the
    lookup by server addresses. *)
Lemma getCountryCodeFromServerIPs_preserves (P : State -> Prop) :
  (forall ip s, P s -> P (snd (getCountryCodeFromIP w ip s))) ->
  forall ipv4 ipv6 s,
    P s -> P (snd (getCountryCodeFromServerIPs w ipv4 ipv6 s)).
Proof.
  intros Hlookup ipv4 ipv6 s Hs.
  unfold getCountryCodeFromServerIPs, bind at 1.
  match goal with
  | |- P (snd (match ?m s with _ => _ end)) =>
      assert (H1 : P (snd (m s)));
      [|destruct (m s) as [[fromIPv4|e] s1]; simpl in H1; [|exact H1]]
  end.
  { destruct ipv4 as [a|];
      [destruct (truthy a && negb (String.eqb a ""))|]; try exact Hs.
    apply Hlookup. exact Hs. }
  destruct (present fromIPv4) as [code|]; [exact H1|].
  unfold bind.
  match goal with
  | |- P (snd (match ?m s1 with _ => _ end)) =>
      assert (H2 : P (snd (m s1)));
      [|destruct (m s1) as [[fromIPv6|e] s2]; simpl in H2; [|exact H2]]
  end.
  { destruct ipv6 as [a|];
      [destruct (truthy a && negb (String.eqb a "")
                 && negb (String.eqb a "::"))|]; try exact H1.
    apply Hlookup. exact H1. }
  destruct (present fromIPv6); exact H2.
Qed.

Lemma step_warm s op reader :
  geoIPReader s = Some reader ->
  geoIPReader (step w s op) = Some reader
  /\ databaseType (step w s op) = databaseType s.
Proof.
  intros Hr.
  assert (Hsync : forall ip x,
             geoIPReader x = Some reader /\ databaseType x = databaseType s ->
             geoIPReader (snd (getCountryCodeFromIP w ip x)) = Some reader
             /\ databaseType (snd (getCountryCodeFromIP w ip x))
                = databaseType s).
  { intros ip x [Hx Hd]. rewrite getCountryCodeFromIP_resolve.
    destruct (resolve_with_warm (initGeoIPReader w) ip x reader
                (initGeoIPReader_ready w reader x Hx)) as (H1 & H2 & _).
    rewrite H1, H2. split; assumption. }
  destruct op; cbn [step].
  - rewrite (keeps_loadGeoIPFromChunks w geoIPReader),
      (keeps_loadGeoIPFromChunks w databaseType) by (repeat split).
    split; [exact Hr|reflexivity].
  - split; [exact Hr|reflexivity].
  - rewrite (keeps_preloadGeoIPDatabase_blind w geoIPReader),
      (keeps_preloadGeoIPDatabase_blind w databaseType) by (repeat split).
    split; [exact Hr|reflexivity].
  - apply Hsync. split; [exact Hr|reflexivity].
  - rewrite getCountryCodeFromIPAsync_resolve.
    destruct (resolve_with_warm (initGeoIPReaderAsync w) ip s reader
                (initGeoIPReaderAsync_ready w reader s Hr)) as (H1 & H2 & _).
    rewrite H1, H2. split; [exact Hr|reflexivity].
  - apply (getCountryCodeFromServerIPs_preserves
             (fun x => geoIPReader x = Some reader
                       /\ databaseType x = databaseType s)).
    + exact Hsync.
    + split; [exact Hr|reflexivity].
  - split; [exact Hr|reflexivity].
Qed.

(** X9.  The reader of the resolver is set once: when it is there after a
    run, it is the same reader, read in the same format, after every
    continuation of the run, whatever the continuation clears
    ([clearChunkedCache] and [clearCache] included) or loads. *)
Theorem geoIPReader_never_replaced ops ops' reader :
  geoIPReader (run w ops) = Some reader ->
  geoIPReader (run w (ops ++ ops')) = Some reader
  /\ databaseType (run w (ops ++ ops')) = databaseType (run w ops).
Proof.
  intros Hr. unfold run in *. rewrite fold_left_app.
  set (s := fold_left (step w) ops initial_state) in *.
  induction ops' as [|op ops' IH] using rev_ind.
  - split; [exact Hr|reflexivity].
  - rewrite fold_left_app. cbn [fold_left]. destruct IH as [IHr IHd].
    destruct (step_warm (fold_left (step w) ops' s) op reader IHr)
      as [H1 H2].
    split; [exact H1|]. rewrite H2. exact IHd.
Qed.

Lemma init_task_settles s :
  isInitializing (snd (init_task w s)) = false.
Proof.
  unfold init_task, try_catch, bind at 1, lift at 1.
  destruct (detectDatabaseType w) as [sel|e]; [|reflexivity].
  destruct (chunked sel).
  - unfold bind at 1.
    destruct (loadGeoIPFromChunks w (path sel) s) as [[r|e] s0]; reflexivity.
  - unfold bind at 1, lift at 1.
    destruct (readFileSync w (path sel)) as [dbBuffer|e]; [|reflexivity].
    unfold bind at 1, new_Reader.
    destruct (Reader_check w dbBuffer); reflexivity.
Qed.

Lemma init_task_rejected s e s1 :
  init_task w s = (Err e, s1) -> initPromise s1 = None.
Proof.
  unfold init_task, try_catch, bind at 1, lift at 1.
  destruct (detectDatabaseType w) as [sel|e0]; [|cbn; intros [= _ <-]; reflexivity].
  destruct (chunked sel).
  - unfold bind at 1.
    destruct (loadGeoIPFromChunks w (path sel) s) as [[r|e0] s0];
      cbn; [discriminate|intros [= _ <-]; reflexivity].
  - unfold bind at 1, lift at 1.
    destruct (readFileSync w (path sel)) as [dbBuffer|e0];
      [|cbn; intros [= _ <-]; reflexivity].
    unfold bind at 1, new_Reader.
    destruct (Reader_check w dbBuffer);
      cbn; [intros [= _ <-]; reflexivity|discriminate].
Qed.

Lemma initGeoIPReaderAsync_settled s :
  init_settled s -> init_settled (snd (initGeoIPReaderAsync w s)).
Proof.
  intros [Hflag Hpromise].
  unfold initGeoIPReaderAsync, bind at 1, read at 1.
  destruct (geoIPReader s) as [reader|] eqn:Hr.
  { cbn. split; [exact Hflag|].
    intros r Hp. rewrite Hr. exact (Hpromise r Hp). }
  unfold bind at 1, read at 1, bind at 1, read at 1. rewrite Hflag.
  assert (Hbody : init_settled
            (snd ((write (set_isInitializing true) ;;
                   fun s0 =>
                     let '(r, s') := init_task w s0 in
                     let awaited :=
                       match detectDatabaseType w with
                       | Ok sel => chunked sel
                       | Err _ => false
                       end in
                     (r, match awaited, r with
                         | true, Err _ => s'
                         | _, _ => set_initPromise (Some r) s'
                         end)) s))).
  { unfold bind at 1, write at 1.
    pose proof (init_task_settles (set_isInitializing true s)) as Hsettle.
    pose proof (init_task_reader w (set_isInitializing true s)) as Hreader.
    pose proof (init_task_rejected (set_isInitializing true s)) as Hreject.
    destruct (init_task w (set_isInitializing true s)) as [[r|e] s1];
      cbn [snd] in *.
    - specialize (Hreader r s1 eq_refl).
      destruct (match detectDatabaseType w with
                | Ok sel => chunked sel | Err _ => false end);
        (split; [exact Hsettle|intros r' [= <-]; exact Hreader]).
    - specialize (Hreject e s1 eq_refl).
      destruct (match detectDatabaseType w with
                | Ok sel => chunked sel | Err _ => false end);
        (split; [exact Hsettle|]).
      + intros r'. rewrite Hreject. discriminate.
      + intros r' [=]. }
  destruct (initPromise s); exact Hbody.
Qed.

Lemma initGeoIPReader_touches s :
  isInitializing (snd (initGeoIPReader w s)) = isInitializing s
  /\ initPromise (snd (initGeoIPReader w s)) = initPromise s
  /\ (geoIPReader s = None \/ snd (initGeoIPReader w s) = s).
Proof.
  destruct (initGeoIPReader w s) as [r s'] eqn:Hinit. cbn [snd].
  revert Hinit. unfold initGeoIPReader, bind at 1, read at 1.
  destruct (geoIPReader s) as [reader|] eqn:Hr.
  { intros [= <- <-].
    split; [reflexivity|]. split; [reflexivity|]. right. reflexivity. }
  assert (Hleft : forall P : Prop, None = None :> option Reader \/ P)
    by (intros P; left; reflexivity).
  unfold try_catch, bind at 1, lift at 1.
  destruct (detectDatabaseType w) as [sel|e].
  2: { intros [= <- <-].
       split; [reflexivity|]; split; [reflexivity|apply Hleft]. }
  destruct (chunked sel).
  { unfold bind, read. rewrite Hr. intros [= <- <-].
    split; [reflexivity|]; split; [reflexivity|apply Hleft]. }
  unfold bind at 1, lift at 1.
  destruct (readFileSync w (path sel)) as [dbBuffer|e].
  2: { intros [= <- <-].
       split; [reflexivity|]; split; [reflexivity|apply Hleft]. }
  unfold bind at 1, new_Reader.
  destruct (Reader_check w dbBuffer); cbn; intros [= <- <-];
    (split; [reflexivity|]; split; [reflexivity|apply Hleft]).
Qed.

Lemma initGeoIPReader_settled s :
  init_settled s -> init_settled (snd (initGeoIPReader w s)).
Proof.
  intros [Hflag Hpromise].
  destruct (initGeoIPReader_touches s) as (Hi & Hp & [Hnone|Hsame]).
  - split; [rewrite Hi; exact Hflag|].
    intros r. rewrite Hp. intros Hr. apply Hpromise in Hr. congruence.
  - rewrite Hsame. split; assumption.
Qed.

Lemma resolve_with_settled init ip s :
  (forall x, init_settled x -> init_settled (snd (init x))) ->
  init_settled s -> init_settled (snd (resolve_with w init ip s)).
Proof.
  intros Hinit Hs. rewrite resolve_with_cases.
  destruct (no_address ip); [exact Hs|].
  destruct (Map_has ip (ipCountryCache s)); [exact Hs|].
  specialize (Hinit s Hs).
  destruct (init s) as [[reader|e] s1]; [|exact Hinit].
  destruct (Reader_get w (reader_buffer reader) ip); exact Hinit.
Qed.

Lemma keeps_init_settled {A} (m : M A) s :
  keeps isInitializing m -> keeps initPromise m -> keeps geoIPReader m ->
  init_settled s -> init_settled (snd (m s)).
Proof.
  intros Hi Hp Hg [Hflag Hpromise].
  split; [rewrite Hi; exact Hflag|].
  intros r. rewrite Hp, Hg. apply Hpromise.
Qed.

Lemma step_init_settled s op :
  init_settled s -> init_settled (step w s op).
Proof.
  intros Hs. destruct op; cbn [step].
  - apply keeps_init_settled; [..|exact Hs];
      apply keeps_loadGeoIPFromChunks; repeat split.
  - exact Hs.
  - apply keeps_init_settled; [..|exact Hs];
      apply keeps_preloadGeoIPDatabase_blind; repeat split.
  - rewrite getCountryCodeFromIP_resolve.
    apply resolve_with_settled; [apply initGeoIPReader_settled|exact Hs].
  - rewrite getCountryCodeFromIPAsync_resolve.
    apply resolve_with_settled; [apply initGeoIPReaderAsync_settled|exact Hs].
  - apply (getCountryCodeFromServerIPs_preserves init_settled); [|exact Hs].
    intros a x Hx. rewrite getCountryCodeFromIP_resolve.
    apply resolve_with_settled; [apply initGeoIPReader_settled|exact Hx].
  - exact Hs.
Qed.

Lemma run_init_settled ops : init_settled (run w ops).
Proof.
  unfold run. induction ops as [|op ops IH] using rev_ind.
  - split; [reflexivity|discriminate].
  - rewrite fold_left_app. cbn [fold_left]. apply step_init_settled, IH.
Qed.

(** X10.  The initialisation flag never sticks.  Every way out of the task
    of [initGeoIPReaderAsync], with a reader or with an error, lowers
    [isInitializing], so after any run the flag is down and the next call
    without a reader starts a new attempt instead of handing out an old
    promise; and a fulfilled promise still stored in [initPromise] is the
    reader that the resolver holds. *)
Theorem isInitializing_reset ops :
  let s := run w ops in
  isInitializing s = false
  /\ (forall reader,
        initPromise s = Some (Ok reader) -> geoIPReader s = Some reader)
  /\ (geoIPReader s = None ->
      initGeoIPReaderAsync w s
      = let '(r, s') := init_task w (set_isInitializing true s) in
        (r, match detectDatabaseType w, r with
            | Ok {| chunked := true |}, Err _ => s'
            | _, _ => set_initPromise (Some r) s'
            end)).
Proof.
  intros s. destruct (run_init_settled ops) as [Hflag Hpromise].
  fold s in Hflag, Hpromise.
  split; [exact Hflag|]. split; [exact Hpromise|].
  intros Hnone.
  unfold initGeoIPReaderAsync, bind at 1, read at 1. rewrite Hnone.
  unfold bind at 1, read at 1, bind at 1, read at 1. rewrite Hflag.
  assert (Hbody : (write (set_isInitializing true) ;;
                   fun s0 =>
                     let '(r, s') := init_task w s0 in
                     let awaited :=
                       match detectDatabaseType w with
                       | Ok sel => chunked sel
                       | Err _ => false
                       end in
                     (r, match awaited, r with
                         | true, Err _ => s'
                         | _, _ => set_initPromise (Some r) s'
                         end)) s
                  = let '(r, s') := init_task w (set_isInitializing true s) in
                    (r, match detectDatabaseType w, r with
                        | Ok {| chunked := true |}, Err _ => s'
                        | _, _ => set_initPromise (Some r) s'
                        end)).
  { unfold bind at 1, write at 1.
    destruct (init_task w (set_isInitializing true s)) as [r s1].
    destruct (detectDatabaseType w) as [[p t [|]]|e]; destruct r; reflexivity. }
  destruct (initPromise s); exact Hbody.
Qed.

(** Without a manifest the selector picks a whole file. *)
Lemma detectDatabaseType_whole sel :
  hasChunkedDatabase w (path_join (basePath w) "chunks") = false ->
  detectDatabaseType w = Ok sel -> chunked sel = false.
Proof.
  intros Hnone. unfold detectDatabaseType. rewrite Hnone.
  repeat match goal with
         | |- context [if ?b then _ else _] => destruct b
         end; intros [= <-]; reflexivity.
Qed.

Lemma set_initPromise_same s : set_initPromise (initPromise s) s = s.
Proof. destruct s; reflexivity. Qed.

(** Without a manifest the two initialisers do the same, up to the promise
    that the non-blocking one stores. *)
Lemma initGeoIPReaderAsync_blocking s :
  hasChunkedDatabase w (path_join (basePath w) "chunks") = false ->
  isInitializing s = false ->
  exists promise,
    initGeoIPReaderAsync w s
    = (fst (initGeoIPReader w s),
       set_initPromise promise (snd (initGeoIPReader w s))).
Proof.
  intros Hnone Hflag.
  destruct (geoIPReader s) as [reader|] eqn:Hr.
  { exists (initPromise s).
    rewrite (initGeoIPReaderAsync_ready w reader s Hr),
      (initGeoIPReader_ready w reader s Hr).
    cbn [fst snd]. rewrite set_initPromise_same. reflexivity. }
  pose proof (fun sel => detectDatabaseType_whole sel Hnone) as Hwhole.
  unfold initGeoIPReaderAsync, initGeoIPReader, init_task, try_catch,
    new_Reader.
  destruct s as [cr cb ip pp g dt ii p c gz q l].
  cbn in Hr, Hflag. subst g ii.
  destruct (detectDatabaseType w) as [sel|e].
  - cbn -[readFileSync Reader_check loadGeoIPFromChunks].
    rewrite !(Hwhole sel eq_refl).
    cbn -[readFileSync Reader_check].
    destruct (readFileSync w (path sel)) as [dbBuffer|e].
    + cbn -[Reader_check].
      destruct (Reader_check w dbBuffer); cbn; destruct p;
        eexists; reflexivity.
    + cbn. destruct p; eexists; reflexivity.
  - cbn. destruct p; eexists; reflexivity.
Qed.

(** X11.  Without a manifest in the chunks directory the two resolvers are
    one: after any run, the non-blocking lookup of an address gives the
    answer of the blocking lookup and leaves its state, but for the promise
    that [initGeoIPReaderAsync] stores. *)
Theorem getCountryCodeFromIPAsync_blocking ops ip :
  hasChunkedDatabase w (path_join (basePath w) "chunks") = false ->
  let s := run w ops in
  exists promise,
    getCountryCodeFromIPAsync w ip s
    = (fst (getCountryCodeFromIP w ip s),
       set_initPromise promise (snd (getCountryCodeFromIP w ip s))).
Proof.
  intros Hnone s.
  destruct (run_init_settled ops) as [Hflag _]. fold s in Hflag.
  rewrite getCountryCodeFromIPAsync_resolve, getCountryCodeFromIP_resolve.
  rewrite !resolve_with_cases.
  destruct (no_address ip).
  { exists (initPromise s). cbn. rewrite set_initPromise_same. reflexivity. }
  destruct (Map_has ip (ipCountryCache s)).
  { exists (initPromise s). cbn. rewrite set_initPromise_same. reflexivity. }
  destruct (initGeoIPReaderAsync_blocking s Hnone Hflag) as [promise ->].
  exists promise.
  destruct (initGeoIPReader w s) as [[reader|e] s1]; cbn [fst snd];
    [|reflexivity].
  destruct (Reader_get w (reader_buffer reader) ip); reflexivity.
Qed.

Lemma present_or_null v : present (or_null v) = or_null v.
Proof.
  destruct v as [[c|]|]; [|reflexivity..]. unfold or_null, present.
  destruct (truthy c) eqn:Hc; [rewrite Hc|]; reflexivity.
Qed.

Lemma present_extractCountryCode dbt record :
  present (extractCountryCode dbt record) = extractCountryCode dbt record.
Proof.
  rewrite <- (extractCountryCode_or_null dbt record) at 2.
  reflexivity.
Qed.

(** A lookup answers, and with a code that [||] and [if] let through. *)
Lemma resolve_with_answer init ip s :
  exists v, fst (resolve_with w init ip s) = Ok v /\ present v = v.
Proof.
  rewrite resolve_with_cases.
  destruct (no_address ip); [exists None; split; reflexivity|].
  destruct (Map_has ip (ipCountryCache s)).
  { eexists. split; [reflexivity|]. apply present_or_null. }
  destruct (init s) as [[reader|e] s1];
    [|exists None; split; reflexivity].
  destruct (Reader_get w (reader_buffer reader) ip) as [record|e];
    [|exists None; split; reflexivity].
  eexists. split; [reflexivity|]. apply present_extractCountryCode.
Qed.

Lemma present_not_empty v : present v = v -> v <> Some "".
Proof. intros H ->. discriminate H. Qed.

Lemma getCountryCodeFromIP_refused ip s :
  no_address ip = true -> getCountryCodeFromIP w ip s = (Ok None, s).
Proof.
  intros H. rewrite getCountryCodeFromIP_resolve, resolve_with_cases, H.
  reflexivity.
Qed.

(** How [getCountryCodeFromServerIPs] is made of blocking lookups. *)
Lemma getCountryCodeFromServerIPs_cases ipv4 ipv6 s :
  getCountryCodeFromServerIPs w ipv4 ipv6 s
  = let first := match ipv4 with
                 | Some a => getCountryCodeFromIP w a s
                 | None => (Ok None, s)
                 end in
    match fst first with
    | Ok (Some code) => (Ok (Some code), snd first)
    | _ => match ipv6 with
           | Some a => getCountryCodeFromIP w a (snd first)
           | None => (Ok None, snd first)
           end
    end.
Proof.
  assert (H4 : (match ipv4 with
                | Some a =>
                    if truthy a && negb (String.eqb a "")
                    then getCountryCodeFromIP w a
                    else ret None
                | None => ret None
                end) s
               = match ipv4 with
                 | Some a => getCountryCodeFromIP w a s
                 | None => (Ok None, s)
                 end).
  { destruct ipv4 as [a|]; [|reflexivity].
    destruct (truthy a && negb (String.eqb a "")) eqn:Hguard; [reflexivity|].
    rewrite getCountryCodeFromIP_refused; [reflexivity|].
    unfold no_address. apply andb_false_iff in Hguard as [->| ->%negb_false_iff];
      [reflexivity|apply orb_true_iff; left; apply orb_true_r]. }
  assert (H6 : forall x,
             (match ipv6 with
              | Some a =>
                  if truthy a && negb (String.eqb a "")
                     && negb (String.eqb a "::")
                  then getCountryCodeFromIP w a
                  else ret None
              | None => ret None
              end) x
             = match ipv6 with
               | Some a => getCountryCodeFromIP w a x
               | None => (Ok None, x)
               end).
  { intros x. destruct ipv6 as [a|]; [|reflexivity].
    destruct (truthy a && negb (String.eqb a "")
              && negb (String.eqb a "::")) eqn:Hguard; [reflexivity|].
    rewrite getCountryCodeFromIP_refused; [reflexivity|].
    unfold no_address.
    apply andb_false_iff in Hguard as [Hguard| ->%negb_false_iff];
      [|apply orb_true_r].
    apply andb_false_iff in Hguard as [->| ->%negb_false_iff];
      [reflexivity|apply orb_true_iff; left; apply orb_true_r]. }
  unfold getCountryCodeFromServerIPs, bind at 1. rewrite H4. clear H4.
  cbv zeta.
  assert (Hfirst : exists v,
             fst (match ipv4 with
                  | Some a => getCountryCodeFromIP w a s
                  | None => (Ok None, s)
                  end) = Ok v /\ present v = v).
  { destruct ipv4 as [a|]; [|exists None; split; reflexivity].
    rewrite getCountryCodeFromIP_resolve. apply resolve_with_answer. }
  destruct (match ipv4 with
            | Some a => getCountryCodeFromIP w a s
            | None => (Ok None, s)
            end) as [r1 s1].
  cbn [fst snd] in *. destruct Hfirst as (v & -> & Hv). rewrite Hv.
  destruct v as [code|]; [reflexivity|].
  unfold bind at 1. rewrite H6. clear H6.
  assert (Hsecond : exists v,
             fst (match ipv6 with
                  | Some a => getCountryCodeFromIP w a s1
                  | None => (Ok None, s1)
                  end) = Ok v /\ present v = v).
  { destruct ipv6 as [a|]; [|exists None; split; reflexivity].
    rewrite getCountryCodeFromIP_resolve. apply resolve_with_answer. }
  destruct (match ipv6 with
            | Some a => getCountryCodeFromIP w a s1
            | None => (Ok None, s1)
            end) as [r2 s2].
  cbn [fst] in Hsecond. destruct Hsecond as (v & -> & Hv2). rewrite Hv2.
  destruct v; reflexivity.
Qed.

(** X12.  No resolver answers the empty string, for provider records typed
    as the interfaces of the source type them: [country] of an IPInfo
    record and [iso_code] of [country] and [registered_country] of a
    MaxMind record are strings where they are there (a record of another
    shape, such as a MaxMind record found in a database that its file name
    makes an IPInfo one, is outside [RawRecord]).  In any state, whatever
    strings such a record or a cache entry holds, the empty string
    included, the blocking lookup, the non-blocking lookup and the lookup
    by server addresses return a value, which is [null] or a country code
    that is not empty. *)
Theorem lookup_never_empty s ip ipv4 ipv6 :
  (exists v, fst (getCountryCodeFromIP w ip s) = Ok v /\ v <> Some "")
  /\ (exists v, fst (getCountryCodeFromIPAsync w ip s) = Ok v /\ v <> Some "")
  /\ (exists v, fst (getCountryCodeFromServerIPs w ipv4 ipv6 s) = Ok v
                /\ v <> Some "").
Proof.
  assert (Hone : forall a x,
             exists v, fst (getCountryCodeFromIP w a x) = Ok v
                       /\ v <> Some "").
  { intros a x. rewrite getCountryCodeFromIP_resolve.
    destruct (resolve_with_answer (initGeoIPReader w) a x) as (v & Hv & Hp).
    exists v. split; [exact Hv|apply present_not_empty, Hp]. }
  split; [apply Hone|]. split.
  - rewrite getCountryCodeFromIPAsync_resolve.
    destruct (resolve_with_answer (initGeoIPReaderAsync w) ip s)
      as (v & Hv & Hp).
    exists v. split; [exact Hv|apply present_not_empty, Hp].
  - rewrite getCountryCodeFromServerIPs_cases. cbv zeta.
    assert (Hfirst : exists v,
               fst (match ipv4 with
                    | Some a => getCountryCodeFromIP w a s
                    | None => (Ok None, s)
                    end) = Ok v /\ v <> Some "").
    { destruct ipv4 as [a|]; [apply Hone|].
      exists None. split; [reflexivity|discriminate]. }
    destruct (match ipv4 with
              | Some a => getCountryCodeFromIP w a s
              | None => (Ok None, s)
              end) as [r1 s1].
    cbn [fst snd] in *. destruct Hfirst as (v & -> & Hv).
    destruct v as [code|].
    + exists (Some code). split; [reflexivity|exact Hv].
    + destruct ipv6 as [a|]; [apply Hone|].
      exists None. split; [reflexivity|discriminate].
Qed.

(** X13.  [getCountryCodeFromServerIPs] asks for the IPv4 address first and
    for the IPv6 address only when that gave no code.  When the blocking
    lookup of the IPv4 address has a code, this code is the result and the
    state is the one this lookup left: the IPv6 address is not looked up,
    queried or cached.  Otherwise the result and the state are those of the
    blocking lookup of the IPv6 address in the state that the first lookup
    left, and [null] when there is no IPv6 address. *)
Theorem getCountryCodeFromServerIPs_prefers_ipv4 ipv4 ipv6 s :
  let first := match ipv4 with
               | Some a => getCountryCodeFromIP w a s
               | None => (Ok None, s)
               end in
  match fst first with
  | Ok (Some code) =>
      getCountryCodeFromServerIPs w ipv4 ipv6 s = (Ok (Some code), snd first)
  | _ =>
      getCountryCodeFromServerIPs w ipv4 ipv6 s
      = match ipv6 with
        | Some a => getCountryCodeFromIP w a (snd first)
        | None => (Ok None, snd first)
        end
  end.
Proof.
  rewrite getCountryCodeFromServerIPs_cases. cbv zeta.
  destruct (fst (match ipv4 with
                 | Some a => getCountryCodeFromIP w a s
                 | None => (Ok None, s)
                 end)) as [[code|]|e]; reflexivity.
Qed.

(** X14.  [clearCache] makes the resolvers forget every answer and nothing
    else.  With a reader at hand, after [clearCache] the cache is empty and
    the reader is the same; the next lookup of an address that the provider
    answers for, whatever the cache held for it before, queries the provider
    once more and leaves a cache of this one entry. *)
Theorem clearCache_forgets s ip reader record :
  geoIPReader s = Some reader ->
  no_address ip = false ->
  Reader_get w (reader_buffer reader) ip = Ok record ->
  let code := extractCountryCode (databaseType s) record in
  let s' := snd (clearCache s) in
  ipCountryCache s' = []
  /\ geoIPReader s' = Some reader
  /\ getCacheStats s' = (Ok (0, MAX_CACHE_SIZE), s')
  /\ getCountryCodeFromIP w ip s'
     = (Ok code, set_ipCountryCache [(ip, code)] (count_query s'))
  /\ getCountryCodeFromIPAsync w ip s'
     = (Ok code, set_ipCountryCache [(ip, code)] (count_query s')).
Proof.
  intros Hreader Haddress Hrecord code s'.
  assert (Hr : geoIPReader s' = Some reader) by exact Hreader.
  assert (Hstore : cache_store ip code [] = [(ip, code)]).
  { apply (cache_store_room ip code []); [reflexivity|].
    apply MAX_CACHE_SIZE_pos. }
  split; [reflexivity|]. split; [exact Hr|]. split; [reflexivity|].
  rewrite getCountryCodeFromIP_resolve, getCountryCodeFromIPAsync_resolve.
  rewrite !resolve_with_cases, Haddress.
  rewrite (initGeoIPReader_ready w reader s' Hr),
    (initGeoIPReaderAsync_ready w reader s' Hr), Hrecord.
  change (ipCountryCache s') with (@nil (string * option string)).
  cbn [Map_has existsb]. cbv zeta.
  change (extractCountryCode (databaseType s') record) with code.
  rewrite Hstore. split; reflexivity.
Qed.

End ResolverState.

Lemma geoIPReader_never_replaced_witness :
  geoIPReader
    (run Sample.chunked
       ([OpLookupAsync "8.8.8.8"]
        ++ [OpClearChunkedCache; OpClearCache; OpPreload; OpLookup "1.1.1.1"]))
  = Some (mkReader [Byte.x41; Byte.x42; Byte.x43])
  /\ databaseType
       (run Sample.chunked
          ([OpLookupAsync "8.8.8.8"]
           ++ [OpClearChunkedCache; OpClearCache; OpPreload;
               OpLookup "1.1.1.1"]))
     = databaseType (run Sample.chunked [OpLookupAsync "8.8.8.8"]).
Proof.
  apply (geoIPReader_never_replaced Sample.chunked).
  vm_compute. reflexivity.
Defined.

Lemma isInitializing_reset_witness :
  isInitializing (run Sample.empty [OpLookupAsync "8.8.8.8"]) = false
  /\ fst (initGeoIPReaderAsync Sample.empty
            (run Sample.empty [OpLookupAsync "8.8.8.8"]))
     = Err NoDatabaseFound.
Proof.
  pose proof (isInitializing_reset Sample.empty [OpLookupAsync "8.8.8.8"])
    as H.
  cbv zeta in H. destruct H as (Hflag & _ & Hnext).
  split; [exact Hflag|]. rewrite Hnext by (vm_compute; reflexivity).
  vm_compute. reflexivity.
Defined.

Lemma getCountryCodeFromIPAsync_blocking_witness :
  exists promise,
    getCountryCodeFromIPAsync Sample.monolithic "8.8.8.8"
      (run Sample.monolithic [OpLookup "1.1.1.1"])
    = (fst (getCountryCodeFromIP Sample.monolithic "8.8.8.8"
              (run Sample.monolithic [OpLookup "1.1.1.1"])),
       set_initPromise promise
         (snd (getCountryCodeFromIP Sample.monolithic "8.8.8.8"
                 (run Sample.monolithic [OpLookup "1.1.1.1"])))).
Proof.
  apply (getCountryCodeFromIPAsync_blocking Sample.monolithic
           [OpLookup "1.1.1.1"] "8.8.8.8").
  vm_compute. reflexivity.
Defined.

Lemma clearCache_forgets_witness :
  fst (getCountryCodeFromIP Sample.monolithic "8.8.8.8"
         (snd (clearCache (run Sample.monolithic [OpLookup "8.8.8.8"]))))
  = Ok (Some "US")
  /\ provider_queries
       (snd (getCountryCodeFromIP Sample.monolithic "8.8.8.8"
               (snd (clearCache
                       (run Sample.monolithic [OpLookup "8.8.8.8"])))))
     = 2.
Proof.
  pose proof (clearCache_forgets Sample.monolithic
                (run Sample.monolithic [OpLookup "8.8.8.8"]) "8.8.8.8"
                (mkReader [Byte.x00]) (Some Sample.us)
                ltac:(vm_compute; reflexivity) eq_refl eq_refl) as H.
  cbv zeta in H. destruct H as (_ & _ & _ & Hnext & _).
  rewrite Hnext. split; vm_compute; reflexivity.
Defined.

(** ** The splitter *)

Section ChunkNames.

Lemma length_append a b :
  String.length (a +:+ b) = String.length a + String.length b.
Proof. induction a as [|c a IH]; simpl; [reflexivity|]. rewrite IH. reflexivity. Qed.

Lemma append_cancel_r c a b : a +:+ c = b +:+ c -> a = b.
Proof.
  revert b. induction a as [|x a IH]; intros [|y b] H; simpl in H.
  - reflexivity.
  - apply (f_equal String.length) in H.
    rewrite !length_append in H. simpl in H. lia.
  - apply (f_equal String.length) in H.
    rewrite !length_append in H. simpl in H. lia.
  - injection H as -> H. rewrite (IH b H). reflexivity.
Qed.

Lemma append_cancel_l c a b : c +:+ a = c +:+ b -> a = b.
Proof.
  induction c as [|x c IH]; simpl; intros H; [exact H|].
  injection H as H. exact (IH H).
Qed.

Lemma path_join_inj dir a b : path_join dir a = path_join dir b -> a = b.
Proof.
  unfold path_join. intros H.
  apply append_cancel_l in H. apply (append_cancel_l "/") in H. exact H.
Qed.

(** A positive number is not written with a zero in front. *)
Lemma pretty_N_go_leading x :
  (0 < x)%N ->
  forall s, exists c s', pretty_N_go x s = String c s' /\ c <> "0"%char.
Proof.
  induction (N.lt_wf_0 x) as [x _ IH]. intros Hpos s.
  rewrite pretty_N_go_step by exact Hpos.
  destruct (decide (x `div` 10 = 0)%N) as [Hsmall|Hlarge].
  - rewrite Hsmall, pretty_N_go_0. eexists _, _. split; [reflexivity|].
    apply N.div_small_iff in Hsmall; [|lia].
    rewrite N.mod_small by exact Hsmall.
    assert (x = 1 \/ x = 2 \/ x = 3 \/ x = 4 \/ x = 5 \/ x = 6
            \/ x = 7 \/ x = 8 \/ x = 9)%N as Hx by lia.
    destruct Hx as [->|[->|[->|[->|[->|[->|[->|[->| ->]]]]]]]];
      discriminate.
  - apply IH; [apply N.div_lt; lia|apply N.neq_0_lt_0; exact Hlarge].
Qed.

Lemma pretty_nat_leading i :
  i <> 0 -> exists c s', pretty i = String c s' /\ c <> "0"%char.
Proof.
  intros Hi. unfold pretty, pretty_nat, pretty, pretty_N.
  destruct (decide (N.of_nat i = 0)%N) as [H0|_]; [lia|].
  apply pretty_N_go_leading. lia.
Qed.

Lemma strip_zeros_pad n s : strip_zeros (pad n "0" s) = strip_zeros s.
Proof. induction n as [|n IH]; [reflexivity|exact IH]. Qed.

Lemma strip_zeros_pretty i :
  strip_zeros (pretty i) = if decide (i = 0) then "" else pretty i.
Proof.
  destruct (decide (i = 0)) as [->|Hi]; [reflexivity|].
  destruct (pretty_nat_leading i Hi) as (c & s' & -> & Hc).
  simpl. destruct (Ascii.eqb_spec c "0"); [contradiction|reflexivity].
Qed.

Lemma chunk_filename_inj i j : chunk_filename i = chunk_filename j -> i = j.
Proof.
  unfold chunk_filename, padStart. intros H.
  apply (append_cancel_l "chunk_") in H. apply append_cancel_r in H.
  apply (f_equal strip_zeros) in H.
  rewrite !strip_zeros_pad, !strip_zeros_pretty in H.
  destruct (decide (i = 0)) as [->|Hi], (decide (j = 0)) as [->|Hj].
  - reflexivity.
  - destruct (pretty_nat_leading j Hj) as (c & s' & Hp & _).
    rewrite Hp in H. discriminate.
  - destruct (pretty_nat_leading i Hi) as (c & s' & Hp & _).
    rewrite Hp in H. discriminate.
  - exact (inj pretty i j H).
Qed.

Lemma chunk_filename_not_metadata i : chunk_filename i <> "metadata.json".
Proof. unfold chunk_filename. simpl. discriminate. Qed.

End ChunkNames.

Section SplitLoop.

Variable t : Tools.
Variables (outputDir : string) (fileBuffer : bytes).
Variables (CHUNK_SIZE numChunks : nat).

(** The loop, iteration by iteration. *)
Lemma split_loop_spec n :
  forall i chunks total,
    split_loop t outputDir fileBuffer CHUNK_SIZE numChunks n i chunks total
    = (chunks ++ map (chunk_entry t fileBuffer CHUNK_SIZE) (seq i n),
       total + sum_list (map compressedSize
                           (map (chunk_entry t fileBuffer CHUNK_SIZE)
                              (seq i n))),
       flat_map
         (fun k =>
            [WriteFileSync (path_join outputDir (chunk_filename k))
               (gzipSync t (chunk_at fileBuffer CHUNK_SIZE k));
             Console
               (LineChunk (k + 1) numChunks
                  (length (chunk_at fileBuffer CHUNK_SIZE k))
                  (length (gzipSync t (chunk_at fileBuffer CHUNK_SIZE k)))
                  (reduction t
                     (length (gzipSync t (chunk_at fileBuffer CHUNK_SIZE k)))
                     (length (chunk_at fileBuffer CHUNK_SIZE k))))])
         (seq i n)).
Proof.
  induction n as [|n IH]; intros i chunks total.
  - simpl. rewrite app_nil_r, Nat.add_0_r. reflexivity.
  - cbn [split_loop]. rewrite IH. cbn [seq map flat_map app].
    rewrite <- app_assoc. cbn [app].
    change (sum_list (?x :: ?l)) with (x + sum_list l).
    rewrite Nat.add_assoc. reflexivity.
Qed.

Lemma length_chunk_at i :
  length (chunk_at fileBuffer CHUNK_SIZE i)
  = Nat.min (i * CHUNK_SIZE + CHUNK_SIZE) (length fileBuffer) - i * CHUNK_SIZE.
Proof.
  unfold chunk_at, Buffer_slice. rewrite length_take, length_drop. lia.
Qed.

(** The slices of the first [n] iterations, one after the other, are the
    first [n * CHUNK_SIZE] bytes of the file. *)
Lemma concat_chunk_at n :
  concat (map (chunk_at fileBuffer CHUNK_SIZE) (seq 0 n))
  = take (n * CHUNK_SIZE) fileBuffer.
Proof.
  induction n as [|n IH]; [reflexivity|].
  rewrite seq_S, map_app, concat_app, IH. cbn [map concat Nat.add].
  rewrite app_nil_r. unfold chunk_at, Buffer_slice.
  rewrite take_take_drop, Nat.mul_succ_l.
  set (a := n * CHUNK_SIZE).
  destruct (Nat.le_gt_cases (a + CHUNK_SIZE) (length fileBuffer)) as [Hin|Hout].
  - f_equal. lia.
  - rewrite !take_ge by lia. reflexivity.
Qed.

Lemma Math_ceil_div_covers :
  0 < CHUNK_SIZE ->
  length fileBuffer <= Math_ceil_div (length fileBuffer) CHUNK_SIZE * CHUNK_SIZE
  /\ forall i, i < Math_ceil_div (length fileBuffer) CHUNK_SIZE ->
               i * CHUNK_SIZE < length fileBuffer.
Proof.
  intros Hpos. unfold Math_ceil_div.
  pose proof (Nat.div_mod_eq (length fileBuffer) CHUNK_SIZE) as Hdiv.
  pose proof (Nat.mod_upper_bound (length fileBuffer) CHUNK_SIZE
                ltac:(lia)) as Hmod.
  set (q := length fileBuffer / CHUNK_SIZE) in *.
  set (r := length fileBuffer mod CHUNK_SIZE) in *.
  destruct (Nat.eqb_spec r 0) as [Hr|Hr].
  - split; [lia|]. intros i Hi.
    assert (S i * CHUNK_SIZE <= q * CHUNK_SIZE)
      by (apply Nat.mul_le_mono_r; lia).
    lia.
  - split; [lia|]. intros i Hi.
    assert (i * CHUNK_SIZE <= q * CHUNK_SIZE)
      by (apply Nat.mul_le_mono_r; lia).
    lia.
Qed.

End SplitLoop.

Section SplitMetadata.

Variable t : Tools.

Lemma CHUNK_SIZE_pos (chunkSizeMB : positive) :
  0 < Pos.to_nat chunkSizeMB * 1024 * 1024.
Proof. pose proof (Pos2Nat.is_pos chunkSizeMB). lia. Qed.

Lemma originalSize_chunk_entry fileBuffer size l :
  map originalSize (map (chunk_entry t fileBuffer size) l)
  = map length (map (chunk_at fileBuffer size) l).
Proof. rewrite !map_map. reflexivity. Qed.

Lemma sum_list_lengths (datas : list bytes) :
  sum_list (map length datas) = length (concat datas).
Proof.
  induction datas as [|d datas IH]; [reflexivity|].
  cbn [map concat]. rewrite length_app, <- IH. reflexivity.
Qed.

(** X15.  The manifest that the splitter builds satisfies the manifest
    invariants that the loader relies on, for every input file and every
    chunk size of a positive number of megabytes: the entries carry the indices 0, 1, ... in order, as many as
    [numChunks] says, under the names [chunk_000.gz], [chunk_001.gz], ...;
    the recorded sizes add up to [totalSize], the size of the input; every
    chunk holds at least one byte and at most [chunkSize] bytes, all but the
    last exactly [chunkSize], so that chunk [i] starts at byte
    [i * chunkSize]; and the slices, one after the other, are the input. *)
Theorem split_metadata_valid inputFile fileBuffer chunkSizeMB :
  let metadata := split_metadata t inputFile fileBuffer chunkSizeMB in
  manifest_valid metadata
  /\ totalSize metadata = length fileBuffer
  /\ concat (map (chunk_at fileBuffer (chunkSize metadata))
               (seq 0 (numChunks metadata))) = fileBuffer
  /\ forall i c,
       chunks metadata !! i = Some c ->
       index c = i
       /\ filename c = chunk_filename i
       /\ originalSize c = length (chunk_at fileBuffer (chunkSize metadata) i)
       /\ 0 < originalSize c <= chunkSize metadata
       /\ running_offset metadata i = i * chunkSize metadata
       /\ (S i < numChunks metadata -> originalSize c = chunkSize metadata).
Proof.
  intros metadata.
  pose proof (CHUNK_SIZE_pos chunkSizeMB) as Hpos.
  set (size := Pos.to_nat chunkSizeMB * 1024 * 1024) in *.
  destruct (Math_ceil_div_covers fileBuffer size Hpos) as [Hcover Hinside].
  set (n := Math_ceil_div (length fileBuffer) size) in *.
  assert (Hchunks : chunks metadata
                    = map (chunk_entry t fileBuffer size) (seq 0 n))
    by reflexivity.
  assert (Hconcat : concat (map (chunk_at fileBuffer size) (seq 0 n))
                    = fileBuffer).
  { rewrite concat_chunk_at. apply take_ge. exact Hcover. }
  split; [split|].
  - rewrite Hchunks, map_map. cbn [chunk_entry index].
    rewrite map_id. reflexivity.
  - rewrite Hchunks, originalSize_chunk_entry, sum_list_lengths, Hconcat.
    reflexivity.
  - split; [reflexivity|]. split; [exact Hconcat|].
    intros i c Hc. rewrite Hchunks in Hc.
    change (map ?f ?l) with (f <$> l) in Hc.
    apply list_lookup_fmap_Some in Hc as (k & -> & Hk).
    apply lookup_seq in Hk as [-> Hi]. cbn [Nat.add] in *.
    pose proof (Hinside i Hi) as Hstart.
    cbn [chunk_entry index filename originalSize].
    change (chunkSize metadata) with size.
    change (numChunks metadata) with n.
    rewrite length_chunk_at.
    split; [reflexivity|]. split; [reflexivity|]. split; [reflexivity|].
    split; [lia|]. split.
    + unfold running_offset. rewrite Hchunks.
      change (map ?f ?l) with (f <$> l) at 2.
      rewrite <- fmap_take, take_seq, Nat.min_l by lia.
      change (?f <$> ?l) with (map f l).
      rewrite originalSize_chunk_entry, sum_list_lengths, concat_chunk_at.
      rewrite length_take. lia.
    + intros Hnext. pose proof (Hinside (S i) Hnext) as Hend.
      rewrite Nat.mul_succ_l in Hend. lia.
Qed.

End SplitMetadata.

Section FileSystem.

(** Effects change the files, not the rest of the world. *)
Lemma fs_after_tools effects :
  forall w,
    JSON_parse (fs_after effects w) = JSON_parse w
    /\ gunzipSync (fs_after effects w) = gunzipSync w
    /\ uninitialized (fs_after effects w) = uninitialized w
    /\ Reader_check (fs_after effects w) = Reader_check w
    /\ Reader_get (fs_after effects w) = Reader_get w
    /\ cwd (fs_after effects w) = cwd w.
Proof.
  induction effects as [|e effects IH]; intros w; [repeat split|].
  cbn [fs_after fold_left].
  destruct (IH (perform w e)) as (H1 & H2 & H3 & H4 & H5 & H6).
  unfold fs_after in *. rewrite H1, H2, H3, H4, H5, H6.
  destruct e; repeat split.
Qed.

(** A file that the effects do not write stays as it is. *)
Lemma fs_after_untouched file effects :
  file ∉ written_files effects ->
  forall w,
    readFileSync (fs_after effects w) file = readFileSync w file
    /\ (existsSync w file = true ->
        existsSync (fs_after effects w) file = true).
Proof.
  induction effects as [|e effects IH]; intros Hnot w; [split; auto|].
  cbn [fs_after fold_left].
  assert (Hrest : file ∉ written_files effects).
  { intros Hin. apply Hnot. unfold written_files. cbn [omap].
    destruct e; [exact Hin|exact Hin|]. apply elem_of_cons. right. exact Hin. }
  destruct (IH Hrest (perform w e)) as [Hread Hexists].
  unfold fs_after in *. rewrite Hread. split.
  - destruct e as [line|dir|f content]; [reflexivity..|].
    cbn [perform writeFileSync readFileSync].
    destruct (String.eqb_spec file f) as [->|_]; [|reflexivity].
    exfalso. apply Hnot. unfold written_files. cbn [omap].
    apply elem_of_cons. left. reflexivity.
  - intros Hw. apply Hexists.
    destruct e as [line|dir|f content]; cbn [perform]; [exact Hw|..].
    + cbn [mkdirSync existsSync]. rewrite Hw. apply orb_true_r.
    + cbn [writeFileSync existsSync]. rewrite Hw. apply orb_true_r.
Qed.

(** A file that the effects write once is there afterwards, with the
    content written. *)
Lemma fs_after_written file content effects :
  NoDup (written_files effects) ->
  In (WriteFileSync file content) effects ->
  forall w,
    existsSync (fs_after effects w) file = true
    /\ readFileSync (fs_after effects w) file = Ok content.
Proof.
  induction effects as [|e effects IH]; intros Hnodup Hin w; [destruct Hin|].
  cbn [fs_after fold_left]. destruct Hin as [->|Hin].
  - unfold written_files in Hnodup. cbn [omap] in Hnodup.
    apply NoDup_cons in Hnodup as [Hnot _].
    destruct (fs_after_untouched file effects Hnot
                (perform w (WriteFileSync file content))) as [Hread Hexists].
    unfold fs_after in *. rewrite Hread. split.
    + apply Hexists. cbn [perform writeFileSync existsSync].
      rewrite String.eqb_refl. reflexivity.
    + cbn [perform writeFileSync readFileSync].
      rewrite String.eqb_refl. reflexivity.
  - apply IH; [|exact Hin].
    unfold written_files in Hnodup. cbn [omap] in Hnodup.
    destruct e; [exact Hnodup|exact Hnodup|].
    apply NoDup_cons in Hnodup as [_ H]. exact H.
Qed.

End FileSystem.

Section SplitScript.

Variable w : World.
Variable t : Tools.

Lemma written_files_app a b :
  written_files (a ++ b) = written_files a ++ written_files b.
Proof. apply omap_app. Qed.

Lemma written_files_chunks outputDir (content : nat -> bytes)
    (line : nat -> ScriptLine) l :
  written_files
    (flat_map (fun k => [WriteFileSync (path_join outputDir (chunk_filename k))
                           (content k);
                         Console (line k)]) l)
  = map (fun k => path_join outputDir (chunk_filename k)) l.
Proof.
  induction l as [|k l IH]; [reflexivity|].
  cbn [flat_map map]. rewrite written_files_app, IH. reflexivity.
Qed.

Lemma NoDup_chunk_files outputDir n :
  NoDup (map (fun k => path_join outputDir (chunk_filename k)) (seq 0 n)
         ++ [path_join outputDir "metadata.json"]).
Proof.
  apply NoDup_app. split; [|split].
  - apply (NoDup_fmap_2_strong _ (seq 0 n)); [|apply NoDup_seq].
    intros i j _ _ H. apply chunk_filename_inj.
    exact (path_join_inj outputDir _ _ H).
  - intros p Hp Hm. apply list_elem_of_singleton in Hm. subst p.
    apply list_elem_of_fmap in Hp as (k & Hk & _).
    apply path_join_inj in Hk.
    exact (chunk_filename_not_metadata k (eq_sym Hk)).
  - apply NoDup_singleton.
Qed.

(** The script on an input file that is there and can be read. *)
Lemma split_geoip_db_completed inputFile outputDir chunkSizeMB fileBuffer :
  existsSync w inputFile = true ->
  readFileSync w inputFile = Ok fileBuffer ->
  let metadata := split_metadata t inputFile fileBuffer chunkSizeMB in
  exists effects,
    split_geoip_db w t inputFile outputDir chunkSizeMB = (effects, Completed)
    /\ written_files effects
       = map (fun k => path_join outputDir (chunk_filename k))
           (seq 0 (numChunks metadata))
         ++ [path_join outputDir "metadata.json"]
    /\ In (WriteFileSync (path_join outputDir "metadata.json")
             (JSON_stringify t metadata)) effects
    /\ forall i,
         i < numChunks metadata ->
         In (WriteFileSync (path_join outputDir (chunk_filename i))
               (gzipSync t (chunk_at fileBuffer (chunkSize metadata) i)))
            effects.
Proof.
  intros Hex Hread metadata.
  unfold split_geoip_db. rewrite Hex, Hread. cbn [negb].
  rewrite split_loop_spec. cbv zeta.
  eexists. split; [reflexivity|].
  set (size := Pos.to_nat chunkSizeMB * 1024 * 1024).
  set (n := Math_ceil_div (length fileBuffer) size).
  split; [|split].
  - rewrite !written_files_app, written_files_chunks.
    assert (Hcreated : written_files
              (if negb (existsSync w outputDir)
               then [MkdirSync outputDir;
                     Console (LineCreatedDirectory outputDir)]
               else []) = [])
      by (destruct (negb (existsSync w outputDir)); reflexivity).
    rewrite Hcreated. reflexivity.
  - do 4 (apply in_or_app; right). left. reflexivity.
  - intros i Hi. do 3 (apply in_or_app; right).
    apply in_or_app. left. apply in_flat_map. exists i. split.
    + apply in_seq. change (numChunks metadata) with n in Hi. lia.
    + left. reflexivity.
Qed.

(** X16.  What the splitter writes, for a chunk size of a positive number
    of megabytes.  When the input file is missing, the script prints its
    banner and the error and exits with code 1.  When the file is there but
    cannot be read, the script ends by the exception of the read.  In both
    cases no file has been written.  When the file is there and can be
    read, the script, no write failing, runs to its end, having written the
    chunk files [chunk_000.gz], [chunk_001.gz], ... in index order and then
    [metadata.json], all in the output directory, each chunk file with the
    gzip of its slice and the manifest with the metadata of the input.  No
    file is written twice: the names of the chunks differ from one another,
    also beyond 999 chunks, and from the name of the manifest. *)
Theorem split_geoip_db_writes inputFile outputDir chunkSizeMB :
  let script := split_geoip_db w t inputFile outputDir chunkSizeMB in
  NoDup (written_files (fst script))
  /\ (existsSync w inputFile = false ->
      script
      = ([Console (LineBanner inputFile outputDir chunkSizeMB);
          Console (LineInputNotFound inputFile)], Exit 1)
      /\ written_files (fst script) = [])
  /\ (forall e,
        existsSync w inputFile = true ->
        readFileSync w inputFile = Err e ->
        snd script = Uncaught e /\ written_files (fst script) = [])
  /\ (forall fileBuffer,
        existsSync w inputFile = true ->
        readFileSync w inputFile = Ok fileBuffer ->
        let metadata := split_metadata t inputFile fileBuffer chunkSizeMB in
        snd script = Completed
        /\ written_files (fst script)
           = map (fun k => path_join outputDir (chunk_filename k))
               (seq 0 (numChunks metadata))
             ++ [path_join outputDir "metadata.json"]
        /\ In (WriteFileSync (path_join outputDir "metadata.json")
                 (JSON_stringify t metadata)) (fst script)
        /\ forall i,
             i < numChunks metadata ->
             In (WriteFileSync (path_join outputDir (chunk_filename i))
                   (gzipSync t (chunk_at fileBuffer (chunkSize metadata) i)))
                (fst script)).
Proof.
  intros script. subst script.
  assert (Hmissing : existsSync w inputFile = false ->
            split_geoip_db w t inputFile outputDir chunkSizeMB
            = ([Console (LineBanner inputFile outputDir chunkSizeMB);
                Console (LineInputNotFound inputFile)], Exit 1)).
  { intros Hex. unfold split_geoip_db. rewrite Hex. reflexivity. }
  assert (Hunread : forall e,
            existsSync w inputFile = true ->
            readFileSync w inputFile = Err e ->
            snd (split_geoip_db w t inputFile outputDir chunkSizeMB)
            = Uncaught e
            /\ written_files
                 (fst (split_geoip_db w t inputFile outputDir chunkSizeMB))
               = []).
  { intros e Hex Hread. unfold split_geoip_db. rewrite Hex, Hread.
    cbn [negb fst snd]. split; [reflexivity|].
    destruct (negb (existsSync w outputDir)); reflexivity. }
  split; [|split; [|split]].
  - destruct (existsSync w inputFile) eqn:Hex.
    + destruct (readFileSync w inputFile) as [fileBuffer|e] eqn:Hread.
      * destruct (split_geoip_db_completed inputFile outputDir chunkSizeMB
                    fileBuffer Hex Hread) as (effects & -> & Hfiles & _).
        cbn [fst]. rewrite Hfiles. apply NoDup_chunk_files.
      * destruct (Hunread e eq_refl eq_refl) as [_ ->]. apply NoDup_nil_2.
    + rewrite (Hmissing eq_refl). apply NoDup_nil_2.
  - intros Hex. rewrite (Hmissing Hex). split; reflexivity.
  - exact Hunread.
  - intros fileBuffer Hex Hread metadata.
    destruct (split_geoip_db_completed inputFile outputDir chunkSizeMB
                fileBuffer Hex Hread) as (effects & -> & Hfiles & Hmeta & Hchunks).
    cbn [fst snd]. split; [reflexivity|].
    split; [exact Hfiles|]. split; [exact Hmeta|exact Hchunks].
Qed.

(** A load, without a cached reader, from a directory whose manifest counts
    its entries and whose chunk files are intact. *)
Lemma loadGeoIPFromChunks_intact (w' : World) chunksDir s metadata datas :
  cachedReader s = None ->
  manifest_reads_as w' chunksDir metadata ->
  numChunks metadata = length (chunks metadata) ->
  Forall2 (chunk_intact w' chunksDir) (chunks metadata) datas ->
  length (concat datas) = totalSize metadata ->
  loadGeoIPFromChunks w' chunksDir s
  = match Reader_check w' (concat datas) with
    | None =>
        (Ok (mkReader (concat datas)),
         set_cachedBuffer (Some (concat datas))
           (set_cachedReader (Some (mkReader (concat datas)))
              (add_gunzip_calls (numChunks metadata) s)))
    | Some e => (Err e, add_gunzip_calls (numChunks metadata) s)
    end.
Proof.
  intros Hnone (Hex & text & Hread & Hparse) Hnum Hall Hlen.
  unfold loadGeoIPFromChunks, bind at 1, read at 1. rewrite Hnone, Hex.
  cbn [negb]. unfold bind at 1, lift at 1. rewrite Hread.
  unfold bind at 1, lift at 1. rewrite Hparse. unfold bind at 1.
  rewrite (load_chunks_intact w' chunksDir metadata _ 0 _ 0 s datas).
  - rewrite take_0, Nat.add_0_l.
    rewrite (drop_ge (allocUnsafe w' _))
      by (rewrite length_allocUnsafe; lia).
    rewrite app_nil_l, app_nil_r.
    unfold bind at 1, new_Reader.
    destruct (Reader_check w' (concat datas)) as [e|]; reflexivity.
  - rewrite drop_0, Hnum, firstn_all. exact Hall.
  - lia.
  - rewrite length_allocUnsafe. lia.
Qed.

(** What the script leaves in the output directory: a manifest that reads
    back and chunk files that are intact. *)
Lemma split_geoip_db_intact inputFile outputDir chunkSizeMB fileBuffer :
  existsSync w inputFile = true ->
  readFileSync w inputFile = Ok fileBuffer ->
  (forall chunk, gunzipSync w (gzipSync t chunk) = Ok chunk) ->
  JSON_parse w
    (JSON_stringify t (split_metadata t inputFile fileBuffer chunkSizeMB))
  = Ok (split_metadata t inputFile fileBuffer chunkSizeMB) ->
  let metadata := split_metadata t inputFile fileBuffer chunkSizeMB in
  let script := split_geoip_db w t inputFile outputDir chunkSizeMB in
  let datas := map (chunk_at fileBuffer (chunkSize metadata))
                 (seq 0 (numChunks metadata)) in
  snd script = Completed
  /\ manifest_reads_as (fs_after (fst script) w) outputDir metadata
  /\ numChunks metadata = length (chunks metadata)
  /\ Forall2 (chunk_intact (fs_after (fst script) w) outputDir)
       (chunks metadata) datas
  /\ concat datas = fileBuffer.
Proof.
  intros Hex Hread Hgzip Hjson metadata script datas. subst script.
  destruct (split_geoip_db_completed inputFile outputDir chunkSizeMB
              fileBuffer Hex Hread)
    as (effects & -> & Hfiles & Hmeta & Hchunks).
  fold metadata in Hfiles, Hmeta, Hchunks, Hjson.
  cbn [fst snd]. split; [reflexivity|].
  assert (Hnodup : NoDup (written_files effects))
    by (rewrite Hfiles; apply NoDup_chunk_files).
  destruct (fs_after_tools effects w) as (Hparse & Hgunzip & _).
  pose proof (CHUNK_SIZE_pos chunkSizeMB) as Hpos.
  destruct (Math_ceil_div_covers fileBuffer _ Hpos) as [Hcover _].
  split; [|split; [|split]].
  - destruct (fs_after_written _ _ effects Hnodup Hmeta w) as [He Hr].
    split; [exact He|]. eexists. split; [exact Hr|].
    rewrite Hparse. exact Hjson.
  - change (chunks metadata)
      with (map (chunk_entry t fileBuffer (chunkSize metadata))
              (seq 0 (numChunks metadata))).
    rewrite length_map, length_seq. reflexivity.
  - change (chunks metadata)
      with (map (chunk_entry t fileBuffer (chunkSize metadata))
              (seq 0 (numChunks metadata))).
    apply Forall2_fmap, Forall_Forall2_diag, Forall_forall.
    intros i Hi. apply list_elem_of_In, in_seq in Hi.
    destruct (fs_after_written _ _ effects Hnodup (Hchunks i ltac:(lia)) w)
      as [He Hr].
    split; [|reflexivity]. split; [exact He|].
    eexists. split; [exact Hr|]. rewrite Hgunzip. apply Hgzip.
  - unfold datas. rewrite concat_chunk_at. apply take_ge. exact Hcover.
Qed.

(** X17.  Split, then load, for a chunk size of a positive number of
    megabytes.  When the input file is there and can be read,
    [gunzipSync] undoes [gzipSync] and [JSON.parse] reads back the manifest
    that [JSON.stringify] wrote, the script, no write failing, runs to its
    end and, in the file system that it leaves, a load of the output
    directory puts the input
    file together again: the reader is built on exactly the bytes of the
    input, with one [gunzipSync] call per chunk. *)
Theorem split_then_load inputFile outputDir chunkSizeMB fileBuffer s :
  existsSync w inputFile = true ->
  readFileSync w inputFile = Ok fileBuffer ->
  (forall chunk, gunzipSync w (gzipSync t chunk) = Ok chunk) ->
  JSON_parse w
    (JSON_stringify t (split_metadata t inputFile fileBuffer chunkSizeMB))
  = Ok (split_metadata t inputFile fileBuffer chunkSizeMB) ->
  cachedReader s = None ->
  let metadata := split_metadata t inputFile fileBuffer chunkSizeMB in
  let script := split_geoip_db w t inputFile outputDir chunkSizeMB in
  snd script = Completed
  /\ loadGeoIPFromChunks (fs_after (fst script) w) outputDir s
     = match Reader_check w fileBuffer with
       | None =>
           (Ok (mkReader fileBuffer),
            set_cachedBuffer (Some fileBuffer)
              (set_cachedReader (Some (mkReader fileBuffer))
                 (add_gunzip_calls (numChunks metadata) s)))
       | Some e => (Err e, add_gunzip_calls (numChunks metadata) s)
       end.
Proof.
  intros Hex Hread Hgzip Hjson Hnone metadata script.
  destruct (split_geoip_db_intact inputFile outputDir chunkSizeMB fileBuffer
              Hex Hread Hgzip Hjson)
    as (Hend & Hmanifest & Hnum & Hall & Hconcat).
  fold metadata script in Hend, Hmanifest, Hnum, Hall, Hconcat.
  split; [exact Hend|].
  destruct (fs_after_tools (fst script) w) as (_ & _ & _ & Hcheck & _).
  rewrite (loadGeoIPFromChunks_intact _ outputDir s metadata _
             Hnone Hmanifest Hnum Hall)
    by (rewrite Hconcat; reflexivity).
  rewrite Hconcat, Hcheck. reflexivity.
Qed.

(** X18.  From the splitter to a country code, for a chunk size of a
    positive number of megabytes and under the conditions of X17 on gzip and
    JSON.  When the script has split a database that the reader constructor
    accepts into the chunks directory of the application, the selector picks the chunked database, whatever
    other database files there are, and the first non-blocking lookup of an
    address loads the chunks and answers what the provider finds for it in
    the bytes of the original database, read in the MaxMind format; the
    first blocking lookup of the same address answers [null]. *)
Theorem split_then_lookup inputFile chunkSizeMB fileBuffer ip record :
  existsSync w inputFile = true ->
  readFileSync w inputFile = Ok fileBuffer ->
  (forall chunk, gunzipSync w (gzipSync t chunk) = Ok chunk) ->
  JSON_parse w
    (JSON_stringify t (split_metadata t inputFile fileBuffer chunkSizeMB))
  = Ok (split_metadata t inputFile fileBuffer chunkSizeMB) ->
  Reader_check w fileBuffer = None ->
  no_address ip = false ->
  Reader_get w fileBuffer ip = Ok record ->
  let outputDir := path_join (basePath w) "chunks" in
  let w' :=
    fs_after (fst (split_geoip_db w t inputFile outputDir chunkSizeMB)) w in
  detectDatabaseType w'
  = Ok {| path := outputDir; type := maxmind; chunked := true |}
  /\ fst (getCountryCodeFromIPAsync w' ip initial_state)
     = Ok (extractCountryCode maxmind record)
  /\ geoIPReader (snd (getCountryCodeFromIPAsync w' ip initial_state))
     = Some (mkReader fileBuffer)
  /\ getCountryCodeFromIP w' ip initial_state = (Ok None, initial_state).
Proof.
  intros Hex Hread Hgzip Hjson Haccept Haddress Hrecord outputDir w'.
  destruct (split_geoip_db_intact inputFile outputDir chunkSizeMB fileBuffer
              Hex Hread Hgzip Hjson)
    as (_ & Hmanifest & Hnum & Hall & Hconcat).
  fold w' in Hmanifest, Hall.
  destruct (fs_after_tools
              (fst (split_geoip_db w t inputFile outputDir chunkSizeMB)) w)
    as (_ & _ & _ & Hcheck & Hget & Hcwd).
  fold w' in Hcheck, Hget, Hcwd.
  assert (Hbase : basePath w' = basePath w)
    by (unfold basePath; rewrite Hcwd; reflexivity).
  assert (Hchunked : hasChunkedDatabase w' (path_join (basePath w') "chunks")
                     = true).
  { rewrite Hbase. destruct Hmanifest as [He _]. exact He. }
  assert (Hdetect : detectDatabaseType w'
                    = Ok {| path := outputDir; type := maxmind;
                            chunked := true |}).
  { unfold detectDatabaseType. rewrite Hchunked, Hbase. reflexivity. }
  assert (Hload : forall s,
             cachedReader s = None ->
             loadGeoIPFromChunks w' outputDir s
             = (Ok (mkReader fileBuffer),
                set_cachedBuffer (Some fileBuffer)
                  (set_cachedReader (Some (mkReader fileBuffer))
                     (add_gunzip_calls
                        (numChunks (split_metadata t inputFile fileBuffer
                                      chunkSizeMB)) s)))).
  { intros s Hnone.
    rewrite (loadGeoIPFromChunks_intact _ outputDir s _ _
               Hnone Hmanifest Hnum Hall)
      by (rewrite Hconcat; reflexivity).
    rewrite Hconcat, Hcheck, Haccept. reflexivity. }
  split; [exact Hdetect|].
  assert (Hasync : exists s1,
             initGeoIPReaderAsync w' initial_state
             = (Ok (mkReader fileBuffer), s1)
             /\ geoIPReader s1 = Some (mkReader fileBuffer)
             /\ databaseType s1 = maxmind).
  { unfold initGeoIPReaderAsync, bind at 1, read at 1.
    cbn [geoIPReader initial_state].
    unfold bind at 1, read at 1, bind at 1, read at 1.
    cbn [isInitializing initPromise initial_state].
    unfold bind at 1, write at 1, init_task, try_catch, bind at 1, lift at 1.
    rewrite Hdetect. cbn [chunked path type]. unfold bind at 1.
    rewrite Hload by reflexivity.
    eexists. split; [reflexivity|]. split; reflexivity. }
  destruct Hasync as (s1 & Hinit & Hreader & Htype).
  rewrite getCountryCodeFromIPAsync_resolve, resolve_with_cases, Haddress.
  change (Map_has ip (ipCountryCache initial_state)) with false.
  cbv iota. rewrite Hinit. cbn [reader_buffer]. rewrite Hget, Hrecord.
  cbv zeta. rewrite Htype. cbn [fst snd].
  split; [reflexivity|]. split; [exact Hreader|].
  rewrite getCountryCodeFromIP_resolve, resolve_with_cases, Haddress.
  change (Map_has ip (ipCountryCache initial_state)) with false.
  cbv iota.
  rewrite (initGeoIPReader_cold w' initial_state eq_refl Hchunked).
  reflexivity.
Qed.

End SplitScript.

Section Manifest.

Variable w : World.

Lemma load_chunks_length chunksDir metadata n :
  forall i fullBuffer offset s buffer s',
    load_chunks w chunksDir metadata n i fullBuffer offset s = (Ok buffer, s') ->
    length buffer = length fullBuffer.
Proof.
  induction n as [|n IH]; intros i fullBuffer offset s buffer s';
    cbn [load_chunks].
  - intros [= <- _]. reflexivity.
  - unfold bind at 1.
    destruct (chunks metadata !! i) as [c|]; cbn [ret throw]; [|discriminate].
    destruct (existsSync w _); cbn [negb throw]; [|discriminate].
    unfold bind at 1, lift at 1.
    destruct (readFileSync w _) as [compressed|e]; [|discriminate].
    unfold bind at 1, gunzip, bind at 1, write at 1, lift at 1.
    destruct (gunzipSync w compressed) as [d|e]; [|discriminate].
    destruct (Nat.eqb (length d) (originalSize c)); cbn [negb throw];
      [|discriminate].
    intros H. apply IH in H. rewrite length_Buffer_copy in H. exact H.
Qed.

(** X19.  [getChunkedMetadata] tells what a load that finds no cached
    reader will do.  Without a manifest file it returns [null] and the load
    throws "Metadata file not found".  When it throws, reading or parsing
    the manifest file, the load throws the same exception.  In both cases no
    chunk is read.  When it returns a manifest, that is the manifest the
    load works from: a load that succeeds has made [numChunks] calls of
    [gunzipSync], the manifest has at least [numChunks] entries, and the
    buffer of the reader, which is the one cached, has [totalSize] bytes,
    whatever the chunks hold.  (A manifest file whose JSON is not a
    manifest object, such as [null], is outside the typed [JSON_parse].) *)
Theorem getChunkedMetadata_predicts_load chunksDir s :
  cachedReader s = None ->
  (hasChunkedDatabase w chunksDir = false ->
   getChunkedMetadata w chunksDir = Ok None
   /\ loadGeoIPFromChunks w chunksDir s
      = (Err (MetadataNotFound (path_join chunksDir "metadata.json")), s))
  /\ (forall e,
        getChunkedMetadata w chunksDir = Err e ->
        hasChunkedDatabase w chunksDir = true
        /\ loadGeoIPFromChunks w chunksDir s = (Err e, s))
  /\ (forall metadata,
        getChunkedMetadata w chunksDir = Ok (Some metadata) ->
        manifest_reads_as w chunksDir metadata
        /\ forall reader s',
             loadGeoIPFromChunks w chunksDir s = (Ok reader, s') ->
             length (reader_buffer reader) = totalSize metadata
             /\ gunzip_calls s' = numChunks metadata + gunzip_calls s
             /\ numChunks metadata <= length (chunks metadata)
             /\ cachedReader s' = Some reader
             /\ cachedBuffer s' = Some (reader_buffer reader)).
Proof.
  intros Hnone.
  assert (Hload :
            loadGeoIPFromChunks w chunksDir s
            = if negb (existsSync w (path_join chunksDir "metadata.json"))
              then (Err (MetadataNotFound
                           (path_join chunksDir "metadata.json")), s)
              else
                match readFileSync w (path_join chunksDir "metadata.json") with
                | Err e => (Err e, s)
                | Ok text =>
                    match JSON_parse w text with
                    | Err e => (Err e, s)
                    | Ok metadata =>
                        (fullBuffer <- load_chunks w chunksDir metadata
                                         (numChunks metadata) 0
                                         (allocUnsafe w (totalSize metadata))
                                         0 ;;
                         reader <- new_Reader w fullBuffer ;;
                         write (set_cachedReader (Some reader)) ;;
                         write (set_cachedBuffer (Some fullBuffer)) ;;
                         ret reader) s
                    end
                end).
  { unfold loadGeoIPFromChunks, bind at 1, read at 1. rewrite Hnone.
    destruct (existsSync w _); cbn [negb]; [|reflexivity].
    unfold bind at 1, lift at 1.
    destruct (readFileSync w _) as [text|e]; [|reflexivity].
    unfold bind at 1, lift at 1.
    destruct (JSON_parse w text); reflexivity. }
  rewrite Hload. clear Hload.
  unfold getChunkedMetadata, hasChunkedDatabase, manifest_reads_as.
  destruct (existsSync w (path_join chunksDir "metadata.json"));
    cbn [negb].
  2:{ split; [intros _; split; reflexivity|].
      split; [intros e [=]|intros metadata [=]]. }
  split; [discriminate|].
  destruct (readFileSync w (path_join chunksDir "metadata.json"))
    as [text|e0].
  2:{ split; [intros e [= <-]; split; reflexivity|intros metadata [=]]. }
  destruct (JSON_parse w text) as [metadata0|e0] eqn:Hparse.
  2:{ split; [intros e [= <-]; split; reflexivity|intros metadata [=]]. }
  split; [intros e [=]|]. intros metadata [= <-].
  split.
  { split; [reflexivity|]. exists text. split; [reflexivity|exact Hparse]. }
  intros reader s'. unfold bind at 1.
  destruct (load_chunks w chunksDir metadata0 (numChunks metadata0) 0
              (allocUnsafe w (totalSize metadata0)) 0 s)
    as [[buffer|e] s1] eqn:Hloop; [|discriminate].
  pose proof (load_chunks_length _ _ _ _ _ _ _ _ _ Hloop) as Hlength.
  rewrite length_allocUnsafe in Hlength.
  apply load_chunks_complete in Hloop as (datas & Hall & Hdatas & ->).
  apply Forall2_length in Hall. rewrite length_take, drop_0 in Hall.
  unfold bind at 1, new_Reader.
  destruct (Reader_check w buffer) as [e|]; cbn [throw ret]; [discriminate|].
  cbn. intros [= <- <-]. cbn.
  split; [exact Hlength|]. split; [reflexivity|]. split; [lia|].
  split; reflexivity.
Qed.

End Manifest.

Lemma getChunkedMetadata_predicts_load_witness :
  getChunkedMetadata Sample.chunked Sample.dir = Ok (Some Sample.manifest)
  /\ length (reader_buffer (mkReader [Byte.x41; Byte.x42; Byte.x43]))
     = totalSize Sample.manifest
  /\ gunzip_calls
       (snd (loadGeoIPFromChunks Sample.chunked Sample.dir initial_state))
     = numChunks Sample.manifest + gunzip_calls initial_state
  /\ getChunkedMetadata Sample.empty Sample.dir = Ok None
  /\ loadGeoIPFromChunks Sample.empty Sample.dir initial_state
     = (Err (MetadataNotFound (path_join Sample.dir "metadata.json")),
        initial_state).
Proof.
  destruct (getChunkedMetadata_predicts_load Sample.chunked Sample.dir
              initial_state eq_refl) as (_ & _ & Hmanifest).
  destruct (Hmanifest Sample.manifest eq_refl) as [_ Hload].
  destruct (Hload (mkReader [Byte.x41; Byte.x42; Byte.x43])
              (snd (loadGeoIPFromChunks Sample.chunked Sample.dir
                      initial_state))
              ltac:(vm_compute; reflexivity)) as (Hlength & Hcalls & _).
  destruct (getChunkedMetadata_predicts_load Sample.empty Sample.dir
              initial_state eq_refl) as (Hnone & _).
  destruct (Hnone eq_refl) as [Hnull Hthrow].
  split; [reflexivity|]. split; [exact Hlength|]. split; [exact Hcalls|].
  split; [exact Hnull|exact Hthrow].
Defined.

Lemma split_geoip_db_writes_witness :
  snd (split_geoip_db Cases.unsplit Cases.tools
         "lib/maxmind-db/GeoLite2-City.mmdb" "lib/maxmind-db/chunks" 1)
  = Completed
  /\ written_files
       (fst (split_geoip_db Cases.unsplit Cases.tools
               "lib/maxmind-db/GeoLite2-City.mmdb" "lib/maxmind-db/chunks" 1))
     = ["lib/maxmind-db/chunks/chunk_000.gz";
        "lib/maxmind-db/chunks/metadata.json"]
  /\ snd (split_geoip_db Cases.unsplit Cases.tools
            "lib/maxmind-db/country.mmdb" "lib/maxmind-db/chunks" 1)
     = Exit 1.
Proof.
  destruct (split_geoip_db_writes Cases.unsplit Cases.tools
              "lib/maxmind-db/GeoLite2-City.mmdb" "lib/maxmind-db/chunks" 1)
    as (_ & _ & _ & Hthere).
  destruct (Hthere Cases.database eq_refl eq_refl) as (Hend & Hfiles & _).
  destruct (split_geoip_db_writes Cases.unsplit Cases.tools
              "lib/maxmind-db/country.mmdb" "lib/maxmind-db/chunks" 1)
    as (_ & Hmissing & _).
  destruct (Hmissing eq_refl) as [Hexit _].
  split; [exact Hend|]. split; [|rewrite Hexit; reflexivity].
  rewrite Hfiles. vm_compute. reflexivity.
Defined.

Lemma split_then_lookup_witness :
  fst (getCountryCodeFromIPAsync
         (fs_after
            (fst (split_geoip_db Cases.unsplit Cases.tools
                    "lib/maxmind-db/GeoLite2-City.mmdb"
                    (path_join (basePath Cases.unsplit) "chunks") 1))
            Cases.unsplit)
         "8.8.8.8" initial_state)
  = Ok (Some "US").
Proof.
  pose proof (split_then_lookup Cases.unsplit Cases.tools
                "lib/maxmind-db/GeoLite2-City.mmdb" 1 Cases.database
                "8.8.8.8" (Some Sample.us)
                eq_refl eq_refl (fun chunk => eq_refl) eq_refl eq_refl
                eq_refl eq_refl) as H.
  cbv zeta in H. destruct H as (_ & Hlookup & _).
  rewrite Hlookup. reflexivity.
Defined.

Lemma split_then_load_witness :
  snd (split_geoip_db Cases.unsplit Cases.tools
         "lib/maxmind-db/GeoLite2-City.mmdb" "lib/maxmind-db/chunks" 1)
  = Completed
  /\ fst (loadGeoIPFromChunks
            (fs_after
               (fst (split_geoip_db Cases.unsplit Cases.tools
                       "lib/maxmind-db/GeoLite2-City.mmdb"
                       "lib/maxmind-db/chunks" 1))
               Cases.unsplit)
            "lib/maxmind-db/chunks" initial_state)
     = Ok (mkReader Cases.database).
Proof.
  pose proof (split_then_load Cases.unsplit Cases.tools
                "lib/maxmind-db/GeoLite2-City.mmdb" "lib/maxmind-db/chunks" 1
                Cases.database initial_state
                eq_refl eq_refl (fun chunk => eq_refl) eq_refl eq_refl) as H.
  cbv zeta in H. destruct H as [Hend Hload].
  split; [exact Hend|]. rewrite Hload. reflexivity.
Defined.

(** ** The preload flag *)

Section PreloadFlag.

Variable w : World.

Lemma resolve_with_blind {B} (f : State -> B) init ip :
  keeps f init ->
  (forall s, f (count_query s) = f s) ->
  (forall c s, f (set_ipCountryCache c s) = f s) ->
  keeps f (resolve_with w init ip).
Proof.
  intros Hinit Hquery Hcache s. rewrite resolve_with_cases.
  destruct (no_address ip); [reflexivity|].
  destruct (Map_has ip (ipCountryCache s)); [reflexivity|].
  specialize (Hinit s). destruct (init s) as [[reader|e] s1]; [|exact Hinit].
  destruct (Reader_get w (reader_buffer reader) ip); cbn [snd];
    rewrite ?Hcache, Hquery; exact Hinit.
Qed.

Lemma preloadGeoIPDatabase_flag_up s :
  isPreloaded s = true -> isPreloaded (snd (preloadGeoIPDatabase w s)) = true.
Proof.
  intros Hflag. unfold preloadGeoIPDatabase, bind at 1, read at 1.
  rewrite Hflag. exact Hflag.
Qed.

Lemma preloadGeoIPDatabase_flag_set s :
  isPreloaded s = false ->
  isPreloaded (snd (preloadGeoIPDatabase w s)) = true ->
  hasChunkedDatabase w (preload_chunksDir w) = true.
Proof.
  intros Hflag. unfold preloadGeoIPDatabase, bind at 1, read at 1.
  rewrite Hflag. unfold bind at 1, read at 1.
  destruct (preloadPromise s) as [outcome|].
  { unfold bind, write, lift. cbn. rewrite Hflag. discriminate. }
  destruct (hasChunkedDatabase w (preload_chunksDir w)) eqn:Hchunked;
    [reflexivity|].
  unfold preload_task. rewrite Hchunked. cbn. rewrite Hflag. discriminate.
Qed.

(** Only a preload changes [isPreloaded], and only to [true], with a
    manifest in the chunks directory. *)
Lemma step_isPreloaded s op :
  isPreloaded (step w s op) = isPreloaded s
  \/ (isPreloaded s = false /\ isPreloaded (step w s op) = true
      /\ op = OpPreload
      /\ hasChunkedDatabase w (preload_chunksDir w) = true).
Proof.
  assert (Hsync : forall ip,
             keeps isPreloaded (getCountryCodeFromIP w ip)).
  { intros ip. apply resolve_with_blind; [|reflexivity..].
    apply keeps_initGeoIPReader. repeat split. }
  destruct op; cbn [step].
  - left. apply keeps_loadGeoIPFromChunks. repeat split.
  - left. reflexivity.
  - destruct (isPreloaded s) eqn:Hflag.
    + left. apply preloadGeoIPDatabase_flag_up. exact Hflag.
    + destruct (isPreloaded (snd (preloadGeoIPDatabase w s))) eqn:Hafter;
        [|left; reflexivity].
      right. split; [reflexivity|]. split; [reflexivity|].
      split; [reflexivity|].
      exact (preloadGeoIPDatabase_flag_set s Hflag Hafter).
  - left. apply Hsync.
  - left. apply resolve_with_blind; [|reflexivity..].
    apply keeps_initGeoIPReaderAsync. repeat split.
  - left.
    apply (getCountryCodeFromServerIPs_preserves w
             (fun x => isPreloaded x = isPreloaded s)); [|reflexivity].
    intros ip x Hx. rewrite Hsync. exact Hx.
  - left. reflexivity.
Qed.

(** X20.  [isGeoIPPreloaded] says that a preload once succeeded, not that
    the database is loaded.  When it is [true] after a run, the run
    contains a preload and the chunks directory has a manifest; it is
    [true] after every continuation of the run, since nothing resets the
    flag; and after [clearChunkedCache] the chunk loader has no reader
    while the flag is still up, so that a further preload loads nothing. *)
Theorem isGeoIPPreloaded_sticky ops :
  fst (isGeoIPPreloaded (run w ops)) = Ok true ->
  hasChunkedDatabase w (preload_chunksDir w) = true
  /\ In OpPreload ops
  /\ (forall ops', fst (isGeoIPPreloaded (run w (ops ++ ops'))) = Ok true)
  /\ (forall ops',
        let s := run w (ops ++ ops' ++ [OpClearChunkedCache; OpPreload]) in
        fst (isGeoIPPreloaded s) = Ok true /\ cachedReader s = None).
Proof.
  intros Hflag.
  assert (Hup : isPreloaded (run w ops) = true)
    by (injection Hflag as H; exact H).
  clear Hflag.
  assert (Hsticky : forall ops',
             isPreloaded (run w (ops ++ ops')) = true).
  { intros ops'. unfold run in *. rewrite fold_left_app.
    induction ops' as [|op ops' IH] using rev_ind; [exact Hup|].
    rewrite fold_left_app. cbn [fold_left].
    destruct (step_isPreloaded
                (fold_left (step w) ops' (fold_left (step w) ops initial_state))
                op) as [Hsame|(_ & Hset & _)];
      [rewrite Hsame; exact IH|exact Hset]. }
  assert (Hcause : hasChunkedDatabase w (preload_chunksDir w) = true
                   /\ In OpPreload ops).
  { clear Hsticky. revert Hup. unfold run.
    induction ops as [|op ops IH] using rev_ind; [discriminate|].
    rewrite fold_left_app. cbn [fold_left]. intros Hup.
    destruct (step_isPreloaded (fold_left (step w) ops initial_state) op)
      as [Hsame|(_ & _ & -> & Hchunked)].
    - rewrite Hsame in Hup. destruct (IH Hup) as [Hc Hin].
      split; [exact Hc|]. apply in_or_app. left. exact Hin.
    - split; [exact Hchunked|]. apply in_or_app. right. left. reflexivity. }
  destruct Hcause as [Hchunked Hin].
  split; [exact Hchunked|]. split; [exact Hin|]. split.
  - intros ops'. unfold isGeoIPPreloaded, read. cbn [fst].
    rewrite Hsticky. reflexivity.
  - intros ops' s. subst s. rewrite app_assoc.
    unfold run. rewrite fold_left_app. cbn [fold_left step].
    fold (run w (ops ++ ops')).
    specialize (Hsticky ops').
    set (s := run w (ops ++ ops')) in *.
    unfold clearChunkedCache, preloadGeoIPDatabase, isGeoIPPreloaded,
      bind, read, write.
    cbn. rewrite Hsticky. cbn. rewrite Hsticky. split; reflexivity.
Qed.

End PreloadFlag.

Lemma isGeoIPPreloaded_sticky_witness :
  fst (isGeoIPPreloaded
         (run Sample.chunked
            ([OpPreload] ++ [OpLookup "8.8.8.8"]
             ++ [OpClearChunkedCache; OpPreload])))
  = Ok true
  /\ cachedReader
       (run Sample.chunked
          ([OpPreload] ++ [OpLookup "8.8.8.8"]
           ++ [OpClearChunkedCache; OpPreload]))
     = None.
Proof.
  pose proof (isGeoIPPreloaded_sticky Sample.chunked [OpPreload]
                ltac:(vm_compute; reflexivity)) as H.
  destruct H as (_ & _ & _ & Hclear).
  exact (Hclear [OpLookup "8.8.8.8"]).
Defined.

(** ** A database in one file *)

Section WholeFile.

(** X21.  A database in one file is read once.  When the selector picks a
    file that can be read and that the reader constructor accepts, the
    first blocking lookup of an address builds the reader on the bytes of
    the file, fixes the format by the file picked and answers what the
    provider finds, read in that format; one provider query is made and the
    answer is cached.  From then on the files are not looked at: a lookup
    of another address answers from the same bytes in the same format even
    when no database file is left on the disk. *)
Theorem getCountryCodeFromIP_whole_file (w w2 : World) sel dbBuffer
    ip record ip2 record2 :
  detectDatabaseType w = Ok sel ->
  chunked sel = false ->
  readFileSync w (path sel) = Ok dbBuffer ->
  Reader_check w dbBuffer = None ->
  no_address ip = false ->
  Reader_get w dbBuffer ip = Ok record ->
  no_address ip2 = false ->
  ip <> ip2 ->
  Reader_get w2 dbBuffer ip2 = Ok record2 ->
  let code := extractCountryCode (type sel) record in
  let code2 := extractCountryCode (type sel) record2 in
  let s1 :=
    set_ipCountryCache [(ip, code)]
      (count_query
         (set_databaseType (type sel)
            (set_geoIPReader (Some (mkReader dbBuffer)) initial_state))) in
  getCountryCodeFromIP w ip initial_state = (Ok code, s1)
  /\ getCountryCodeFromIP w2 ip2 s1
     = (Ok code2,
        set_ipCountryCache [(ip, code); (ip2, code2)] (count_query s1)).
Proof.
  intros Hdetect Hwhole Hread Haccept Haddress Hrecord Haddress2 Hdiff
    Hrecord2 code code2 s1.
  assert (Hinit : initGeoIPReader w initial_state
                  = (Ok (mkReader dbBuffer),
                     set_databaseType (type sel)
                       (set_geoIPReader (Some (mkReader dbBuffer))
                          initial_state))).
  { unfold initGeoIPReader, bind at 1, read at 1.
    cbn [geoIPReader initial_state].
    unfold try_catch, bind at 1, lift at 1. rewrite Hdetect, Hwhole.
    unfold bind at 1, lift at 1. rewrite Hread.
    unfold bind at 1, new_Reader. rewrite Haccept. reflexivity. }
  assert (Hone : 1 < MAX_CACHE_SIZE)
    by (apply Nat.ltb_lt; vm_compute; reflexivity).
  split.
  - rewrite getCountryCodeFromIP_resolve, resolve_with_cases, Haddress.
    change (Map_has ip (ipCountryCache initial_state)) with false.
    cbv iota. rewrite Hinit. cbn [reader_buffer]. rewrite Hrecord.
    cbv zeta.
    change (ipCountryCache
              (set_databaseType (type sel)
                 (set_geoIPReader (Some (mkReader dbBuffer)) initial_state)))
      with (@nil (string * option string)).
    rewrite (cache_store_room ip _ [])
      by (reflexivity || apply MAX_CACHE_SIZE_pos).
    reflexivity.
  - rewrite getCountryCodeFromIP_resolve, resolve_with_cases, Haddress2.
    assert (Habsent : Map_has ip2 (ipCountryCache s1) = false).
    { change (ipCountryCache s1) with [(ip, code)].
      unfold Map_has. cbn [existsb fst]. rewrite orb_false_r.
      apply String.eqb_neq. exact Hdiff. }
    rewrite Habsent.
    rewrite (initGeoIPReader_ready w2 (mkReader dbBuffer) s1 eq_refl).
    cbn [reader_buffer]. rewrite Hrecord2. cbv zeta.
    change (ipCountryCache s1) with [(ip, code)].
    change (databaseType s1) with (type sel).
    rewrite (cache_store_room ip2 _ [(ip, code)]).
    + reflexivity.
    + change (Map_has ip2 (ipCountryCache s1) = false). exact Habsent.
    + exact Hone.
Qed.

End WholeFile.

Lemma getCountryCodeFromIP_whole_file_witness :
  fst (getCountryCodeFromIP Sample.monolithic "8.8.8.8" initial_state)
  = Ok (Some "US")
  /\ fst (getCountryCodeFromIP Sample.empty "1.1.1.1"
            (snd (getCountryCodeFromIP Sample.monolithic "8.8.8.8"
                    initial_state)))
     = Ok (Some "AU").
Proof.
  pose proof (getCountryCodeFromIP_whole_file Sample.monolithic Sample.empty
                (mkSelection "/app/lib/maxmind-db/GeoLite2-City.mmdb"
                   maxmind false)
                [Byte.x00] "8.8.8.8" (Some Sample.us) "1.1.1.1"
                (Some Sample.au)
                eq_refl eq_refl eq_refl eq_refl eq_refl eq_refl eq_refl
                ltac:(discriminate) eq_refl) as H.
  cbv zeta in H. destruct H as [Hfirst Hsecond].
  rewrite Hfirst. cbn [fst snd]. rewrite Hsecond. split; reflexivity.
Defined.
